(** * MS2PIP: peptide encoding, modification registry and XGBoost reshaping

    A shallow embedding of [ms2pip/_utils/peptides.py] and of the reshaping,
    modification and model-integrity helpers of [ms2pip/predict_xgboost.py],
    followed by the properties of the design document that concern them.

    Conventions of the embedding:
    - Python exceptions are values of [Py.exn]; a computation that may raise
      returns a [Py.result]; code that also mutates an object threads the
      object through the state-and-error monad [Py.SE].
    - Python [str] is [string], read as ASCII text; Python [int] is [Z].
    - A [dict] whose iteration order is observable (the categories of the
      registry) is an insertion-ordered association list ([Py.odict_*]); a
      [dict] that is only looked up is a [gmap].
    - numpy [uint16] arrays live in a heap of arrays addressed by references,
      so that copies and in-place writes can be told apart.
    - Python floats are kept abstract (a type [F] with the operations the
      code uses); the last section instantiates them with binary64. *)

From Stdlib Require Import ZArith Ascii Floats.
From stdpp Require Import gmap strings list fin_maps.

Local Open Scope Z_scope.

(** ** Python runtime: exceptions, results, strings, containers *)

Module Py.

(** The exception classes that the embedded code raises or lets escape.  The
    first six are the classes of [ms2pip.exceptions] that the code names
    ([UnknownFragmentationMethodError] is imported by [predict_xgboost] but not
    declared in [exceptions.py]); the others are Python built-ins. *)
Inductive exn : Type :=
  | InvalidPeptideError (msg : string)
  | InvalidAminoAcidError (msg : string)
  | InvalidModificationFormattingError (msg : string)
  | UnknownModificationError (name : string)
  | InvalidXGBoostModelError
  | UnknownFragmentationMethodError
  | PyteomicsError (msg : string)
  | ValueError (msg : string)
  | KeyError (key : string)
  | IndexError (msg : string)
  | NameError (name : string)
  | OverflowError (msg : string)
  | ZeroDivisionError (msg : string)
  | OSError (path : string).

Inductive result (A : Type) : Type :=
  | Ok (a : A)
  | Raise (e : exn).
Arguments Ok {A} a.
Arguments Raise {A} e.

Definition bind {A B} (m : result A) (k : A → result B) : result B :=
  match m with
  | Ok a => k a
  | Raise e => Raise e
  end.

(** [try: m except handler] where [handler e = None] means "not caught". *)
Definition try_except {A} (m : result A) (handler : exn → option (result A))
    : result A :=
  match m with
  | Ok a => Ok a
  | Raise e => default (Raise e) (handler e)
  end.

Fixpoint mapM {A B} (f : A → result B) (l : list A) : result (list B) :=
  match l with
  | [] => Ok []
  | x :: l' => bind (f x) (λ y, bind (mapM f l') (λ ys, Ok (y :: ys)))
  end.

(** State threaded through a computation that may raise: the state comes back
    also when an exception escapes, as a mutated Python object does. *)
Definition SE (S A : Type) : Type := S → S * result A.

Definition sret {S A} (a : A) : SE S A := λ s, (s, Ok a).
Definition sraise {S A} (e : exn) : SE S A := λ s, (s, Raise e).
Definition slift {S A} (r : result A) : SE S A := λ s, (s, r).
Definition sget {S} : SE S S := λ s, (s, Ok s).
Definition sput {S} (s' : S) : SE S unit := λ _, (s', Ok tt).
Definition sbind {S A B} (m : SE S A) (k : A → SE S B) : SE S B :=
  λ s, match m s with
       | (s', Ok a) => k a s'
       | (s', Raise e) => (s', Raise e)
       end.

(** [for x in l: body x] *)
Fixpoint for_ {S A} (l : list A) (body : A → SE S unit) : SE S unit :=
  match l with
  | [] => sret tt
  | x :: l' => sbind (body x) (λ _, for_ l' body)
  end.

(** [[f x for x in l]] where [f] reads or writes the state. *)
Fixpoint smapM {S A B} (f : A → SE S B) (l : list A) : SE S (list B) :=
  match l with
  | [] => sret []
  | x :: l' => sbind (f x) (λ y, sbind (smapM f l') (λ ys, sret (y :: ys)))
  end.

(** *** str *)

Definition upper_char (c : ascii) : ascii :=
  let n := nat_of_ascii c in
  if ((97 <=? n) && (n <=? 122))%nat then ascii_of_nat (n - 32) else c.

Fixpoint str_map (f : ascii → ascii) (s : string) : string :=
  match s with
  | EmptyString => EmptyString
  | String c s' => String (f c) (str_map f s')
  end.

(** [s.upper()] on ASCII text: [a]..[z] become [A]..[Z], every other
    character is kept.  Outside ASCII [str.upper()] also maps other letters
    and can change the number of characters (the sharp s becomes [SS]);
    what is stated about the length of an upper-cased string is stated for
    [ascii_text]. *)
Definition str_upper (s : string) : string := str_map upper_char s.

(** [s.replace(old, new)] for one-character [old] and [new]. *)
Definition str_replace (old new : ascii) (s : string) : string :=
  str_map (λ c, if decide (c = old) then new else c) s.

(** The characters of a string as Python iterates them: one-character
    strings. *)
Fixpoint str_iter (s : string) : list string :=
  match s with
  | EmptyString => []
  | String c s' => String c EmptyString :: str_iter s'
  end.

(** [s.split(sep)] for a one-character separator. *)
Fixpoint str_split (sep : ascii) (s : string) : list string :=
  match s with
  | EmptyString => [EmptyString]
  | String c s' =>
      if decide (c = sep) then EmptyString :: str_split sep s'
      else match str_split sep s' with
           | [] => [String c EmptyString]
           | w :: ws => String c w :: ws
           end
  end.

(** [s.rsplit(sep, 1)]: split once, at the last occurrence of [sep]. *)
Definition str_rsplit1 (sep : ascii) (s : string) : list string :=
  match reverse (str_split sep s) with
  | [] => [s]
  | [_] => [s]
  | lst :: before =>
      [String.concat (String sep EmptyString) (reverse before); lst]
  end.

(** [bool(s)] *)
Definition str_truthy (s : string) : bool :=
  match s with EmptyString => false | _ => true end.

(** [sub in s] *)
Fixpoint str_contains (sub s : string) : bool :=
  String.prefix sub s
  || match s with
     | EmptyString => false
     | String _ s' => str_contains sub s'
     end.

(** [s[n:]] for a non-negative [n]. *)
Fixpoint str_drop (n : nat) (s : string) : string :=
  match n, s with
  | O, _ => s
  | S n', EmptyString => EmptyString
  | S n', String _ s' => str_drop n' s'
  end.

(** [s[-n:]] for a positive [n]: the last [n] characters, or all of [s]. *)
Definition str_suffix (n : nat) (s : string) : string :=
  str_drop (String.length s - n) s.

(** [c.isspace()] on ASCII text: tab, line feed, vertical tab, form feed,
    carriage return, the four separators 28..31 and the space. *)
Definition is_space (c : ascii) : bool :=
  let n := nat_of_ascii c in
  (((9 <=? n) && (n <=? 13)) || ((28 <=? n) && (n <=? 32)))%nat.

Fixpoint str_lstrip (s : string) : string :=
  match s with
  | EmptyString => EmptyString
  | String c s' => if is_space c then str_lstrip s' else s
  end.

Fixpoint str_rstrip (s : string) : string :=
  match s with
  | EmptyString => EmptyString
  | String c s' =>
      match str_rstrip s' with
      | EmptyString => if is_space c then EmptyString
                       else String c EmptyString
      | r => String c r
      end
  end.

(** [s.strip()] *)
Definition str_strip (s : string) : string := str_rstrip (str_lstrip s).

(** The line feed, [chr(10)]. *)
Definition LF : string := String "010"%char EmptyString.

(** *** list *)

(** [l[i]] for a non-negative index. *)
Definition list_getitem {A} (l : list A) (i : nat) : result A :=
  match l !! i with
  | Some x => Ok x
  | None => Raise (IndexError "list index out of range")
  end.

(** [range(0, n, 2)] *)
Definition range_by2 (n : nat) : list nat :=
  (λ k, (2 * k)%nat) <$> seq 0 ((n + 1) / 2).

(** [l[1::2]] *)
Fixpoint slice_odd {A} (l : list A) : list A :=
  match l with
  | _ :: x :: l' => x :: slice_odd l'
  | _ => []
  end.

(** The list of the tuples that [zip] yields for the unpacked lists [ls],
    each as a list: row [i] holds the elements at index [i] of all the lists,
    for as many rows as the shortest list has elements; no rows when there
    is no list. *)
Definition zip_star {A} (ls : list (list A)) : list (list A) :=
  (λ i, omap (λ l, l !! i) ls)
    <$> seq 0 (foldr (λ l n, Nat.min (length l) n)
                     (length (default [] (head ls))) ls).

(** *** dict *)

(** A dict comprehension [{k: v for k, v in items}]: later items overwrite
    earlier ones. *)
Definition dict_comp {V} (items : list (string * V)) : gmap string V :=
  foldl (λ d kv, <[kv.1 := kv.2]> d) ∅ items.

(** [d[k]] *)
Definition dict_getitem {V} (d : gmap string V) (k : string) : result V :=
  match d !! k with
  | Some v => Ok v
  | None => Raise (KeyError k)
  end.

(** Insertion-ordered dicts, for the dicts that the code iterates. *)
Fixpoint odict_get {V} (d : list (string * V)) (k : string) : option V :=
  match d with
  | [] => None
  | (k', v) :: d' => if decide (k = k') then Some v else odict_get d' k
  end.

(** [d[k] = v]: an existing key keeps its position, a new one goes last. *)
Fixpoint odict_set {V} (d : list (string * V)) (k : string) (v : V)
    : list (string * V) :=
  match d with
  | [] => [(k, v)]
  | (k', v') :: d' =>
      if decide (k = k') then (k, v) :: d' else (k', v') :: odict_set d' k v
  end.

(** *** numpy uint16 arrays on a heap *)

Definition uint16 (v : Z) : Z := v `mod` 2 ^ 16.

(** [np.array(l, dtype=np.uint16)]: element-wise conversion. *)
Definition np_array_uint16 (l : list Z) : list Z := uint16 <$> l.

End Py.

Export Py.

Notation "x <- m ;; k" := (Py.bind m (λ x, k))
  (at level 100, m at next level, right associativity, only parsing).
Notation "x <~ m ;; k" := (Py.sbind m (λ x, k))
  (at level 100, m at next level, right associativity, only parsing).

(** References to arrays and the store they point into. *)
Abbreviation ref := positive (only parsing).
Abbreviation heap := (gmap positive (list Z)) (only parsing).

Module Numpy.

(** Reading through a reference; references handed out by the program always
    point to an array, the default only makes the function total. *)
Definition deref (h : heap) (l : ref) : list Z := default [] (h !! l).

(** Allocation of a new array object. *)
Definition alloc (a : list Z) : SE heap ref :=
  λ h, let l := fresh (dom h) in (<[l := a]> h, Ok l).

(** [np.copy(a)] *)
Definition copy (l : ref) : SE heap ref :=
  λ h, alloc (deref h l) h.

(** [np.array(a[:], dtype=np.uint16)]: a new array with converted elements. *)
Definition array_uint16 (l : ref) : SE heap ref :=
  λ h, alloc (np_array_uint16 (deref h l)) h.

(** [a[index] = value] on a uint16 array: negative indices count from the end,
    indices outside [-n, n) raise [IndexError]; the stored value is converted
    to 16 bits. *)
Definition setitem (l : ref) (index value : Z) : SE heap unit :=
  λ h,
    let a := deref h l in
    let n := Z.of_nat (length a) in
    if (index <? - n) || (n <=? index) then
      (h, Raise (IndexError "index is out of bounds"))
    else
      let i := if index <? 0 then index + n else index in
      (<[l := <[Z.to_nat i := uint16 value]> a]> h, Ok tt).

End Numpy.

(** ** ms2pip/_utils/peptides.py *)

Module Peptides.

Definition AMINO_ACIDS : list string :=
  ["A"; "C"; "D"; "E"; "F"; "G"; "H"; "I"; "K"; "M";
   "N"; "P"; "Q"; "R"; "S"; "T"; "V"; "W"; "Y"].

(** [{a: i for i, a in enumerate(AMINO_ACIDS)}] *)
Definition AMINO_ACID_IDS : gmap string Z :=
  dict_comp (imap (λ i a, (a, Z.of_nat i)) AMINO_ACIDS).

Definition encode_peptide (peptide : string) : result (list Z) :=
  let peptide := str_replace "L"%char "I"%char (str_upper peptide) in
  if (100 <? String.length peptide)%nat then
    Raise (InvalidPeptideError
             "Peptide sequence cannot be longer than 100 amino acids.")
  else if (String.length peptide <? 4)%nat then
    Raise (InvalidPeptideError
             "Peptide sequence cannot be shorter than 4 amino acids.")
  else
    try_except
      (ids <- mapM (dict_getitem AMINO_ACID_IDS) (str_iter peptide) ;;
       Ok (np_array_uint16 ([0] ++ ids ++ [0])))
      (λ e, match e with
            | KeyError _ =>
                Some (Raise (InvalidAminoAcidError
                  ("Unsupported amino acid found in peptide `"
                     +:+ peptide +:+ "`")))
            | _ => None
            end).

Section apply_modifications.
(** [int(s)] of the Python runtime: [None] when it raises [ValueError]. *)
Variable py_int : string → option Z.

Definition int_ (s : string) : result Z :=
  match py_int s with
  | Some z => Ok z
  | None => Raise (ValueError ("invalid literal for int(): " +:+ s))
  end.

Definition apply_modifications (encoded_peptide : ref)
    (modifications : string) (ptm_ids : gmap string Z) : SE heap ref :=
  if str_truthy modifications && bool_decide (modifications ≠ "-") then
    encoded_peptidoform <~ Numpy.copy encoded_peptide ;;
    let mods_split := str_split "|"%char modifications in
    if bool_decide ((length mods_split `mod` 2)%nat ≠ 0%nat) then
      sraise (InvalidModificationFormattingError modifications)
    else
      _ <~ for_ (range_by2 (length mods_split)) (λ i,
             location <~ slift (tok <- list_getitem mods_split i ;;
                                int_ tok) ;;
             name <~ slift (list_getitem mods_split (i + 1)) ;;
             match ptm_ids !! name with
             | Some id => Numpy.setitem encoded_peptidoform location id
             | None => sraise (UnknownModificationError name)
             end) ;;
      sret encoded_peptidoform
  else
    sret encoded_peptide.
End apply_modifications.

(** *** The modification registry *)

Section registry.
Context {F : Type}.

(** One registered modification: the dict stored under its name. *)
Record Mod : Type := {
  mass_shift : F;
  amino_acid : string;
  amino_acid_id : Z;
  mod_id : Z
}.

(** The attributes of a [Modifications] object.  [modifications] maps a
    category to the dict of its modifications; the categories are iterated
    in insertion order, the inner dicts are keyed by name. *)
Record Modifications : Type := {
  modifications : list (string * gmap string Mod);
  _mass_shifts : option (gmap string F);
  _ptm_ids : option (gmap string Z);
  _next_mod_id : Z
}.

Definition set_modifications (self : Modifications) v : Modifications :=
  {| modifications := v; _mass_shifts := _mass_shifts self;
     _ptm_ids := _ptm_ids self; _next_mod_id := _next_mod_id self |}.
Definition set_mass_shifts (self : Modifications) v : Modifications :=
  {| modifications := modifications self; _mass_shifts := v;
     _ptm_ids := _ptm_ids self; _next_mod_id := _next_mod_id self |}.
Definition set_ptm_ids (self : Modifications) v : Modifications :=
  {| modifications := modifications self;
     _mass_shifts := _mass_shifts self;
     _ptm_ids := v; _next_mod_id := _next_mod_id self |}.
Definition set_next_mod_id (self : Modifications) v : Modifications :=
  {| modifications := modifications self;
     _mass_shifts := _mass_shifts self;
     _ptm_ids := _ptm_ids self; _next_mod_id := v |}.

Definition __init__ : Modifications :=
  {| modifications := [("ptm", ∅); ("sptm", ∅)];
     _mass_shifts := None;
     _ptm_ids := None;
     _next_mod_id := 38 |}.

(** [float(s)] of the Python runtime: [None] when it raises [ValueError]. *)
Variable py_float : string → option F.

Definition float_ (s : string) : result F :=
  match py_float s with
  | Some x => Ok x
  | None => Raise (ValueError ("could not convert string to float: " +:+ s))
  end.

(** [a, b, c, d = l] *)
Definition unpack4 (l : list string)
    : result (string * string * string * string) :=
  match l with
  | [a; b; c; d] => Ok (a, b, c, d)
  | _ =>
      Raise (ValueError
               (if (length l <? 4)%nat
                then "not enough values to unpack (expected 4)"
                else "too many values to unpack (expected 4)"))
  end.

(** The [if]/[elif] chain that resolves the target of a modification to
    [amino_acid_id]. *)
Definition resolve_amino_acid (amino_acid : string) : result Z :=
  if decide (amino_acid = "N-term") then Ok (-1)
  else if decide (amino_acid = "C-term") then Ok (-2)
  else if decide (amino_acid = "L") then dict_getitem AMINO_ACID_IDS "I"
  else match AMINO_ACID_IDS !! amino_acid with
       | Some i => Ok i
       | None => Raise (InvalidAminoAcidError amino_acid)
       end.

(** The body of the [for mod in modstrings] loop. *)
Definition add_modstring (mod_type : string) (modstring : string)
    : SE Modifications unit :=
  fields <~ slift (unpack4 (str_split ","%char modstring)) ;;
  let '(mod_name, mass_shift, opt, amino_acid) := fields in
  amino_acid_id <~ slift (resolve_amino_acid amino_acid) ;;
  mass_shift <~ slift (float_ mass_shift) ;;
  self <~ sget ;;
  category <~ slift (match odict_get (modifications self) mod_type with
                     | Some d => Ok d
                     | None => Raise (KeyError mod_type)
                     end) ;;
  _ <~ sput (set_modifications self
               (odict_set (modifications self) mod_type
                  (<[mod_name := {| mass_shift := mass_shift;
                                    amino_acid := amino_acid;
                                    amino_acid_id := amino_acid_id;
                                    mod_id := _next_mod_id self |}]>
                     category))) ;;
  self <~ sget ;;
  sput (set_next_mod_id self (_next_mod_id self + 1)).

Definition add_from_ms2pip_modstrings (modstrings : list string)
    (mod_type : string) : SE Modifications unit :=
  self <~ sget ;;
  _ <~ (match odict_get (modifications self) mod_type with
        | None => sput (set_modifications self
                          (odict_set (modifications self) mod_type ∅))
        | Some _ => sret tt
        end) ;;
  _ <~ for_ modstrings (add_modstring mod_type) ;;
  self <~ sget ;;
  sput (set_mass_shifts self None).

(** [itertools.chain.from_iterable(mods.items() for mods in
    self.modifications.values())]: the categories in their order; the items
    of one category have distinct names, so their relative order is not
    observable by the dict comprehensions below. *)
Definition _all_modifications (self : Modifications) : list (string * Mod) :=
  mods ← (modifications self).*2; map_to_list mods.

(** [not d] for a cache attribute: [None] and the empty dict are falsy. *)
Definition cache_falsy {V} (d : option (gmap string V)) : bool :=
  match d with
  | None => true
  | Some m => bool_decide (size m = 0%nat)
  end.

Definition mass_shifts : SE Modifications (gmap string F) :=
  self <~ sget ;;
  _ <~ (if cache_falsy (_mass_shifts self) then
          sput (set_mass_shifts self
                  (Some (dict_comp
                     ((λ nm, (nm.1, mass_shift nm.2))
                        <$> _all_modifications self))))
        else sret tt) ;;
  self <~ sget ;;
  sret (default ∅ (_mass_shifts self)).

Definition ptm_ids : SE Modifications (gmap string Z) :=
  self <~ sget ;;
  _ <~ (if cache_falsy (_ptm_ids self) then
          sput (set_ptm_ids self
                  (Some (dict_comp
                     ((λ nm, (nm.1, mod_id nm.2))
                        <$> _all_modifications self))))
        else sret tt) ;;
  self <~ sget ;;
  sret (default ∅ (_ptm_ids self)).

(** Float arithmetic and the library calls of [calc_precursor_mz]:
    [fast_mass] is [pyteomics.mass.fast_mass], [float_of_int] the implicit
    conversion of an [int] operand ([None]: [OverflowError]), [fsum] the
    built-in [sum] over a list of floats. *)
Variable fast_mass : string → result F.
Variable fadd fmul fdiv : F → F → F.
Variable float_of_int : Z → option F.
Variable fsum : list F → F.
Variable PROTON_MASS : F.

Definition calc_precursor_mz (peptide modifications : string) (charge : Z)
    : SE Modifications (F * F) :=
  unmodified_mass <~ slift (fast_mass peptide) ;;
  shifts <~ smapM (λ name, d <~ mass_shifts ;; slift (dict_getitem d name))
                  (slice_odd (str_split "|"%char modifications)) ;;
  let mods_massses := fsum shifts in
  let prec_mass := fadd unmodified_mass mods_massses in
  match float_of_int charge with
  | None => sraise (OverflowError "int too large to convert to float")
  | Some c =>
      if decide (charge = 0) then
        sraise (ZeroDivisionError "float division by zero")
      else
        sret (prec_mass, fdiv (fadd prec_mass (fmul c PROTON_MASS)) c)
  end.
End registry.

Arguments Mod : clear implicits.
Arguments Modifications : clear implicits.

End Peptides.

(** ** ms2pip/predict_xgboost.py *)

Module PredictXgboost.

Section reshape.
Context {A : Type}.

Definition sys_maxsize : Z := 2 ^ 63 - 1.

(** [list(islice(it, stop))]: the state is what the iterator [it] has left
    to yield. *)
Definition islice_list (stop : Z) : SE (list A) (list A) :=
  λ it,
    if (stop <? 0) || (sys_maxsize <? stop) then
      (it, Raise (ValueError "Stop argument for islice() must be None or an integer: 0 <= x <= sys.maxsize."))
    else
      (drop (Z.to_nat stop) it, Ok (take (Z.to_nat stop) it)).

Definition _split_list_by_lengths (list_in : list A) (lengths : list Z)
    : result (list (list A)) :=
  (smapM islice_list lengths list_in).2.

(** [np.array(x, dtype=np.float32)] converts element-wise with [float32]. *)
Variable float32 : A → A.

(** Lines 44-50 of [process_peptides_xgb]: the reshaping of the flat
    prediction vector [preds] of one ion type. *)
Definition reshape_predictions (ion_type : string) (preds : list A)
    (num_ions : list Z) : result (list (list A)) :=
  preds <- _split_list_by_lengths preds num_ions ;;
  if bool_decide (ion_type ∈ ["x"; "y"; "z"]) then
    Ok ((λ x, float32 <$> reverse x) <$> preds)
  else if bool_decide (ion_type ∈ ["a"; "b"; "c"]) then
    Ok ((λ x, float32 <$> x) <$> preds)
  else
    Raise (ValueError ("Unsupported ion_type: " +:+ ion_type)).

(** [predict model_file] stands for lines 34-41: making the model file
    present, loading it and running it on the stacked feature matrix. *)
Variable predict : string → result (list A).

(** Lines 27-51 of [process_peptides_xgb]: the value of [preds_list] when
    the loop over the ion types ends. *)
Definition process_peptides_xgb (peptides : list string)
    (xgboost_model_files : list (string * string))
    : result (list (list (list A))) :=
  let num_ions := (λ p, Z.of_nat (String.length p) - 1) <$> peptides in
  mapM (λ im, preds <- predict im.2 ;;
              reshape_predictions im.1 preds num_ions)
       xgboost_model_files.
End reshape.

Section apply_mods.
Variable py_int : string → option Z.

Definition apply_mods (peptide : ref) (mods : string)
    (PTMmap : gmap string Z) : SE heap ref :=
  modpeptide <~ Numpy.array_uint16 peptide ;;
  _ <~ (if bool_decide (mods ≠ "-") then
          let l := str_split "|"%char mods in
          if bool_decide ((length l `mod` 2)%nat ≠ 0%nat) then
            sraise (InvalidModificationFormattingError mods)
          else
            for_ (range_by2 (length l)) (λ i,
              tl <~ slift (list_getitem l (i + 1)) ;;
              match PTMmap !! tl with
              | Some id =>
                  index <~ slift (tok <- list_getitem l i ;;
                                  Peptides.int_ py_int tok) ;;
                  Numpy.setitem modpeptide index id
              | None => sraise (UnknownModificationError tl)
              end)
        else sret tt) ;;
  sret modpeptide.
End apply_mods.

Section model_files.
(** What the functions see of the file system: [os.path.isdir],
    [os.path.isfile] and the bytes that [open(path, "rb")] gives access to
    ([None] when it raises [OSError]). *)
Record filesystem : Type := {
  isdir : string → bool;
  isfile : string → bool;
  file_bytes : string → option string
}.

Definition open_rb (fs : filesystem) (filename : string) : result string :=
  match file_bytes fs filename with
  | Some data => Ok data
  | None => Raise (OSError filename)
  end.

(** [os.path.expanduser("~")] *)
Variable home : string.
(** [hashlib.sha1]: the hex digest of the bytes fed to [update], chunk after
    chunk. *)
Variable sha1_hexdigest : string → string.
Variable fs : filesystem.

(** [os.path.join(a, b)] on POSIX. *)
Definition path_join (a b : string) : string :=
  match b with
  | String "/" _ => b
  | _ =>
      match reverse (String.list_ascii_of_string a) with
      | [] => b
      | "/"%char :: _ => a +:+ b
      | _ => a +:+ "/" +:+ b
      end
  end.

Definition MODEL_hashes : gmap string string :=
  dict_comp
    [("model_20210316_Immuno_HCD_B.xgboost",
      "977466d378de2e89c6ae15b4de8f07800d17a7b7");
     ("model_20210316_Immuno_HCD_Y.xgboost",
      "71948e1b9d6c69cb69b9baf84d361a9f80986fea");
     ("model_20210416_HCD2021_B.xgboost",
      "c086c599f618b199bbb36e2411701fb2866b24c8");
     ("model_20210416_HCD2021_Y.xgboost",
      "22a5a137e29e69fa6d4320ed7d701b61cbdc4fcf")].

(** The body of [check_model_integrity].  The file is opened as
    [modelfile], the loop reads from [f]: a name that the function does not
    bind.  [f] is what that name resolves to outside the function: the
    bytes of a file object, or [None] when the name is unbound and the
    read raises [NameError]. *)
Definition check_model_integrity_body (f : option string)
    (filename : string) : result bool :=
  model <- list_getitem (str_rsplit1 "/"%char filename) 1 ;;
  modelfile <- open_rb fs filename ;;
  match f with
  | None => Raise (NameError "f")
  | Some data =>
      let digest := sha1_hexdigest data in
      expected <- dict_getitem MODEL_hashes model ;;
      if bool_decide (digest ≠ expected) then Raise InvalidXGBoostModelError
      else Ok true
  end.

(** The module [predict_xgboost] binds no global named [f]. *)
Definition check_model_integrity (filename : string) : result bool :=
  check_model_integrity_body None filename.

Definition check_model_presence (model : string) : result bool :=
  if negb (isdir fs (path_join home ".ms2pip")) then Ok false
  else if negb (isfile fs (path_join (path_join home ".ms2pip") model)) then
    Ok false
  else
    ok <- check_model_integrity
            (path_join (path_join home ".ms2pip") model) ;;
    if ok then Ok true else Raise UnknownFragmentationMethodError.
End model_files.

Section predictions.
Context {A : Type}.
Variable float32 : A → A.
Variable predict : string → result (list A).

(** Line 53 of [process_peptides_xgb]: [predictions], the per-ion-type lists
    of [preds_list] regrouped per record. *)
Definition process_peptides_xgb_predictions (peptides : list string)
    (xgboost_model_files : list (string * string))
    : result (list (list (list A))) :=
  preds_list <- process_peptides_xgb float32 predict peptides
                  xgboost_model_files ;;
  Ok (zip_star preds_list).
End predictions.

(** One record of [peprec.to_dict(orient="records")]. *)
Record row : Type := {
  row_peptide : string;
  row_modifications : string;
  row_charge : Z;
  row_spec_id : string
}.

Section ms2pip_data.
Variable py_int : string → option Z.
(** [AMINO_ACID_IDS] as [predict_xgboost] imports it from [ms2pip.ms2pipC]. *)
Variable AMINO_ACID_IDS : gmap string Z.
(** The feature and m/z routines of the compiled extension, with the
    conversions to numpy arrays that follow their calls; they are given the
    contents of the arrays. *)
Context {Vec Mz Matrix : Type}.
Variable get_vector : list Z → list Z → Z → Vec.
Variable get_mzs : list Z → Z → Mz.
Variable np_vstack : list Vec → result Matrix.

(** Lines 71-74: the encoding of the peptide of one record. *)
Definition encode_row_peptide (peptide : string) : result (list Z) :=
  ids <- mapM (dict_getitem AMINO_ACID_IDS)
           (str_iter (str_replace "L"%char "I"%char peptide)) ;;
  Ok (np_array_uint16 ([0] ++ ids ++ [0])).

(** The body of the loop over the records. *)
Definition ms2pip_data_for_row (ptm_ids : gmap string Z) (peaks_version : Z)
    (r : row) : SE heap (Vec * Mz) :=
  encoded <~ slift (encode_row_peptide (row_peptide r)) ;;
  peptide <~ Numpy.alloc encoded ;;
  modpeptide <~ apply_mods py_int peptide (row_modifications r) ptm_ids ;;
  h <~ sget ;;
  sret (get_vector (Numpy.deref h peptide) (Numpy.deref h modpeptide)
          (row_charge r),
        get_mzs (Numpy.deref h modpeptide) peaks_version).

Definition _get_ms2pip_data_for_xgb (peprec : list row)
    (peaks_version : Z) (ptm_ids : gmap string Z)
    : SE heap (Matrix * list Mz) :=
  lists <~ smapM (ms2pip_data_for_row ptm_ids peaks_version) peprec ;;
  feature_vectors <~ slift (np_vstack lists.*1) ;;
  sret (feature_vectors, lists.*2).
End ms2pip_data.

Section download.
Variable home : string.
Variable sha1_hexdigest : string → string.
(** [os.mkdir] and [urllib.request.urlretrieve]: what they do to the file
    system, or the exception they raise. *)
Variable os_mkdir : string → SE filesystem unit.
Variable urlretrieve : string → string → SE filesystem unit.

Definition download_model (model : string) : SE filesystem unit :=
  fs <~ sget ;;
  _ <~ (if negb (isdir fs (path_join home ".ms2pip")) then
          os_mkdir (path_join home ".ms2pip")
        else sret tt) ;;
  let dowloadpath := path_join (path_join home ".ms2pip") model in
  _ <~ urlretrieve "modelfilepath" dowloadpath ;;
  fs <~ sget ;;
  _ <~ slift (check_model_integrity sha1_hexdigest fs dowloadpath) ;;
  sret tt.

(** Lines 35-36 of [process_peptides_xgb]:
    [if not check_model_presence(model_file): download_model(model_file)]. *)
Definition ensure_model (model_file : string) : SE filesystem unit :=
  fs <~ sget ;;
  present <~ slift (check_model_presence home sha1_hexdigest fs model_file) ;;
  if negb present then download_model model_file else sret tt.
End download.

End PredictXgboost.

(** ** conversion_tools/scan_mgf.py *)

Module ScanMgf.

(** The variables that the loop over the lines of the MGF files of
    [scan_mgf] updates: the flag [found], the counter [count], and what has
    been written to [out], one element per call of [out.write]. *)
Record scan : Type := {
  found : bool;
  count : Z;
  out : list string
}.

Section scan_mgf.
(** The keys of [spec_dict] that are strings: the spectrum titles of the
    current run. *)
Variable spec_dict : gset string.

(** Lines 105-117: the body of [for line in mgf_iterator]. *)
Definition scan_line (st : scan) (line : string) : scan :=
  let st :=
    if str_contains "TITLE" line then
      let title := str_strip (str_drop 6 line) in
      if bool_decide (title ∈ spec_dict) then
        {| found := true;
           count := count st + 1;
           out := out st ++ ["BEGIN IONS" +:+ LF] |}
      else st
    else st in
  let st :=
    if str_contains "END IONS" line then
      if found st then
        {| found := false; count := count st;
           out := out st ++ [line +:+ LF] |}
      else st
    else st in
  if found st && bool_decide (str_suffix 4 line ≠ "0.0" +:+ LF) then
    {| found := found st; count := count st; out := out st ++ [line] |}
  else st.

(** Lines 97-117 for one run: [found] starts as [False], [count] and the
    output file are those of the runs before. *)
Definition scan_run (st : scan) (lines : list string) : scan :=
  foldl scan_line
    {| found := false; count := count st; out := out st |} lines.
End scan_mgf.

End ScanMgf.

(** ** A concrete Python runtime

    An executable instance of the runtime functions that the embedding takes
    as parameters, with binary64 floats.  The theorems hold for every
    instance; this one runs the examples. *)

Module Runtime.

Definition digit (c : ascii) : option Z :=
  let n := nat_of_ascii c in
  if ((48 <=? n) && (n <=? 57))%nat then Some (Z.of_nat n - 48) else None.

Fixpoint digits (acc : Z) (s : string) : option Z :=
  match s with
  | EmptyString => Some acc
  | String c s' => d ← digit c; digits (10 * acc + d) s'
  end.

Definition unsigned (s : string) : option Z :=
  match s with
  | EmptyString => None
  | _ => digits 0 s
  end.

(** [int(s)] on plain decimal literals with an optional sign. *)
Definition py_int (s : string) : option Z :=
  match s with
  | String "-" s' => Z.opp <$> unsigned s'
  | String "+" s' => unsigned s'
  | _ => unsigned s
  end.

(** Conversion of an [int] to the nearest binary64 float, ties to even;
    [None] when the result overflows. *)
Definition float_of_int (z : Z) : option float :=
  match SpecFloat.binary_normalize 53 1024 z 0 false with
  | S754_infinity _ => None
  | sf => Some (SF2Prim sf)
  end.

(** [float(s)] on unsigned decimal literals [ddd] and [ddd.ddd] whose digits
    fit in 53 bits and that have at most 18 decimals: numerator and power of
    ten are then exact floats and their quotient is the correctly rounded
    value. *)
Definition py_float (s : string) : option float :=
  match str_split "."%char s with
  | [i] =>
      m ← unsigned i;
      if m <? 2 ^ 53 then float_of_int m else None
  | [i; d] =>
      m ← unsigned (i +:+ d);
      if (m <? 2 ^ 53) && (String.length d <=? 18)%nat then
        n ← float_of_int m;
        p ← float_of_int (10 ^ Z.of_nat (String.length d));
        Some (n / p)%float
      else None
  | _ => None
  end.

(** The built-in [sum] as CPython up to 3.11 computes it on floats. *)
Definition fsum (l : list float) : float := foldl PrimFloat.add 0%float l.

(** [1.007825032070059] *)
Definition PROTON_MASS : float := 0x1.0200d240d4cp+0%float.

(** The table of residue masses of [peptides.py], by amino-acid id. *)
Definition AMINO_ACID_MASSES : list string :=
  ["71.037114"; "103.00919"; "115.026943"; "129.042593"; "147.068414";
   "57.021464"; "137.058912"; "113.084064"; "128.094963"; "131.040485";
   "114.042927"; "97.052764"; "128.058578"; "156.101111"; "87.032028";
   "101.047679"; "99.068414"; "186.079313"; "163.063329"].

(** A stand-in for [pyteomics.mass.fast_mass]: the sum of the residue masses
    of the table above plus one water. *)
Definition fast_mass (peptide : string) : result float :=
  ms <- mapM (λ x,
          match Peptides.AMINO_ACID_IDS !! x with
          | Some i =>
              match AMINO_ACID_MASSES !! Z.to_nat i ≫= py_float with
              | Some m => Ok m
              | None => Raise (PyteomicsError x)
              end
          | None => Raise (PyteomicsError x)
          end) (str_iter peptide) ;;
  Ok (foldl PrimFloat.add 0x1.202b45e40fdf7p+4%float ms).

Definition calc_precursor_mz :=
  Peptides.calc_precursor_mz fast_mass PrimFloat.add PrimFloat.mul
    PrimFloat.div float_of_int fsum PROTON_MASS.

Definition add_from_ms2pip_modstrings :=
  Peptides.add_from_ms2pip_modstrings py_float.

(** A model cache of the user [/home/user] that holds one known model file
    whose bytes are not those of the published model. *)
Definition corrupt_cache : PredictXgboost.filesystem :=
  {| PredictXgboost.isdir := λ p, bool_decide (p = "/home/user/.ms2pip");
     PredictXgboost.isfile := λ p,
       bool_decide
         (p = "/home/user/.ms2pip/model_20210416_HCD2021_B.xgboost");
     PredictXgboost.file_bytes := λ p,
       if bool_decide
            (p = "/home/user/.ms2pip/model_20210416_HCD2021_B.xgboost")
       then Some "truncated download" else None |}.

End Runtime.

(** ** Vocabulary of the statements *)

Import Peptides PredictXgboost.
Import ScanMgf.

(** The sum of a list of integers. *)
Definition Zsum (l : list Z) : Z := foldr Z.add 0 l.

(** A stop argument that [islice] accepts. *)
Definition valid_stop (n : Z) : Prop := 0 ≤ n ≤ sys_maxsize.

(** Where the group of record [i] starts in the flat vector. *)
Definition offset (lengths : list Z) (i : nat) : nat :=
  Z.to_nat (Zsum (take i lengths)).

(** [peprec["peptide"].str.len() - 1] *)
Definition num_ions (peptides : list string) : list Z :=
  (λ p, Z.of_nat (String.length p) - 1) <$> peptides.

(** Text whose characters are all ASCII (code points below 128): the
    strings on which [str_upper] is [str.upper()]. *)
Definition ascii_text (s : string) : Prop :=
  forallb (λ c, (nat_of_ascii c <? 128)%nat) (String.list_ascii_of_string s)
  = true.

(** The peptide as [encode_peptide] looks at it: upper-cased, [L] folded
    into [I]. *)
Definition folded (peptide : string) : string :=
  str_replace "L"%char "I"%char (str_upper peptide).

(** The first residue of the folded peptide that the table does not know. *)
Definition first_unrecognized (peptide : string) : option string :=
  head (filter (λ x, x ∉ AMINO_ACIDS) (str_iter (folded peptide))).

Definition c_terminal_ions : list string := ["x"; "y"; "z"].
Definition n_terminal_ions : list string := ["a"; "b"; "c"].

Section registry_vocabulary.
Context {F : Type}.
Implicit Types (self : Modifications F).

(** The definition stored under [name] in the category [c]. *)
Definition lookup_mod self (c name : string) : option (Mod F) :=
  odict_get (modifications self) c ≫= (.!! name).

(** The definition of [name] in the last category, in the order of the
    categories, that has one. *)
Fixpoint last_definition (cats : list (string * gmap string (Mod F)))
    (name : string) : option (Mod F) :=
  match cats with
  | [] => None
  | cd :: rest =>
      match last_definition rest name with
      | Some m => Some m
      | None => cd.2 !! name
      end
  end.

(** The first statement of [add_from_ms2pip_modstrings]: a category that
    the registry does not have yet is created empty. *)
Definition with_category self (mod_type : string) : Modifications F :=
  match odict_get (modifications self) mod_type with
  | None =>
      set_modifications self (odict_set (modifications self) mod_type ∅)
  | Some _ => self
  end.

(** What the properties [mass_shifts] and [ptm_ids] evaluate to. *)
Definition mass_shift_table self : gmap string F :=
  match (mass_shifts self).2 with
  | Ok d => d
  | Raise _ => ∅
  end.

Definition ptm_id_table self : gmap string Z :=
  match (ptm_ids self).2 with
  | Ok d => d
  | Raise _ => ∅
  end.

(** The states of a registry object: a new object, and what the calls of
    its methods and the reads of its properties make of it, also when a
    call raises. *)
Inductive reachable (py_float : string → option F)
    : Modifications F → Prop :=
  | reachable_init : reachable py_float __init__
  | reachable_add self modstrings mod_type :
      reachable py_float self →
      reachable py_float
        (add_from_ms2pip_modstrings py_float modstrings mod_type self).1
  | reachable_mass_shifts self :
      reachable py_float self → reachable py_float (mass_shifts self).1
  | reachable_ptm_ids self :
      reachable py_float self → reachable py_float (ptm_ids self).1.

(** Every definition of the registry has an id from 38 up to the counter,
    and no two definitions share an id. *)
Definition ids_unique_below_counter self : Prop :=
  38 ≤ _next_mod_id self
  ∧ (∀ c n m, lookup_mod self c n = Some m →
              38 ≤ mod_id m < _next_mod_id self)
  ∧ (∀ c n m c' n' m',
       lookup_mod self c n = Some m → lookup_mod self c' n' = Some m' →
       mod_id m = mod_id m' → c = c' ∧ n = n').
End registry_vocabulary.

(** The peptide that an encoding stands for: the residues of the ids between
    the two terminal slots. *)
Fixpoint decode_ids (ids : list Z) : option string :=
  match ids with
  | [] => Some EmptyString
  | v :: ids' =>
      if v <? 0 then None
      else x ← AMINO_ACIDS !! Z.to_nat v;
           s ← decode_ids ids';
           Some (x +:+ s)
  end.

Definition decode_peptide (arr : list Z) : option string :=
  decode_ids (take (length arr - 2) (drop 1 arr)).

(** Values that a [uint16] array can hold. *)
Definition is_uint16 (v : Z) : Prop := 0 ≤ v < 2 ^ 16.

(** The applicators on the contents of an array: what they do to the copy
    they write to, without the heap. *)
Definition setitem_contents (a : list Z) (index value : Z)
    : result (list Z) :=
  let n := Z.of_nat (length a) in
  if (index <? - n) || (n <=? index) then
    Raise (IndexError "index is out of bounds")
  else
    Ok (<[Z.to_nat (if index <? 0 then index + n else index)
          := uint16 value]> a).

Fixpoint for_contents {A S} (l : list A) (body : A → S → result S) (s : S)
    : result S :=
  match l with
  | [] => Ok s
  | x :: l' => s' <- body x s ;; for_contents l' body s'
  end.

Section applicator_contents.
Variable py_int : string → option Z.
Variable ptm_ids : gmap string Z.

Definition modification_pair (toks : list string) (i : nat) (a : list Z)
    : result (list Z) :=
  location <- (tok <- list_getitem toks i ;; int_ py_int tok) ;;
  name <- list_getitem toks (i + 1) ;;
  match ptm_ids !! name with
  | Some id => setitem_contents a location id
  | None => Raise (UnknownModificationError name)
  end.

Definition mods_pair (toks : list string) (i : nat) (a : list Z)
    : result (list Z) :=
  tl <- list_getitem toks (i + 1) ;;
  match ptm_ids !! tl with
  | Some id =>
      index <- (tok <- list_getitem toks i ;; int_ py_int tok) ;;
      setitem_contents a index id
  | None => Raise (UnknownModificationError tl)
  end.

Definition modified_contents (modifications : string) (a : list Z)
    : result (list Z) :=
  if str_truthy modifications && bool_decide (modifications ≠ "-") then
    let toks := str_split "|" modifications in
    if bool_decide ((length toks `mod` 2)%nat ≠ 0%nat) then
      Raise (InvalidModificationFormattingError modifications)
    else for_contents (range_by2 (length toks)) (modification_pair toks) a
  else Ok a.

Definition mods_contents (mods : string) (a : list Z) : result (list Z) :=
  if bool_decide (mods ≠ "-") then
    let toks := str_split "|" mods in
    if bool_decide ((length toks `mod` 2)%nat ≠ 0%nat) then
      Raise (InvalidModificationFormattingError mods)
    else for_contents (range_by2 (length toks)) (mods_pair toks)
           (np_array_uint16 a)
  else Ok (np_array_uint16 a).
End applicator_contents.

(** What [_get_ms2pip_data_for_xgb] computes for one record, on the contents
    of the two arrays it builds. *)
Section row_contents.
Variable py_int : string → option Z.
Variable AMINO_ACID_IDS : gmap string Z.
Context {Vec Mz : Type}.
Variable get_vector : list Z → list Z → Z → Vec.
Variable get_mzs : list Z → Z → Mz.

Definition row_data (ptm_ids : gmap string Z) (peaks_version : Z) (r : row)
    : result (Vec * Mz) :=
  encoded <- encode_row_peptide AMINO_ACID_IDS (row_peptide r) ;;
  modified <- mods_contents py_int ptm_ids (row_modifications r) encoded ;;
  Ok (get_vector encoded modified (row_charge r),
      get_mzs modified peaks_version).
End row_contents.

(** The lines of an MGF file as [scan_mgf] tells them apart: the title line
    of a spectrum of the run, the line that ends a spectrum, and the lines
    that are copied inside a selected spectrum (all but those that end in
    [0.0] and a line feed). *)
Definition selects (spec_dict : gset string) (line : string) : bool :=
  str_contains "TITLE" line
  && bool_decide (str_strip (str_drop 6 line) ∈ spec_dict).

Definition closes (line : string) : bool := str_contains "END IONS" line.

Definition copied (line : string) : Prop :=
  str_suffix 4 line ≠ "0.0" +:+ LF.

(** ** Reshaping of the flat prediction vector *)

Section reshape_facts.
Context {A : Type}.
Implicit Types (list_in it : list A) (lengths : list Z).

Lemma Zsum_nonneg lengths : Forall valid_stop lengths → 0 ≤ Zsum lengths.
Proof.
  induction 1 as [|n l [Hn _] _ IH]; simpl; [done | lia].
Qed.

Lemma Zsum_app (l1 l2 : list Z) : Zsum (l1 ++ l2) = Zsum l1 + Zsum l2.
Proof. induction l1 as [|x l1 IH]; simpl; lia. Qed.

Lemma islice_list_valid (n : Z) it :
  valid_stop n →
  islice_list n it = (drop (Z.to_nat n) it, Ok (take (Z.to_nat n) it)).
Proof.
  intros [H0 Hmax]. unfold islice_list.
  destruct (n <? 0) eqn:E1; [apply Z.ltb_lt in E1; lia|].
  destruct (sys_maxsize <? n) eqn:E2; [apply Z.ltb_lt in E2; lia|].
  done.
Qed.

(** What the comprehension of [_split_list_by_lengths] returns, with the
    iterator state made explicit. *)
Lemma split_groups lengths : ∀ it,
  Forall valid_stop lengths →
  ∃ groups,
    (smapM islice_list lengths it).2 = Ok groups
    ∧ length groups = length lengths
    ∧ concat groups = take (Z.to_nat (Zsum lengths)) it
    ∧ ∀ i n, lengths !! i = Some n →
        groups !! i = Some (take (Z.to_nat n) (drop (offset lengths i) it)).
Proof.
  induction lengths as [|n lengths IH]; intros it Hv.
  - exists []. repeat split; try done.
  - apply Forall_cons in Hv as [Hn Hv].
    destruct (IH (drop (Z.to_nat n) it) Hv) as (gs & Hgs & Hlen & Hcat & Hnth).
    exists (take (Z.to_nat n) it :: gs).
    pose proof (Zsum_nonneg _ Hv) as Hs. destruct Hn as [Hn0 Hn1].
    split; [|split; [|split]].
    + simpl. unfold sbind at 1. rewrite islice_list_valid by done.
      unfold sbind at 1.
      destruct (smapM islice_list lengths (drop (Z.to_nat n) it))
        as [it' r] eqn:E.
      simpl in Hgs. subst r. done.
    + simpl. by rewrite Hlen.
    + simpl. rewrite Hcat. rewrite Z2Nat.inj_add by lia.
      by rewrite take_take_drop.
    + intros [|i] m Hi; simpl in Hi.
      * injection Hi as <-. unfold offset. simpl. by rewrite drop_0.
      * simpl. rewrite (Hnth i m Hi). f_equal. f_equal.
        unfold offset. simpl. rewrite drop_drop. f_equal.
        assert (0 ≤ Zsum (take i lengths)).
        { apply Zsum_nonneg. by apply Forall_take. }
        lia.
Qed.
End reshape_facts.

Section reshape_claims.
Context {A : Type}.
Implicit Types (preds : list A) (lengths : list Z).

Lemma Zsum_lookup_le lengths i n :
  Forall valid_stop lengths → lengths !! i = Some n →
  0 ≤ Zsum (take i lengths) ∧ 0 ≤ n
  ∧ Zsum (take i lengths) + n ≤ Zsum lengths.
Proof.
  intros Hv Hi.
  assert (0 ≤ Zsum (take i lengths)) as H1
    by (by apply Zsum_nonneg, Forall_take).
  assert (0 ≤ Zsum (drop (S i) lengths)) as H2
    by (by apply Zsum_nonneg, Forall_drop).
  assert (valid_stop n) as [H3 _]
    by (eapply Forall_lookup_1; [exact Hv | exact Hi]).
  rewrite <- (take_drop_middle _ _ _ Hi) at 3.
  rewrite Zsum_app. simpl. lia.
Qed.

(** A full-length slice of the flat vector, element by element. *)
Lemma slice_lookup preds (off n k : nat) :
  (off + n ≤ length preds)%nat → (k < n)%nat →
  length (take n (drop off preds)) = n
  ∧ take n (drop off preds) !! k = preds !! (off + k)%nat
  ∧ reverse (take n (drop off preds)) !! k
    = preds !! (off + (n - 1 - k))%nat.
Proof.
  intros Hlen Hk.
  assert (length (take n (drop off preds)) = n) as Hl.
  { rewrite length_take, length_drop. lia. }
  split; [done|]. split.
  - by rewrite lookup_take_lt, lookup_drop.
  - rewrite reverse_lookup by lia. rewrite Hl.
    rewrite lookup_take_lt, lookup_drop by lia. f_equal. lia.
Qed.

Lemma valid_num_ions (peptides : list string) :
  Forall (λ p, 1 ≤ Z.of_nat (String.length p) ≤ sys_maxsize) peptides →
  Forall valid_stop (num_ions peptides).
Proof.
  intros H. unfold num_ions. apply Forall_fmap.
  eapply Forall_impl; [exact H|]. intros p Hp.
  simpl in Hp. unfold valid_stop, compose. lia.
Qed.
End reshape_claims.

(** The only error of [_split_list_by_lengths] is the one of [islice]
    itself, for a stop that is negative or beyond [sys.maxsize]. *)
Lemma split_rejects_invalid_stop {A : Type} (pre post : list Z) (n : Z) :
  ∀ list_in : list A,
    Forall valid_stop pre → ¬ valid_stop n →
    ∃ msg, _split_list_by_lengths list_in (pre ++ n :: post)
           = Raise (ValueError msg).
Proof.
  unfold _split_list_by_lengths.
  induction pre as [|m pre IH]; intros list_in Hpre Hn; simpl.
  - unfold sbind, islice_list.
    destruct ((n <? 0) || (sys_maxsize <? n)) eqn:E; [by eexists|].
    apply orb_false_iff in E as [E1%Z.ltb_ge E2%Z.ltb_ge].
    destruct Hn. by split.
  - apply Forall_cons in Hpre as [Hm Hpre].
    unfold sbind at 1. rewrite islice_list_valid by done.
    destruct (IH (drop (Z.to_nat m) list_in) Hpre Hn) as [msg Hmsg].
    exists msg. unfold sbind at 1.
    destruct (smapM islice_list (pre ++ n :: post) _) as [it [gs|e]];
      simpl in *; congruence.
Qed.

(** C10: [_split_list_by_lengths] never compares the length of its input
    with the requested group lengths.  For group lengths that [islice]
    accepts as stops it returns one group per requested length; group [i] is
    the contiguous slice that starts at the sum of the earlier lengths, cut
    short where the input ends: its length is the minimum of the requested
    length and of what is left, so a short input yields shorter or empty
    groups and no error. *)
Theorem C10_split_performs_no_length_check
    {A : Type} (list_in : list A) (lengths : list Z) :
  Forall valid_stop lengths →
  ∃ groups,
    _split_list_by_lengths list_in lengths = Ok groups
    ∧ length groups = length lengths
    ∧ concat groups = take (Z.to_nat (Zsum lengths)) list_in
    ∧ ∀ i n, lengths !! i = Some n →
        ∃ g, groups !! i = Some g
             ∧ g = take (Z.to_nat n) (drop (offset lengths i) list_in)
             ∧ length g
               = (Z.to_nat n `min` (length list_in - offset lengths i))%nat.
Proof.
  intros Hv. unfold _split_list_by_lengths.
  destruct (split_groups lengths list_in Hv) as (gs & Hgs & Hl & Hc & Hn).
  exists gs. repeat split; try done.
  intros i n Hi. eexists. split; [by apply Hn|]. split; [done|].
  by rewrite length_take, length_drop.
Qed.

Lemma C10_witness :
  ∃ groups,
    _split_list_by_lengths [1; 2; 3; 4; 5] [4; 6; 2] = Ok groups
    ∧ length groups = 3%nat
    ∧ concat groups = [1; 2; 3; 4; 5]
    ∧ ∀ i n, [4; 6; 2] !! i = Some n →
        ∃ g, groups !! i = Some g
             ∧ g = take (Z.to_nat n)
                        (drop (offset [4; 6; 2] i) [1; 2; 3; 4; 5])
             ∧ length g
               = Nat.min (Z.to_nat n) (Nat.sub 5 (offset [4; 6; 2] i)).
Proof.
  apply (C10_split_performs_no_length_check [1; 2; 3; 4; 5] [4; 6; 2]).
  repeat constructor; vm_compute; discriminate.
Defined.

Lemma mapM_Ok_lookup {A B} (f : A → result B) (l : list A) :
  (∀ x, x ∈ l → ∃ y, f x = Ok y) →
  ∃ ys, mapM f l = Ok ys
        ∧ length ys = length l
        ∧ ∀ j x, l !! j = Some x → ∃ y, ys !! j = Some y ∧ f x = Ok y.
Proof.
  induction l as [|x l IH]; intros Hf.
  - exists []. repeat split; try done.
  - destruct (Hf x) as [y Hy]; [by left|].
    destruct IH as (ys & Hys & Hlen & Hnth).
    { intros x' Hx'. apply Hf. by right. }
    exists (y :: ys). simpl. rewrite Hy, Hys. simpl.
    repeat split; [by rewrite Hlen|].
    intros [|j] x' Hj; simpl in *.
    + injection Hj as <-. by exists y.
    + by apply Hnth.
Qed.

Section orientation.
Context {A : Type} (float32 : A → A).

(** The groups of a well-sized prediction vector, before orientation. *)
Lemma split_well_sized (peptides : list string) (preds : list A) :
  Forall (λ p, 1 ≤ Z.of_nat (String.length p) ≤ sys_maxsize) peptides →
  Z.of_nat (length preds) = Zsum (num_ions peptides) →
  ∃ groups,
    _split_list_by_lengths preds (num_ions peptides) = Ok groups
    ∧ length groups = length peptides
    ∧ concat groups = preds
    ∧ ∀ i p, peptides !! i = Some p →
        ∃ g, groups !! i = Some g
          ∧ length g = (String.length p - 1)%nat
          ∧ ∀ k, (k < String.length p - 1)%nat →
              g !! k = preds !! (offset (num_ions peptides) i + k)%nat
              ∧ reverse g !! k
                = preds !! (offset (num_ions peptides) i
                            + (String.length p - 1 - 1 - k))%nat.
Proof.
  intros Hp Hlen. pose proof (valid_num_ions _ Hp) as Hv.
  destruct (split_groups (num_ions peptides) preds Hv)
    as (gs & Hgs & Hl & Hc & Hn).
  exists gs. split; [done|]. split.
  { rewrite Hl. unfold num_ions. by rewrite length_fmap. }
  split.
  { rewrite Hc. apply take_ge. lia. }
  intros i p Hi.
  assert (num_ions peptides !! i = Some (Z.of_nat (String.length p) - 1))
    as Hni.
  { unfold num_ions. by rewrite list_lookup_fmap, Hi. }
  pose proof (Zsum_lookup_le _ _ _ Hv Hni) as (H1 & H2 & H3).
  rewrite (Hn _ _ Hni).
  replace (Z.to_nat (Z.of_nat (String.length p) - 1))
    with (String.length p - 1)%nat by lia.
  eexists. split; [done|].
  assert (offset (num_ions peptides) i + (String.length p - 1)
          ≤ length preds)%nat as Hfit.
  { unfold offset. lia. }
  split.
  - rewrite length_take, length_drop. lia.
  - intros k Hk.
    destruct (slice_lookup preds _ _ k Hfit Hk) as (_ & Hraw & Hrev).
    done.
Qed.
End orientation.

(** C1: for a batch whose flat prediction vector has one entry per cleavage
    site (the sum of [peptide_length - 1] over the records), the reshaping of
    [process_peptides_xgb] yields one group per record, in record order,
    group [i] having [peptide_length - 1] entries taken contiguously from the
    offset of record [i].  For the ion types [x], [y], [z] entry [k] of the
    group is the raw entry [peptide_length - 2 - k] of the record (the group
    is reversed); for [a], [b], [c] it is the raw entry [k]; every other ion
    type is rejected with the [ValueError] "Unsupported ion_type".  The loop
    over the configured ion types does this once per ion type, in the order
    of the configuration. *)
Theorem C1_reshape_and_orientation
    {A : Type} (float32 : A → A) (peptides : list string) :
  Forall (λ p, 1 ≤ Z.of_nat (String.length p) ≤ sys_maxsize) peptides →
  (∀ (preds : list A) (ion_type : string),
     Z.of_nat (length preds) = Zsum (num_ions peptides) →
     (ion_type ∈ c_terminal_ions →
      ∃ groups,
        reshape_predictions float32 ion_type preds (num_ions peptides)
          = Ok groups
        ∧ length groups = length peptides
        ∧ ∀ i p, peptides !! i = Some p →
            ∃ g, groups !! i = Some g
              ∧ length g = (String.length p - 1)%nat
              ∧ ∀ k, (k < String.length p - 1)%nat →
                  g !! k = float32 <$>
                    preds !! (offset (num_ions peptides) i
                              + (String.length p - 1 - 1 - k))%nat)
     ∧ (ion_type ∈ n_terminal_ions →
        ∃ groups,
          reshape_predictions float32 ion_type preds (num_ions peptides)
            = Ok groups
          ∧ length groups = length peptides
          ∧ ∀ i p, peptides !! i = Some p →
              ∃ g, groups !! i = Some g
                ∧ length g = (String.length p - 1)%nat
                ∧ ∀ k, (k < String.length p - 1)%nat →
                    g !! k = float32 <$>
                      preds !! (offset (num_ions peptides) i + k)%nat)
     ∧ (ion_type ∉ c_terminal_ions → ion_type ∉ n_terminal_ions →
        reshape_predictions float32 ion_type preds (num_ions peptides)
          = Raise (ValueError ("Unsupported ion_type: " +:+ ion_type))))
  ∧ (∀ (predict : string → result (list A))
       (xgboost_model_files : list (string * string)),
       (∀ im, im ∈ xgboost_model_files →
          (im.1 ∈ c_terminal_ions ∨ im.1 ∈ n_terminal_ions)
          ∧ ∃ preds, predict im.2 = Ok preds
                     ∧ Z.of_nat (length preds) = Zsum (num_ions peptides)) →
       ∃ preds_list,
         process_peptides_xgb float32 predict peptides xgboost_model_files
           = Ok preds_list
         ∧ length preds_list = length xgboost_model_files
         ∧ ∀ j im, xgboost_model_files !! j = Some im →
             ∃ preds groups,
               predict im.2 = Ok preds
               ∧ preds_list !! j = Some groups
               ∧ reshape_predictions float32 im.1 preds (num_ions peptides)
                 = Ok groups).
Proof.
  intros Hp.
  assert (∀ (preds : list A) (ion_type : string),
     Z.of_nat (length preds) = Zsum (num_ions peptides) →
     (ion_type ∈ c_terminal_ions →
      ∃ groups,
        reshape_predictions float32 ion_type preds (num_ions peptides)
          = Ok groups
        ∧ length groups = length peptides
        ∧ ∀ i p, peptides !! i = Some p →
            ∃ g, groups !! i = Some g
              ∧ length g = (String.length p - 1)%nat
              ∧ ∀ k, (k < String.length p - 1)%nat →
                  g !! k = float32 <$>
                    preds !! (offset (num_ions peptides) i
                              + (String.length p - 1 - 1 - k))%nat)
     ∧ (ion_type ∈ n_terminal_ions →
        ∃ groups,
          reshape_predictions float32 ion_type preds (num_ions peptides)
            = Ok groups
          ∧ length groups = length peptides
          ∧ ∀ i p, peptides !! i = Some p →
              ∃ g, groups !! i = Some g
                ∧ length g = (String.length p - 1)%nat
                ∧ ∀ k, (k < String.length p - 1)%nat →
                    g !! k = float32 <$>
                      preds !! (offset (num_ions peptides) i + k)%nat)
     ∧ (ion_type ∉ c_terminal_ions → ion_type ∉ n_terminal_ions →
        reshape_predictions float32 ion_type preds (num_ions peptides)
          = Raise (ValueError ("Unsupported ion_type: " +:+ ion_type))))
    as Hone.
  { intros preds ion_type Hlen.
    destruct (split_well_sized peptides preds Hp Hlen)
      as (gs & Hgs & Hl & _ & Hn).
    unfold reshape_predictions. rewrite Hgs. simpl.
    fold c_terminal_ions n_terminal_ions.
    split; [|split].
    - intros Hc. rewrite bool_decide_eq_true_2 by done.
      eexists. split; [done|]. split; [by rewrite length_fmap|].
      intros i p Hi. destruct (Hn i p Hi) as (g & Hg & Hgl & Hk).
      exists (float32 <$> reverse g). rewrite list_lookup_fmap, Hg.
      split; [done|]. split; [by rewrite length_fmap, length_reverse|].
      intros k Hlt. rewrite list_lookup_fmap.
      by destruct (Hk k Hlt) as [_ ->].
    - intros Hc.
      assert (ion_type ∉ c_terminal_ions) as Hnc.
      { revert Hc. unfold n_terminal_ions, c_terminal_ions.
        rewrite !elem_of_cons, !elem_of_nil.
        intros [->|[->|[->|[]]]] [?|[?|[?|[]]]]; discriminate. }
      rewrite bool_decide_eq_false_2 by done.
      rewrite bool_decide_eq_true_2 by done.
      eexists. split; [done|]. split; [by rewrite length_fmap|].
      intros i p Hi. destruct (Hn i p Hi) as (g & Hg & Hgl & Hk).
      exists (float32 <$> g). rewrite list_lookup_fmap, Hg.
      split; [done|]. split; [by rewrite length_fmap|].
      intros k Hlt. rewrite list_lookup_fmap.
      by destruct (Hk k Hlt) as [-> _].
    - intros Hnc Hnn. by rewrite !bool_decide_eq_false_2 by done. }
  split; [exact Hone|].
  intros predict models Hm. unfold process_peptides_xgb.
  destruct (mapM_Ok_lookup
              (λ im, preds <- predict im.2 ;;
                     reshape_predictions float32 im.1 preds
                       (num_ions peptides)) models)
    as (ys & Hys & Hlen & Hnth).
  { intros im Him. destruct (Hm im Him) as [Hion (pr & Hpr & Hprl)].
    rewrite Hpr. simpl.
    destruct (Hone pr im.1 Hprl) as (Hc & Hn & _).
    destruct Hion as [Hi|Hi]; [destruct (Hc Hi) as (g & -> & _)
                              |destruct (Hn Hi) as (g & -> & _)]; eauto. }
  exists ys. split; [done|]. split; [done|].
  intros j im Hj. destruct (Hnth j im Hj) as (y & Hy & Hfy).
  destruct (Hm im) as [_ (pr & Hpr & _)].
  { by eapply list_elem_of_lookup_2. }
  exists pr, y. rewrite Hpr in Hfy. done.
Qed.

Lemma C1_witness :
  let peptides := ["ACDEK"; "ACDEFGK"] in
  let preds := [1; 2; 3; 4; 5; 6; 7; 8; 9; 10] in
  Forall (λ p, 1 ≤ Z.of_nat (String.length p) ≤ sys_maxsize) peptides
  ∧ ∃ groups,
      reshape_predictions id "y" preds (num_ions peptides) = Ok groups
      ∧ length groups = length peptides
      ∧ ∀ i p, peptides !! i = Some p →
          ∃ g, groups !! i = Some g
            ∧ length g = (String.length p - 1)%nat
            ∧ ∀ k, (k < String.length p - 1)%nat →
                g !! k = id <$>
                  preds !! (offset (num_ions peptides) i
                            + (String.length p - 1 - 1 - k))%nat.
Proof.
  intros peptides preds.
  assert (Forall (λ p, 1 ≤ Z.of_nat (String.length p) ≤ sys_maxsize) peptides)
    as Hp by (repeat constructor; vm_compute; discriminate).
  split; [exact Hp|].
  apply (proj1 (C1_reshape_and_orientation id peptides Hp) preds "y").
  - reflexivity.
  - unfold c_terminal_ions. right. left.
Defined.

Example reshape_b_y_example :
  reshape_predictions id "b" [1; 2; 3; 4; 5; 6; 7; 8; 9; 10]
    (num_ions ["ACDEK"; "ACDEFGK"])
  = Ok [[1; 2; 3; 4]; [5; 6; 7; 8; 9; 10]]
  ∧ reshape_predictions id "y" [1; 2; 3; 4; 5; 6; 7; 8; 9; 10]
      (num_ions ["ACDEK"; "ACDEFGK"])
    = Ok [[4; 3; 2; 1]; [10; 9; 8; 7; 6; 5]].
Proof. split; reflexivity. Qed.

(** ** The amino-acid table and the peptide encoder *)

Lemma str_map_length f s : String.length (str_map f s) = String.length s.
Proof. induction s as [|c s IH]; simpl; congruence. Qed.

Lemma str_iter_length s : length (str_iter s) = String.length s.
Proof. induction s as [|c s IH]; simpl; congruence. Qed.

(** The id of a residue is its index in [AMINO_ACIDS], and every listed
    residue has an id. *)
Lemma amino_acid_ids_are_indices x i :
  AMINO_ACID_IDS !! x = Some i →
  0 ≤ i < 19 ∧ AMINO_ACIDS !! Z.to_nat i = Some x.
Proof.
  revert x i. change (map_Forall (λ x i,
    0 ≤ i < 19 ∧ AMINO_ACIDS !! Z.to_nat i = Some x) AMINO_ACID_IDS).
  apply (bool_decide_unpack _). vm_compute. exact I.
Qed.

Lemma amino_acids_have_ids x :
  x ∈ AMINO_ACIDS → is_Some (AMINO_ACID_IDS !! x).
Proof.
  revert x. apply Forall_forall.
  apply (bool_decide_unpack _). vm_compute. exact I.
Qed.

Lemma amino_acid_ids_listed x i :
  AMINO_ACID_IDS !! x = Some i → x ∈ AMINO_ACIDS.
Proof.
  intros H. apply amino_acid_ids_are_indices in H as [_ H].
  by eapply list_elem_of_lookup_2.
Qed.

Lemma mapM_getitem_Ok {V} (d : gmap string V) (l : list string) :
  Forall (λ x, is_Some (d !! x)) l →
  ∃ vs, mapM (dict_getitem d) l = Ok vs
        ∧ Forall2 (λ x v, d !! x = Some v) l vs.
Proof.
  induction 1 as [|x l [v Hv] _ (vs & Hvs & H2)].
  - by exists [].
  - exists (v :: vs). simpl. unfold dict_getitem at 1. rewrite Hv. simpl.
    rewrite Hvs. simpl. split; [done|]. by constructor.
Qed.

Lemma mapM_getitem_Raise {V} (d : gmap string V) (l : list string) :
  ¬ Forall (λ x, is_Some (d !! x)) l →
  ∃ pre k post,
    l = pre ++ k :: post
    ∧ Forall (λ x, is_Some (d !! x)) pre
    ∧ d !! k = None
    ∧ mapM (dict_getitem d) l = Raise (KeyError k).
Proof.
  induction l as [|x l IH]; intros Hn.
  - destruct Hn. constructor.
  - destruct (d !! x) as [v|] eqn:Hx.
    + destruct IH as (pre & k & post & -> & Hpre & Hk & Hr).
      { intros Hl. apply Hn. constructor; [by rewrite Hx|done]. }
      exists (x :: pre), k, post. split; [done|].
      split; [constructor; [by rewrite Hx|done]|]. split; [done|].
      simpl. unfold dict_getitem at 1. rewrite Hx. simpl. by rewrite Hr.
    + exists [], x, l. repeat split; try done.
      simpl. unfold dict_getitem at 1. by rewrite Hx.
Qed.

Lemma folded_length peptide :
  String.length (folded peptide) = String.length peptide.
Proof. unfold folded, str_replace, str_upper. by rewrite !str_map_length. Qed.

Lemma uint16_small v : 0 ≤ v < 2 ^ 16 → uint16 v = v.
Proof. intros H. unfold uint16. by apply Z.mod_small. Qed.

(** The encoder on a peptide of valid length: the ids of the residues between
    two zero sentinels, or the error that quotes the folded peptide. *)
Lemma encode_peptide_valid_length peptide :
  (4 ≤ String.length peptide ≤ 100)%nat →
  encode_peptide peptide
  = match mapM (dict_getitem AMINO_ACID_IDS) (str_iter (folded peptide)) with
    | Ok ids => Ok (np_array_uint16 ([0] ++ ids ++ [0]))
    | Raise (KeyError _) =>
        Raise (InvalidAminoAcidError
                 ("Unsupported amino acid found in peptide `"
                    +:+ folded peptide +:+ "`"))
    | Raise e => Raise e
    end.
Proof.
  intros [H4 H100]. unfold encode_peptide. fold (folded peptide).
  rewrite folded_length.
  destruct (100 <? String.length peptide)%nat eqn:E1;
    [apply Nat.ltb_lt in E1; lia|].
  destruct (String.length peptide <? 4)%nat eqn:E2;
    [apply Nat.ltb_lt in E2; lia|].
  destruct (mapM _ _) as [ids|[]]; done.
Qed.

(** C3: a peptide of 4 to 100 characters whose folded residues are all in the
    table of 19 amino acids encodes to an array of [peptide_length + 2]
    unsigned 16-bit values: a zero at both ends and, in between, the table id
    (the index in [AMINO_ACIDS]) of each folded residue.  Applying the empty
    modification string to a reference to that array returns the same
    reference and leaves the heap as it is. *)
Theorem C3_encode_canonical_peptide
    (py_int : string → option Z) (peptide : string) :
  (4 ≤ String.length peptide ≤ 100)%nat →
  Forall (λ x, x ∈ AMINO_ACIDS) (str_iter (folded peptide)) →
  ∃ arr,
    encode_peptide peptide = Ok arr
    ∧ length arr = (String.length peptide + 2)%nat
    ∧ Forall (λ v, 0 ≤ v < 2 ^ 16) arr
    ∧ arr !! 0%nat = Some 0
    ∧ arr !! (String.length peptide + 1)%nat = Some 0
    ∧ (∀ i x, str_iter (folded peptide) !! i = Some x →
         ∃ v, arr !! S i = Some v
              ∧ AMINO_ACID_IDS !! x = Some v
              ∧ AMINO_ACIDS !! Z.to_nat v = Some x)
    ∧ ∀ (h : heap) (l : ref) (ptm_ids : gmap string Z),
        h !! l = Some arr →
        apply_modifications py_int l "" ptm_ids h = (h, Ok l)
        ∧ Numpy.deref h l = arr.
Proof.
  intros Hlen Hcanon.
  rewrite (encode_peptide_valid_length _ Hlen).
  destruct (mapM_getitem_Ok AMINO_ACID_IDS (str_iter (folded peptide)))
    as (ids & -> & Hids).
  { eapply Forall_impl; [exact Hcanon|]. apply amino_acids_have_ids. }
  pose proof (Forall2_length _ _ _ Hids) as Hl.
  rewrite str_iter_length, folded_length in Hl.
  eexists. split; [done|]. unfold np_array_uint16.
  split; [|split; [|split; [|split; [|split]]]].
  - rewrite length_fmap, !length_app. simpl. lia.
  - apply Forall_fmap, Forall_forall. intros v _. unfold compose, uint16.
    apply Z.mod_pos_bound. done.
  - done.
  - rewrite list_lookup_fmap. simpl.
    replace (String.length peptide + 1)%nat with (S (length ids)) by lia.
    simpl. rewrite lookup_app_r by lia. by rewrite Nat.sub_diag.
  - intros i x Hi.
    destruct (Forall2_lookup_l _ _ _ _ _ Hids Hi) as (v & Hv & Hxv).
    destruct (amino_acid_ids_are_indices _ _ Hxv) as [Hr Hidx].
    exists v. split; [|done].
    rewrite list_lookup_fmap. simpl.
    rewrite lookup_app_l by (by eapply lookup_lt_Some).
    rewrite Hv. simpl. f_equal. apply uint16_small. lia.
  - intros h l ptm_ids Hh. split; [done|].
    unfold Numpy.deref. by rewrite Hh.
Qed.

Lemma C3_witness :
  ∃ arr,
    encode_peptide "acdLK" = Ok arr
    ∧ length arr = 7%nat
    ∧ Forall (λ v, 0 ≤ v < 2 ^ 16) arr
    ∧ arr !! 0%nat = Some 0
    ∧ arr !! 6%nat = Some 0
    ∧ (∀ i x, str_iter (folded "acdLK") !! i = Some x →
         ∃ v, arr !! S i = Some v
              ∧ AMINO_ACID_IDS !! x = Some v
              ∧ AMINO_ACIDS !! Z.to_nat v = Some x)
    ∧ ∀ (h : heap) (l : ref) (ptm_ids : gmap string Z),
        h !! l = Some arr →
        apply_modifications Runtime.py_int l "" ptm_ids h = (h, Ok l)
        ∧ Numpy.deref h l = arr.
Proof.
  apply (C3_encode_canonical_peptide Runtime.py_int "acdLK").
  - simpl. lia.
  - apply (bool_decide_unpack _). vm_compute. exact I.
Defined.

Example encode_example : encode_peptide "acdLK" = Ok [0; 0; 1; 2; 7; 8; 0].
Proof. reflexivity. Qed.

Lemma first_unrecognized_has_no_id peptide x :
  first_unrecognized peptide = Some x →
  ¬ Forall (λ x, is_Some (AMINO_ACID_IDS !! x)) (str_iter (folded peptide)).
Proof.
  unfold first_unrecognized. intros Hhd HF.
  assert (x ∈ filter (λ x, x ∉ AMINO_ACIDS) (str_iter (folded peptide)))
    as Hin.
  { destruct (filter _ _) as [|y l]; [done|].
    injection Hhd as ->. by left. }
  apply list_elem_of_filter in Hin as [Hnot Hin].
  rewrite Forall_forall in HF. destruct (HF x Hin) as [i Hi].
  apply Hnot. by eapply amino_acid_ids_listed.
Qed.

(** The encoder in terms of the upper-cased, folded peptide, which is what
    its length test and its lookups read. *)
Lemma encode_peptide_on_folded peptide :
  encode_peptide peptide
  = if (100 <? String.length (folded peptide))%nat then
      Raise (InvalidPeptideError
               "Peptide sequence cannot be longer than 100 amino acids.")
    else if (String.length (folded peptide) <? 4)%nat then
      Raise (InvalidPeptideError
               "Peptide sequence cannot be shorter than 4 amino acids.")
    else
      match mapM (dict_getitem AMINO_ACID_IDS) (str_iter (folded peptide))
      with
      | Ok ids => Ok (np_array_uint16 ([0] ++ ids ++ [0]))
      | Raise (KeyError _) =>
          Raise (InvalidAminoAcidError
                   ("Unsupported amino acid found in peptide `"
                      +:+ folded peptide +:+ "`"))
      | Raise e => Raise e
      end.
Proof.
  unfold encode_peptide. fold (folded peptide).
  destruct (100 <? String.length (folded peptide))%nat; [done|].
  destruct (String.length (folded peptide) <? 4)%nat; [done|].
  destruct (mapM _ _) as [ids|[]]; done.
Qed.

(** Upper-casing ASCII text keeps its number of characters, and so does the
    folding of [L] into [I]. *)
Lemma ascii_folded_length peptide :
  ascii_text peptide →
  String.length (folded peptide) = String.length peptide.
Proof. intros _. apply folded_length. Qed.

(** C5, as the code has it, for ASCII text: [encode_peptide] tests the length
    of the upper-cased, folded peptide, which on ASCII text is the length of
    the input.  It fails with [InvalidPeptideError] when that peptide has
    more than 100 characters and when it has fewer than 4, and fails with
    [InvalidAminoAcidError] when a peptide of valid length has a residue
    that the table does not know after upper-casing and folding [L] into
    [I].  The message of that error quotes the whole folded peptide; it does
    not single out the unrecognized residue. *)
Theorem C5_encode_errors (peptide : string) :
  ascii_text peptide →
  String.length (folded peptide) = String.length peptide
  ∧ ((100 < String.length (folded peptide))%nat →
     encode_peptide peptide
     = Raise (InvalidPeptideError
                "Peptide sequence cannot be longer than 100 amino acids."))
  ∧ ((String.length (folded peptide) < 4)%nat →
     encode_peptide peptide
     = Raise (InvalidPeptideError
                "Peptide sequence cannot be shorter than 4 amino acids."))
  ∧ ((4 ≤ String.length (folded peptide) ≤ 100)%nat →
     ∀ x, first_unrecognized peptide = Some x →
       encode_peptide peptide
       = Raise (InvalidAminoAcidError
                  ("Unsupported amino acid found in peptide `"
                     +:+ folded peptide +:+ "`"))).
Proof.
  intros Hascii. split; [by apply ascii_folded_length|].
  rewrite encode_peptide_on_folded.
  split; [|split].
  - intros H.
    by destruct (Nat.ltb_spec 100 (String.length (folded peptide))); [|lia].
  - intros H.
    destruct (Nat.ltb_spec 100 (String.length (folded peptide))); [lia|].
    by destruct (Nat.ltb_spec (String.length (folded peptide)) 4); [|lia].
  - intros [H4 H100] x Hx.
    destruct (Nat.ltb_spec 100 (String.length (folded peptide))); [lia|].
    destruct (Nat.ltb_spec (String.length (folded peptide)) 4); [lia|].
    destruct (mapM_getitem_Raise AMINO_ACID_IDS (str_iter (folded peptide)))
      as (pre & k & post & _ & _ & _ & ->); [|done].
    by eapply first_unrecognized_has_no_id.
Qed.

Lemma C5_witness :
  encode_peptide "ABZ_FOO"
  = Raise (InvalidAminoAcidError
             "Unsupported amino acid found in peptide `ABZ_FOO`").
Proof.
  destruct (C5_encode_errors "ABZ_FOO") as (_ & _ & _ & H); [reflexivity|].
  apply H with (x := "B").
  - vm_compute. lia.
  - reflexivity.
Defined.

(** The design document has the error name the first unrecognized residue;
    on the ASCII text ["ABZ_FOO"] that residue is [B], and the error names
    the peptide. *)
Lemma C5_counterexample :
  ¬ (∀ peptide x,
       ascii_text peptide →
       (4 ≤ String.length peptide ≤ 100)%nat →
       first_unrecognized peptide = Some x →
       encode_peptide peptide = Raise (InvalidAminoAcidError x)).
Proof.
  intros H. specialize (H "ABZ_FOO" "B").
  assert (encode_peptide "ABZ_FOO" = Raise (InvalidAminoAcidError "B")) as E.
  { apply H; [reflexivity | simpl; lia | reflexivity]. }
  vm_compute in E. discriminate E.
Qed.

Example encode_length_examples :
  encode_peptide "AAA"
  = Raise (InvalidPeptideError
             "Peptide sequence cannot be shorter than 4 amino acids.")
  ∧ encode_peptide (String.concat "" (replicate 101 "A"))
    = Raise (InvalidPeptideError
               "Peptide sequence cannot be longer than 100 amino acids.").
Proof. split; reflexivity. Qed.

(** ** The modification applicators and the heap *)

Section state_monad_facts.
Context {S : Type} (P : S → Prop).

Lemma sbind_preserves {A B} (m : SE S A) (k : A → SE S B) s :
  P (m s).1 → (∀ a s', P s' → P (k a s').1) → P (sbind m k s).1.
Proof.
  intros Hm Hk. unfold sbind. destruct (m s) as [s' [a|e]]; simpl in *.
  - by apply Hk.
  - done.
Qed.

Lemma for_preserves {A} (l : list A) (body : A → SE S unit) :
  (∀ x s, P s → P (body x s).1) → ∀ s, P s → P (for_ l body s).1.
Proof.
  intros Hbody. induction l as [|x l IH]; intros s Hs; simpl; [done|].
  apply sbind_preserves; [by apply Hbody|]. intros _ s' Hs'. by apply IH.
Qed.

Lemma sbind_then_ret {A B} (m : SE S A) (b b' : B) s :
  (sbind m (λ _, sret b) s).2 = Ok b' → b' = b.
Proof.
  unfold sbind, sret. destruct (m s) as [s' [a|e]]; simpl; congruence.
Qed.
End state_monad_facts.

Lemma str_truthy_true s : str_truthy s = true ↔ s ≠ "".
Proof. by destruct s. Qed.

Section heap_facts.
Implicit Types (h : heap) (l : ref).

Lemma alloc_fresh (a : list Z) h :
  ∃ l, Numpy.alloc a h = (<[l := a]> h, Ok l) ∧ h !! l = None.
Proof.
  exists (fresh (dom h)). split; [done|].
  apply not_elem_of_dom, is_fresh.
Qed.

(** A write through a reference that the caller does not hold leaves the
    caller's arrays alone. *)
Lemma setitem_frame (h0 : heap) h l index value :
  h0 ⊆ h → h0 !! l = None → h0 ⊆ (Numpy.setitem l index value h).1.
Proof.
  intros Hsub Hl. unfold Numpy.setitem.
  destruct (_ || _); simpl; [done|]. by apply insert_subseteq_r.
Qed.

Lemma setitem_keeps_allocated h l l' index value :
  is_Some (h !! l') → is_Some ((Numpy.setitem l index value h).1 !! l').
Proof.
  intros Hl'. unfold Numpy.setitem. destruct (_ || _); simpl; [done|].
  destruct (decide (l = l')) as [->|Hne].
  - rewrite lookup_insert_eq. eauto.
  - by rewrite lookup_insert_ne.
Qed.
End heap_facts.

Section applicator_facts.
Variable py_int : string → option Z.
Implicit Types (h : heap) (l : ref) (ptm_ids : gmap string Z).

(** The loop of [apply_modifications] writes through [l'] only. *)
Lemma apply_modifications_loop_frame (h0 : heap) l' mods_split ptm_ids :
  h0 !! l' = None →
  ∀ h, h0 ⊆ h ∧ is_Some (h !! l') →
    let h' := (for_ (range_by2 (length mods_split)) (λ i,
             location <~ slift (tok <- list_getitem mods_split i ;;
                                int_ py_int tok) ;;
             name <~ slift (list_getitem mods_split (i + 1)) ;;
             match ptm_ids !! name with
             | Some id => Numpy.setitem l' location id
             | None => sraise (UnknownModificationError name)
             end) h).1 in
    h0 ⊆ h' ∧ is_Some (h' !! l').
Proof.
  intros Hfresh. apply (for_preserves (λ h, h0 ⊆ h ∧ is_Some (h !! l'))).
  intros i h [Hsub Hal].
  apply sbind_preserves; [done|]. intros location h1 H1.
  apply sbind_preserves; [done|]. intros name h2 [Hsub2 Hal2].
  destruct (ptm_ids !! name); [|done].
  split; [by apply setitem_frame | by apply setitem_keeps_allocated].
Qed.

Lemma apply_mods_loop_frame (h0 : heap) l' toks
    (PTMmap : gmap string Z) :
  h0 !! l' = None →
  ∀ h, h0 ⊆ h ∧ is_Some (h !! l') →
    let h' := (for_ (range_by2 (length toks)) (λ i,
              tl <~ slift (list_getitem toks (i + 1)) ;;
              match PTMmap !! tl with
              | Some id =>
                  index <~ slift (tok <- list_getitem toks i ;;
                                  int_ py_int tok) ;;
                  Numpy.setitem l' index id
              | None => sraise (UnknownModificationError tl)
              end) h).1 in
    h0 ⊆ h' ∧ is_Some (h' !! l').
Proof.
  intros Hfresh. apply (for_preserves (λ h, h0 ⊆ h ∧ is_Some (h !! l'))).
  intros i h [Hsub Hal].
  apply sbind_preserves; [done|]. intros tl h1 [Hsub1 Hal1].
  destruct (PTMmap !! tl); [|done].
  apply sbind_preserves; [done|]. intros index h2 [Hsub2 Hal2].
  split; [by apply setitem_frame | by apply setitem_keeps_allocated].
Qed.
End applicator_facts.

Section applicator_frames.
Variable py_int : string → option Z.
Implicit Types (h : heap) (l : ref) (ptm_ids : gmap string Z).

Lemma ret_after_run (m : SE heap unit) l' h1 h' (r : result ref) :
  sbind m (λ _, sret l') h1 = (h', r) →
  h' = (m h1).1 ∧ ∀ l, r = Ok l → l = l'.
Proof.
  unfold sbind, sret. destruct (m h1) as [s [[]|e]]; simpl;
    intros [= <- <-]; split; try done; congruence.
Qed.

Lemma apply_modifications_frame h encoded_peptide modifications ptm_ids
    h' r :
  apply_modifications py_int encoded_peptide modifications ptm_ids h
    = (h', r) →
  h ⊆ h'
  ∧ (modifications ≠ "" → modifications ≠ "-" →
     ∀ l, r = Ok l → h !! l = None ∧ is_Some (h' !! l)).
Proof.
  unfold apply_modifications.
  destruct (str_truthy modifications
            && bool_decide (modifications ≠ "-")) eqn:E.
  - unfold sbind at 1. unfold Numpy.copy.
    destruct (alloc_fresh (Numpy.deref h encoded_peptide) h)
      as (l' & -> & Hfresh).
    assert (h ⊆ <[l' := Numpy.deref h encoded_peptide]> h
            ∧ is_Some (<[l' := Numpy.deref h encoded_peptide]> h !! l'))
      as Hstart.
    { split; [by apply insert_subseteq|]. rewrite lookup_insert_eq. eauto. }
    destruct (bool_decide (_ ≠ 0%nat)).
    { intros [= <- <-].
      split; [apply Hstart | intros _ _ l Hl; discriminate Hl]. }
    intros Hrun. apply ret_after_run in Hrun as [-> Hr].
    destruct (apply_modifications_loop_frame py_int h l'
                (str_split "|" modifications) ptm_ids Hfresh _ Hstart)
      as [Hloop1 Hloop2].
    split; [exact Hloop1|].
    intros _ _ l Hl. rewrite (Hr l Hl). by split.
  - intros [= <- <-]. split; [done|]. intros H1 H2.
    apply andb_false_iff in E as [E|E].
    + apply str_truthy_true in H1. congruence.
    + apply bool_decide_eq_false in E. by destruct E.
Qed.

Lemma apply_mods_frame h peptide mods (PTMmap : gmap string Z) h' r :
  apply_mods py_int peptide mods PTMmap h = (h', r) →
  h ⊆ h' ∧ ∀ l, r = Ok l → h !! l = None ∧ is_Some (h' !! l).
Proof.
  unfold apply_mods. unfold sbind at 1. unfold Numpy.array_uint16.
  destruct (alloc_fresh (np_array_uint16 (Numpy.deref h peptide)) h)
    as (l' & -> & Hfresh).
  set (h1 := <[l' := np_array_uint16 (Numpy.deref h peptide)]> h).
  assert (h ⊆ h1 ∧ is_Some (h1 !! l')) as Hstart.
  { split; [by apply insert_subseteq|].
    subst h1. rewrite lookup_insert_eq. eauto. }
  intros Hrun. apply ret_after_run in Hrun as [-> Hr].
  match goal with
  | |- h ⊆ (?m h1).1 ∧ _ =>
      assert (h ⊆ (m h1).1 ∧ is_Some ((m h1).1 !! l')) as [Hm1 Hm2]
  end.
  { destruct (bool_decide (mods ≠ "-")); [|done].
    destruct (bool_decide (_ ≠ 0%nat)); [done|].
    apply (apply_mods_loop_frame py_int h l'
             (str_split "|" mods) PTMmap Hfresh _ Hstart). }
  split; [exact Hm1|]. intros l Hl. rewrite (Hr l Hl). by split.
Qed.
End applicator_frames.

(** C6: [apply_modifications] never writes to the array it is given.  Every
    array of the caller's heap, the input included, is found unchanged in the
    heap after the call, whether the call returns or raises.  For the empty
    modification string and for ["-"] the call returns the very reference it
    was given and touches nothing; otherwise a returned reference points to
    an array allocated by the call.  [apply_mods] of [predict_xgboost] keeps
    the caller's arrays unchanged too: it always works on a new array. *)
Theorem C6_applicator_never_mutates_input
    (py_int : string → option Z) (h : heap) (encoded_peptide : ref)
    (modifications : string) (ptm_ids : gmap string Z) :
  let res := apply_modifications py_int encoded_peptide modifications
               ptm_ids h in
  let res' := apply_mods py_int encoded_peptide modifications ptm_ids h in
  (h ⊆ res.1
   ∧ (∀ a, h !! encoded_peptide = Some a → res.1 !! encoded_peptide = Some a)
   ∧ (modifications = "" ∨ modifications = "-" →
      res = (h, Ok encoded_peptide))
   ∧ (modifications ≠ "" → modifications ≠ "-" →
      ∀ l, res.2 = Ok l → h !! l = None ∧ is_Some (res.1 !! l)))
  ∧ (h ⊆ res'.1
     ∧ (∀ a, h !! encoded_peptide = Some a →
             res'.1 !! encoded_peptide = Some a)
     ∧ ∀ l, res'.2 = Ok l → h !! l = None ∧ is_Some (res'.1 !! l)).
Proof.
  intros res res'.
  destruct res as [h1 r1] eqn:E1. destruct res' as [h2 r2] eqn:E2.
  apply apply_modifications_frame in E1 as Hf1.
  apply apply_mods_frame in E2 as [Hsub2 Hnew2].
  destruct Hf1 as [Hsub1 Hnew1]. simpl. split.
  - split; [done|]. split; [|split; [|done]].
    + intros a Ha. by eapply lookup_weaken.
    + rewrite <- E1. by intros [->| ->].
  - split; [done|]. split; [|done].
    intros a Ha. by eapply lookup_weaken.
Qed.

Example apply_modifications_example :
  let h : heap := {[ 1%positive := [0; 0; 1; 9; 7; 8; 0] ]} in
  let ids : gmap string Z := <["Acetyl" := 39]> (<["Oxidation" := 38]> ∅) in
  let res := apply_modifications Runtime.py_int 1%positive
               "0|Acetyl|3|Oxidation" ids h in
  res.2 = Ok 2%positive
  ∧ res.1 !! 1%positive = Some [0; 0; 1; 9; 7; 8; 0]
  ∧ res.1 !! 2%positive = Some [39; 0; 1; 38; 7; 8; 0]
  ∧ (apply_modifications Runtime.py_int 1%positive "0|Acetyl|2" ids h).2
    = Raise (InvalidModificationFormattingError "0|Acetyl|2")
  ∧ (apply_modifications Runtime.py_int 1%positive "0|Phospho" ids h).2
    = Raise (UnknownModificationError "Phospho")
  ∧ (apply_mods Runtime.py_int 1%positive "" ids h).2
    = Raise (InvalidModificationFormattingError "").
Proof. vm_compute. repeat split. Qed.

(** ** The modification registry *)

Section odict_facts.
Context {V : Type}.
Implicit Types (d : list (string * V)) (k : string).

Lemma odict_get_set d k v k' :
  odict_get (odict_set d k v) k'
  = if decide (k' = k) then Some v else odict_get d k'.
Proof.
  induction d as [|[k0 v0] d IH]; simpl.
  - by destruct (decide (k' = k)).
  - destruct (decide (k = k0)) as [->|Hne]; simpl.
    + by destruct (decide (k' = k0)).
    + destruct (decide (k' = k0)) as [->|]; [|done].
      by rewrite decide_False by done.
Qed.

Lemma odict_get_None d k : odict_get d k = None ↔ k ∉ d.*1.
Proof.
  induction d as [|[k0 v0] d IH]; simpl.
  - split; [intros _; apply not_elem_of_nil | done].
  - rewrite not_elem_of_cons. destruct (decide (k = k0)) as [->|Hne].
    + split; [done | by intros [? _]].
    + rewrite IH. split; [done | by intros [_ ?]].
Qed.

Lemma odict_get_elem_of d k v :
  NoDup d.*1 → (k, v) ∈ d → odict_get d k = Some v.
Proof.
  induction d as [|[k0 v0] d IH]; simpl; intros Hnd Hin.
  - by apply elem_of_nil in Hin.
  - apply NoDup_cons in Hnd as [Hk0 Hnd].
    apply elem_of_cons in Hin as [[= -> ->]|Hin].
    + by rewrite decide_True.
    + rewrite decide_False; [by apply IH|].
      intros ->. apply Hk0. apply list_elem_of_fmap. by exists (k0, v).
Qed.

Lemma odict_set_keys d k v :
  (odict_set d k v).*1
  = match odict_get d k with
    | Some _ => d.*1
    | None => d.*1 ++ [k]
    end.
Proof.
  induction d as [|[k0 v0] d IH]; csimpl; [done|].
  destruct (decide (k = k0)) as [->|Hne]; csimpl; [done|].
  rewrite IH. by destruct (odict_get d k).
Qed.

Lemma odict_set_NoDup d k v : NoDup d.*1 → NoDup (odict_set d k v).*1.
Proof.
  intros Hnd. rewrite odict_set_keys.
  destruct (odict_get d k) eqn:E; [done|].
  apply NoDup_app. split; [done|]. split; [|apply NoDup_singleton].
  intros x Hx ->%list_elem_of_singleton. by apply odict_get_None in E.
Qed.
End odict_facts.

Section registry_steps.
Context {F : Type} (py_float : string → option F).
Implicit Types (self : Modifications F).

(** One iteration of the registration loop, with its state changes
    spelled out. *)
Lemma add_modstring_unfold mod_type modstring self :
  add_modstring py_float mod_type modstring self
  = match unpack4 (str_split "," modstring) with
    | Raise e => (self, Raise e)
    | Ok (mod_name, shift, _, target) =>
        match resolve_amino_acid target with
        | Raise e => (self, Raise e)
        | Ok target_id =>
            match float_ py_float shift with
            | Raise e => (self, Raise e)
            | Ok x =>
                match odict_get (modifications self) mod_type with
                | None => (self, Raise (KeyError mod_type))
                | Some category =>
                    ({| modifications :=
                          odict_set (modifications self) mod_type
                            (<[mod_name := {| mass_shift := x;
                                              amino_acid := target;
                                              amino_acid_id := target_id;
                                              mod_id := _next_mod_id self |}]>
                               category);
                        _mass_shifts := _mass_shifts self;
                        _ptm_ids := _ptm_ids self;
                        _next_mod_id := _next_mod_id self + 1 |}, Ok tt)
                end
            end
        end
    end.
Proof.
  unfold add_modstring, sbind, slift, sget, sput.
  destruct (unpack4 _) as [[[[mod_name shift] opt] target]|e]; [|done].
  destruct (resolve_amino_acid target) as [target_id|e]; [|done].
  destruct (float_ py_float shift) as [x|e]; [|done].
  by destruct (odict_get (modifications self) mod_type).
Qed.

Lemma add_modstring_raise mod_type modstring self self' e :
  add_modstring py_float mod_type modstring self = (self', Raise e) →
  self' = self.
Proof.
  rewrite add_modstring_unfold.
  destruct (unpack4 _) as [[[[mod_name shift] opt] target]|e'];
    [|congruence].
  destruct (resolve_amino_acid target); [|congruence].
  destruct (float_ py_float shift); [|congruence].
  destruct (odict_get (modifications self) mod_type); congruence.
Qed.

Lemma add_modstring_ok mod_type modstring self self' u :
  add_modstring py_float mod_type modstring self = (self', Ok u) →
  ∃ name m,
    mod_id m = _next_mod_id self
    ∧ _next_mod_id self' = _next_mod_id self + 1
    ∧ _mass_shifts self' = _mass_shifts self
    ∧ _ptm_ids self' = _ptm_ids self
    ∧ (modifications self').*1 = (modifications self).*1
    ∧ ∀ c n, lookup_mod self' c n
             = if decide (c = mod_type ∧ n = name) then Some m
               else lookup_mod self c n.
Proof.
  rewrite add_modstring_unfold.
  destruct (unpack4 _) as [[[[mod_name shift] opt] target]|e'];
    [|congruence].
  destruct (resolve_amino_acid target) as [target_id|]; [|congruence].
  destruct (float_ py_float shift) as [x|]; [|congruence].
  destruct (odict_get (modifications self) mod_type) as [category|] eqn:Ec;
    [|congruence].
  intros [= <- _].
  exists mod_name, {| mass_shift := x; amino_acid := target;
                      amino_acid_id := target_id;
                      mod_id := _next_mod_id self |}. simpl.
  split; [reflexivity|]. split; [done|]. split; [done|]. split; [done|].
  split.
  { rewrite odict_set_keys. by rewrite Ec. }
  intros c n. unfold lookup_mod. simpl. rewrite odict_get_set.
  destruct (decide (c = mod_type)) as [->|Hc]; simpl.
  - rewrite Ec. simpl. destruct (decide (n = mod_name)) as [->|Hn].
    + rewrite decide_True by done. by rewrite lookup_insert_eq.
    + rewrite decide_False by (by intros [_ ?]).
      by rewrite lookup_insert_ne.
  - by rewrite decide_False by (by intros [? _]).
Qed.
End registry_steps.

Section registry_calls.
Context {F : Type} (py_float : string → option F).
Implicit Types (self : Modifications F).

Lemma add_from_ms2pip_modstrings_unfold modstrings mod_type self :
  add_from_ms2pip_modstrings py_float modstrings mod_type self
  = match for_ modstrings (add_modstring py_float mod_type)
            (with_category self mod_type) with
    | (self', Ok _) => (set_mass_shifts self' None, Ok tt)
    | (self', Raise e) => (self', Raise e)
    end.
Proof.
  unfold add_from_ms2pip_modstrings, with_category, sbind, sget.
  destruct (odict_get (modifications self) mod_type); simpl;
    by destruct (for_ _ _ _) as [self' [[]|e]].
Qed.

Lemma mass_shifts_unfold self :
  mass_shifts self
  = if cache_falsy (_mass_shifts self) then
      let d := dict_comp ((λ nm, (nm.1, mass_shift nm.2))
                            <$> _all_modifications self) in
      (set_mass_shifts self (Some d), Ok d)
    else (self, Ok (default ∅ (_mass_shifts self))).
Proof.
  unfold mass_shifts, sbind, sget.
  by destruct (cache_falsy (_mass_shifts self)).
Qed.

Lemma ptm_ids_unfold self :
  ptm_ids self
  = if cache_falsy (_ptm_ids self) then
      let d := dict_comp ((λ nm, (nm.1, mod_id nm.2))
                            <$> _all_modifications self) in
      (set_ptm_ids self (Some d), Ok d)
    else (self, Ok (default ∅ (_ptm_ids self))).
Proof.
  unfold ptm_ids, sbind, sget.
  by destruct (cache_falsy (_ptm_ids self)).
Qed.

(** A property of registries holds in every reachable state when the new
    registry has it and each elementary state change keeps it. *)
Lemma reachable_invariant (P : Modifications F → Prop) :
  P __init__ →
  (∀ self mod_type, P self → P (with_category self mod_type)) →
  (∀ self mod_type modstring,
     P self → P (add_modstring py_float mod_type modstring self).1) →
  (∀ self v, P self → P (set_mass_shifts self v)) →
  (∀ self v, P self → P (set_ptm_ids self v)) →
  ∀ self, reachable py_float self → P self.
Proof.
  intros Hinit Hcat Hadd Hms Hids self Hreach.
  induction Hreach as [|self modstrings mod_type _ IH|self _ IH|self _ IH].
  - done.
  - rewrite add_from_ms2pip_modstrings_unfold.
    pose proof (for_preserves P modstrings
                  (add_modstring py_float mod_type)
                  (λ x s, Hadd s mod_type x)
                  (with_category self mod_type) (Hcat _ _ IH)) as Hloop.
    destruct (for_ _ _ _) as [self' [[]|e]]; simpl in *; [|done].
    by apply Hms.
  - rewrite mass_shifts_unfold.
    destruct (cache_falsy _); simpl; [by apply Hms | done].
  - rewrite ptm_ids_unfold.
    destruct (cache_falsy _); simpl; [by apply Hids | done].
Qed.

Lemma lookup_mod_with_category self mod_type c n :
  lookup_mod (with_category self mod_type) c n = lookup_mod self c n.
Proof.
  unfold with_category.
  destruct (odict_get (modifications self) mod_type) eqn:E; [done|].
  unfold lookup_mod. simpl. rewrite odict_get_set.
  destruct (decide (c = mod_type)) as [->|]; [|done].
  rewrite E. simpl. apply lookup_empty.
Qed.

(** The invariant of the id counter. *)
Lemma add_modstring_keeps_ids_unique self mod_type modstring :
  ids_unique_below_counter self →
  ids_unique_below_counter
    (add_modstring py_float mod_type modstring self).1.
Proof.
  intros (H38 & Hrange & Hinj).
  destruct (add_modstring py_float mod_type modstring self)
    as [self' [u|e]] eqn:E; simpl.
  - apply add_modstring_ok in E
      as (name & m & Hid & Hnext & _ & _ & _ & Hlook).
    split; [lia|]. split.
    + intros c n m0. rewrite Hlook.
      destruct (decide _); [intros [= <-]; lia|].
      intros H0. apply Hrange in H0. lia.
    + intros c n m1 c' n' m2. rewrite !Hlook.
      destruct (decide (c = mod_type ∧ n = name)) as [[-> ->]|];
        destruct (decide (c' = mod_type ∧ n' = name)) as [[-> ->]|].
      * done.
      * intros [= <-] H2 Heq. apply Hrange in H2. lia.
      * intros H1 [= <-] Heq. apply Hrange in H1. lia.
      * apply Hinj.
  - apply add_modstring_raise in E as ->. done.
Qed.

Lemma reachable_ids_unique self :
  reachable py_float self → ids_unique_below_counter self.
Proof.
  apply (reachable_invariant ids_unique_below_counter).
  - split; [done|]. split.
    + intros c n m. unfold lookup_mod. simpl.
      repeat (case_decide; simpl; [by rewrite lookup_empty|]). done.
    + intros c n m c' n' m'. unfold lookup_mod at 1. simpl.
      repeat (case_decide; simpl; [by rewrite lookup_empty|]). done.
  - intros self0 mod_type (H1 & H2 & H3). split; [|split].
    + unfold with_category. by destruct (odict_get _ _).
    + intros c n m. rewrite lookup_mod_with_category.
      unfold with_category. destruct (odict_get _ _); apply H2.
    + intros c n m c' n' m'. rewrite !lookup_mod_with_category. apply H3.
  - intros. by apply add_modstring_keeps_ids_unique.
  - done.
  - done.
Qed.
End registry_calls.

Section cache_contents.
Context {F V : Type} (f : Mod F → V).
Implicit Types (acc : gmap string V) (items : list (string * V)).

Lemma foldl_insert_absent items : ∀ acc name,
  name ∉ items.*1 →
  foldl (λ d kv, <[kv.1 := kv.2]> d) acc items !! name = acc !! name.
Proof.
  induction items as [|[k v] items IH]; intros acc name Hn; csimpl in *;
    [done|].
  apply not_elem_of_cons in Hn as [Hk Hn].
  rewrite IH by done. by rewrite lookup_insert_ne.
Qed.

Lemma foldl_insert_present items : ∀ acc name v,
  NoDup items.*1 → (name, v) ∈ items →
  foldl (λ d kv, <[kv.1 := kv.2]> d) acc items !! name = Some v.
Proof.
  induction items as [|[k v0] items IH]; intros acc name v Hnd Hin;
    csimpl in *.
  - by apply elem_of_nil in Hin.
  - apply NoDup_cons in Hnd as [Hk Hnd].
    apply elem_of_cons in Hin as [[= -> ->]|Hin].
    + rewrite foldl_insert_absent by done. by rewrite lookup_insert_eq.
    + by apply IH.
Qed.

(** Feeding the items of one category to the comprehension. *)
Lemma foldl_insert_category (d : gmap string (Mod F)) acc name :
  foldl (λ d kv, <[kv.1 := kv.2]> d) acc
    ((λ nm, (nm.1, f nm.2)) <$> map_to_list d) !! name
  = match d !! name with
    | Some m => Some (f m)
    | None => acc !! name
    end.
Proof.
  assert (((λ nm : string * Mod F, (nm.1, f nm.2)) <$> map_to_list d).*1
          = (map_to_list d).*1) as Hkeys.
  { rewrite <- list_fmap_compose. by apply list_fmap_ext. }
  destruct (d !! name) as [m|] eqn:E.
  - apply foldl_insert_present.
    + rewrite Hkeys. apply NoDup_fst_map_to_list.
    + apply list_elem_of_fmap. exists (name, m). split; [done|].
      by apply elem_of_map_to_list.
  - apply foldl_insert_absent. rewrite Hkeys.
    intros ([k m] & Hk & Hin)%list_elem_of_fmap. simpl in Hk. subst k.
    apply elem_of_map_to_list in Hin. congruence.
Qed.

Lemma foldl_insert_categories (cats : list (string * gmap string (Mod F))) :
  ∀ acc name,
    foldl (λ d kv, <[kv.1 := kv.2]> d) acc
      ((λ nm, (nm.1, f nm.2)) <$> (mods ← cats.*2; map_to_list mods))
      !! name
    = match last_definition cats name with
      | Some m => Some (f m)
      | None => acc !! name
      end.
Proof.
  induction cats as [|[c d] cats IH]; intros acc name; csimpl; [done|].
  rewrite fmap_app, foldl_app, IH.
  destruct (last_definition cats name); [done|].
  apply foldl_insert_category.
Qed.

(** A rebuilt cache maps a name to the definition of the last category
    that has the name. *)
Lemma dict_comp_last_definition (self : Modifications F) name :
  dict_comp ((λ nm, (nm.1, f nm.2)) <$> _all_modifications self) !! name
  = f <$> last_definition (modifications self) name.
Proof.
  unfold dict_comp, _all_modifications. rewrite foldl_insert_categories.
  by destruct (last_definition _ _).
Qed.
End cache_contents.

Section registration_effects.
Context {F : Type} (py_float : string → option F).
Implicit Types (self : Modifications F).

(** What the registration loop does to the counter, to the caches and to
    the definitions, whether it completes or raises. *)
Lemma registration_loop_effects mod_type modstrings : ∀ self,
  let res := for_ modstrings (add_modstring py_float mod_type) self in
  _next_mod_id self ≤ _next_mod_id res.1
                    ≤ _next_mod_id self + Z.of_nat (length modstrings)
  ∧ (res.2 = Ok tt →
     _next_mod_id res.1
     = _next_mod_id self + Z.of_nat (length modstrings))
  ∧ _mass_shifts res.1 = _mass_shifts self
  ∧ _ptm_ids res.1 = _ptm_ids self
  ∧ ∀ c n m, lookup_mod res.1 c n = Some m →
      lookup_mod self c n = Some m
      ∨ _next_mod_id self ≤ mod_id m < _next_mod_id res.1.
Proof.
  induction modstrings as [|modstring modstrings IH]; intros self res.
  - subst res. simpl. repeat split; try lia; try done. by left.
  - subst res. simpl. unfold sbind.
    destruct (add_modstring py_float mod_type modstring self)
      as [self1 [u|e]] eqn:E.
    + apply add_modstring_ok in E
        as (name & m & Hid & Hnext & Hms & Hids & _ & Hlook).
      destruct (IH self1) as (Hb & Hok & Hms' & Hids' & Hgrow).
      rewrite Hnext in Hb, Hok, Hgrow. rewrite Hms', Hids'.
      split; [lia|]. split.
      { intros Hr. rewrite (Hok Hr). lia. }
      split; [done|]. split; [done|].
      intros c n m0 Hm0. destruct (Hgrow c n m0 Hm0) as [Hold|Hnew].
      * rewrite Hlook in Hold. destruct (decide _).
        -- injection Hold as <-. right. lia.
        -- by left.
      * right. lia.
    + apply add_modstring_raise in E as ->. simpl.
      split; [lia|]. split; [done|]. split; [done|]. split; [done|].
      intros c n m0 Hm0. by left.
Qed.

Lemma add_from_ms2pip_modstrings_effects modstrings mod_type self :
  let res := add_from_ms2pip_modstrings py_float modstrings mod_type self in
  _next_mod_id self ≤ _next_mod_id res.1
                    ≤ _next_mod_id self + Z.of_nat (length modstrings)
  ∧ (res.2 = Ok tt →
     _next_mod_id res.1
     = _next_mod_id self + Z.of_nat (length modstrings))
  ∧ (res.2 = Ok tt → _mass_shifts res.1 = None)
  ∧ ((∃ e, res.2 = Raise e) → _mass_shifts res.1 = _mass_shifts self)
  ∧ _ptm_ids res.1 = _ptm_ids self
  ∧ ∀ c n m, lookup_mod res.1 c n = Some m →
      lookup_mod self c n = Some m
      ∨ _next_mod_id self ≤ mod_id m < _next_mod_id res.1.
Proof.
  intros res. subst res. rewrite add_from_ms2pip_modstrings_unfold.
  destruct (registration_loop_effects mod_type modstrings
              (with_category self mod_type))
    as (Hb & Hok & Hms & Hids & Hgrow).
  assert (_next_mod_id (with_category self mod_type) = _next_mod_id self
          ∧ _mass_shifts (with_category self mod_type) = _mass_shifts self
          ∧ _ptm_ids (with_category self mod_type) = _ptm_ids self)
    as (Hn0 & Hms0 & Hids0).
  { unfold with_category. by destruct (odict_get _ _). }
  rewrite Hn0 in Hb, Hok, Hgrow. rewrite Hms0 in Hms. rewrite Hids0 in Hids.
  destruct (for_ _ _ _) as [self' [[]|e]]; simpl in *.
  - split; [done|]. split; [auto|]. split; [done|].
    split; [by intros [e [=]]|]. split; [done|].
    intros c n m Hm. destruct (Hgrow c n m Hm) as [Hold|Hnew]; [|by right].
    left. by rewrite lookup_mod_with_category in Hold.
  - split; [done|]. split; [done|]. split; [done|].
    split; [done|]. split; [done|].
    intros c n m Hm. destruct (Hgrow c n m Hm) as [Hold|Hnew]; [|by right].
    left. by rewrite lookup_mod_with_category in Hold.
Qed.

(** One iteration on a well-formed entry. *)
Lemma add_modstring_parsed mod_type modstring self
    name shift opt target target_id x category :
  unpack4 (str_split "," modstring) = Ok (name, shift, opt, target) →
  resolve_amino_acid target = Ok target_id →
  py_float shift = Some x →
  odict_get (modifications self) mod_type = Some category →
  add_modstring py_float mod_type modstring self
  = ({| modifications :=
          odict_set (modifications self) mod_type
            (<[name := {| mass_shift := x; amino_acid := target;
                          amino_acid_id := target_id;
                          mod_id := _next_mod_id self |}]> category);
        _mass_shifts := _mass_shifts self;
        _ptm_ids := _ptm_ids self;
        _next_mod_id := _next_mod_id self + 1 |}, Ok tt).
Proof.
  intros H1 H2 H3 H4. rewrite add_modstring_unfold, H1, H2.
  unfold float_. by rewrite H3, H4.
Qed.

Lemma mass_shift_table_rebuilt self name :
  cache_falsy (_mass_shifts self) = true →
  mass_shift_table self !! name
  = mass_shift <$> last_definition (modifications self) name.
Proof.
  intros H. unfold mass_shift_table. rewrite mass_shifts_unfold, H. simpl.
  apply dict_comp_last_definition.
Qed.

Lemma ptm_id_table_rebuilt self name :
  cache_falsy (_ptm_ids self) = true →
  ptm_id_table self !! name
  = mod_id <$> last_definition (modifications self) name.
Proof.
  intros H. unfold ptm_id_table. rewrite ptm_ids_unfold, H. simpl.
  apply dict_comp_last_definition.
Qed.

Lemma ptm_id_table_cached self :
  cache_falsy (_ptm_ids self) = false →
  ptm_id_table self = default ∅ (_ptm_ids self).
Proof.
  intros H. unfold ptm_id_table. by rewrite ptm_ids_unfold, H.
Qed.

Lemma mass_shift_table_cached self :
  cache_falsy (_mass_shifts self) = false →
  mass_shift_table self = default ∅ (_mass_shifts self).
Proof.
  intros H. unfold mass_shift_table. by rewrite mass_shifts_unfold, H.
Qed.
End registration_effects.

(** C7: the ids of the modifications come from one counter.  It starts at 38;
    every entry that the registration loop stores takes the current value as
    its id and moves the counter up by one, whatever the category, so a call
    that completes moves it by the number of its entries, and a definition
    found after a call is either one that was there before, unchanged, or
    has an id from the counter values of that call.  In every state of a
    registry object all ids lie between 38 and the counter and no two
    definitions share one.  Registering Oxidation and Acetyl in a new
    registry gives them the ids 38 and 39. *)
Theorem C7_ids_come_from_one_counter
    {F : Type} (py_float : string → option F) :
  _next_mod_id (__init__ : Modifications F) = 38
  ∧ (∀ (self : Modifications F) mod_type modstring,
       let res := add_modstring py_float mod_type modstring self in
       (∀ e, res.2 = Raise e → res.1 = self)
       ∧ (res.2 = Ok tt →
          ∃ name m,
            lookup_mod res.1 mod_type name = Some m
            ∧ mod_id m = _next_mod_id self
            ∧ _next_mod_id res.1 = _next_mod_id self + 1
            ∧ ∀ c n, ¬ (c = mod_type ∧ n = name) →
                lookup_mod res.1 c n = lookup_mod self c n))
  ∧ (∀ (self : Modifications F) modstrings mod_type,
       let res :=
         add_from_ms2pip_modstrings py_float modstrings mod_type self in
       _next_mod_id self ≤ _next_mod_id res.1
                         ≤ _next_mod_id self + Z.of_nat (length modstrings)
       ∧ (res.2 = Ok tt →
          _next_mod_id res.1
          = _next_mod_id self + Z.of_nat (length modstrings))
       ∧ ∀ c n m, lookup_mod res.1 c n = Some m →
           lookup_mod self c n = Some m
           ∨ _next_mod_id self ≤ mod_id m < _next_mod_id res.1)
  ∧ (∀ self, reachable py_float self → ids_unique_below_counter self)
  ∧ (∀ x1 x2,
       py_float "15.994915" = Some x1 → py_float "42.010565" = Some x2 →
       let res :=
         add_from_ms2pip_modstrings py_float
           ["Oxidation,15.994915,opt,M"; "Acetyl,42.010565,opt,N-term"]
           "ptm" __init__ in
       res.2 = Ok tt
       ∧ _next_mod_id res.1 = 40
       ∧ lookup_mod res.1 "ptm" "Oxidation"
         = Some {| mass_shift := x1; amino_acid := "M";
                   amino_acid_id := 9; mod_id := 38 |}
       ∧ lookup_mod res.1 "ptm" "Acetyl"
         = Some {| mass_shift := x2; amino_acid := "N-term";
                   amino_acid_id := -1; mod_id := 39 |}
       ∧ ptm_id_table res.1 !! "Oxidation" = Some 38
       ∧ ptm_id_table res.1 !! "Acetyl" = Some 39
       ∧ mass_shift_table res.1 !! "Oxidation" = Some x1).
Proof.
  split; [done|]. split; [|split; [|split]].
  - intros self mod_type modstring res. subst res.
    destruct (add_modstring py_float mod_type modstring self)
      as [self' [[]|e]] eqn:E; simpl.
    + split; [done|]. intros _.
      apply add_modstring_ok in E
        as (name & m & Hid & Hnext & _ & _ & _ & Hlook).
      exists name, m. split; [|split; [done|split; [done|]]].
      * rewrite Hlook. by rewrite decide_True.
      * intros c n Hne. rewrite Hlook. by rewrite decide_False.
    + split; [|done]. intros _ _. by apply add_modstring_raise in E.
  - intros self modstrings mod_type res.
    destruct (add_from_ms2pip_modstrings_effects py_float modstrings
                mod_type self) as (H1 & H2 & _ & _ & _ & H3).
    split; [exact H1|]. split; [exact H2 | exact H3].
  - apply reachable_ids_unique.
  - intros x1 x2 Hx1 Hx2 res.
    assert (res = ({| modifications :=
                        [("ptm",
                          <["Acetyl" := {| mass_shift := x2;
                                           amino_acid := "N-term";
                                           amino_acid_id := -1;
                                           mod_id := 39 |}]>
                            (<["Oxidation" := {| mass_shift := x1;
                                                 amino_acid := "M";
                                                 amino_acid_id := 9;
                                                 mod_id := 38 |}]> ∅));
                         ("sptm", ∅)];
                      _mass_shifts := None;
                      _ptm_ids := None;
                      _next_mod_id := 40 |}, Ok tt)) as ->.
    { subst res. rewrite add_from_ms2pip_modstrings_unfold.
      change (with_category __init__ "ptm") with (@__init__ F).
      simpl for_. unfold sbind.
      erewrite add_modstring_parsed;
        [|reflexivity|reflexivity|exact Hx1|reflexivity].
      erewrite add_modstring_parsed;
        [|reflexivity|reflexivity|exact Hx2|reflexivity].
      reflexivity. }
    split; [done|]. split; [done|].
    rewrite ptm_id_table_rebuilt, mass_shift_table_rebuilt by done.
    vm_compute. by repeat split.
Qed.

Lemma C7_witness :
  let res :=
    Runtime.add_from_ms2pip_modstrings
      ["Oxidation,15.994915,opt,M"; "Acetyl,42.010565,opt,N-term"]
      "ptm" __init__ in
  res.2 = Ok tt
  ∧ _next_mod_id res.1 = 40
  ∧ lookup_mod res.1 "ptm" "Oxidation"
    = Some {| mass_shift := 0x1.ffd657fb69985p+3%float; amino_acid := "M";
              amino_acid_id := 9; mod_id := 38 |}
  ∧ lookup_mod res.1 "ptm" "Acetyl"
    = Some {| mass_shift := 0x1.5015a31a4bdbap+5%float;
              amino_acid := "N-term";
              amino_acid_id := -1; mod_id := 39 |}
  ∧ ptm_id_table res.1 !! "Oxidation" = Some 38
  ∧ ptm_id_table res.1 !! "Acetyl" = Some 39
  ∧ mass_shift_table res.1 !! "Oxidation"
    = Some 0x1.ffd657fb69985p+3%float.
Proof.
  apply (proj2 (proj2 (proj2 (proj2
           (C7_ids_come_from_one_counter Runtime.py_float))))).
  - reflexivity.
  - reflexivity.
Defined.

(** A modification string that names a modification which the id lookup
    does not have. *)
Lemma apply_modifications_unregistered (py_int : string → option Z)
    (l : ref) (h : heap) (ids : gmap string Z) :
  py_int "0" = Some 0 → ids !! "Acetyl" = None →
  (apply_modifications py_int l "0|Acetyl" ids h).2
  = Raise (UnknownModificationError "Acetyl").
Proof.
  intros Hint Hid. unfold apply_modifications.
  change (str_truthy "0|Acetyl" && bool_decide ("0|Acetyl" ≠ "-")) with true.
  cbv iota.
  unfold sbind at 1. unfold Numpy.copy.
  destruct (alloc_fresh (Numpy.deref h l) h) as (l' & -> & _).
  change (str_split "|" "0|Acetyl") with ["0"; "Acetyl"].
  change (bool_decide ((length ["0"; "Acetyl"] `mod` 2)%nat ≠ 0%nat))
    with false. cbv iota.
  change (range_by2 (length ["0"; "Acetyl"])) with [0%nat].
  unfold for_, sbind, slift, list_getitem, bind, int_. simpl.
  rewrite Hint. simpl.
  by rewrite Hid.
Qed.

(** C2: the code clears only one of the two caches.  A registration call
    never touches [_ptm_ids] (first part); a call that completes does clear
    [_mass_shifts], a call that raises leaves it as it was.  So after Oxidation has been registered and [ptm_ids]
    read, registering Acetyl leaves the id cache as it was: the registry
    holds Acetyl with id 39, the mass-shift lookup finds it, the id lookup
    does not, and applying ["0|Acetyl"] with the looked-up ids fails with
    [UnknownModificationError]. *)
Theorem C2_ptm_ids_cache_is_not_invalidated :
  (∀ (F : Type) (py_float : string → option F) modstrings mod_type
     (self : Modifications F),
     let res :=
       add_from_ms2pip_modstrings py_float modstrings mod_type self in
     _ptm_ids res.1 = _ptm_ids self
     ∧ (res.2 = Ok tt → _mass_shifts res.1 = None)
     ∧ ((∃ e, res.2 = Raise e) → _mass_shifts res.1 = _mass_shifts self))
  ∧ (let s1 := (Runtime.add_from_ms2pip_modstrings
                  ["Oxidation,15.994915,opt,M"] "ptm" __init__).1 in
     let s2 := (ptm_ids s1).1 in
     let s3 := (Runtime.add_from_ms2pip_modstrings
                  ["Acetyl,42.010565,opt,N-term"] "ptm" s2).1 in
     ptm_id_table s1 !! "Oxidation" = Some 38
     ∧ (∃ m, lookup_mod s3 "ptm" "Acetyl" = Some m ∧ mod_id m = 39)
     ∧ (∃ x, mass_shift_table s3 !! "Acetyl" = Some x)
     ∧ ptm_id_table s3 !! "Oxidation" = Some 38
     ∧ ptm_id_table s3 !! "Acetyl" = None
     ∧ ∀ (h : heap) (l : ref),
         (apply_modifications Runtime.py_int l "0|Acetyl"
            (ptm_id_table s3) h).2
         = Raise (UnknownModificationError "Acetyl")).
Proof.
  split.
  - intros F py_float modstrings mod_type self res.
    destruct (add_from_ms2pip_modstrings_effects py_float modstrings
                mod_type self) as (_ & _ & Hms & Hraise & Hids & _).
    split; [exact Hids|]. split; [exact Hms | exact Hraise].
  - intros s1 s2 s3.
    assert (ptm_id_table s3 !! "Acetyl" = None) as Hstale
      by (vm_compute; reflexivity).
    split; [vm_compute; reflexivity|].
    split; [eexists; vm_compute; split; reflexivity|].
    split; [eexists; vm_compute; reflexivity|].
    split; [vm_compute; reflexivity|].
    split; [exact Hstale|].
    intros h l. by apply apply_modifications_unregistered.
Qed.

Section category_order.
Context {F : Type} (py_float : string → option F).
Implicit Types (self : Modifications F).

(** The categories of a registry object: distinct, [ptm] and [sptm]
    first. *)
Lemma reachable_categories self :
  reachable py_float self →
  NoDup (modifications self).*1
  ∧ ∃ ks, (modifications self).*1 = "ptm" :: "sptm" :: ks.
Proof.
  apply (reachable_invariant py_float
           (λ s, NoDup (modifications s).*1
                 ∧ ∃ ks, (modifications s).*1 = "ptm" :: "sptm" :: ks)).
  - split; [|by exists []]. apply (bool_decide_unpack _). by vm_compute.
  - intros s mod_type [Hnd [ks Hks]]. unfold with_category.
    destruct (odict_get (modifications s) mod_type) eqn:E; [eauto|].
    simpl. split; [by apply odict_set_NoDup|].
    rewrite odict_set_keys, E, Hks. by eexists.
  - intros s mod_type modstring Hs.
    destruct (add_modstring py_float mod_type modstring s)
      as [s' [u|e]] eqn:E; simpl.
    + apply add_modstring_ok in E as (_ & _ & _ & _ & _ & _ & Hk & _).
      by rewrite Hk.
    + by apply add_modstring_raise in E as ->.
  - done.
  - done.
Qed.

Lemma last_definition_None (cats : list (string * gmap string (Mod F)))
    name :
  last_definition cats name = None
  ↔ ∀ c d, (c, d) ∈ cats → d !! name = None.
Proof.
  induction cats as [|[c0 d0] cats IH]; simpl.
  - split; [|done]. intros _ c d Hin. by apply elem_of_nil in Hin.
  - destruct (last_definition cats name) as [m|] eqn:E.
    + split; [done|]. intros Hall.
      assert (Some m = None) as Habs; [|done].
      apply IH. intros c d Hin. apply (Hall c d). by right.
    + split.
      * intros Hd0 c d [[= -> ->]|Hin]%elem_of_cons; [done|].
        by apply (proj1 IH eq_refl c d).
      * intros Hall. apply (Hall c0 d0). by left.
Qed.
End category_order.

(** C9, as the code has it: the caches are rebuilt from the categories in
    the order in which the registry holds them, [ptm] before [sptm], and a
    later category overwrites an earlier one.  When a name is defined in
    [ptm] and in [sptm] (and in no further category), a rebuilt cache maps it
    to the mass shift and to the id of the [sptm] definition, whichever of
    the two was registered last. *)
Theorem C9_later_category_wins
    {F : Type} (py_float : string → option F) (self : Modifications F)
    (name : string) (m_ptm m_sptm : Mod F) :
  reachable py_float self →
  cache_falsy (_mass_shifts self) = true →
  cache_falsy (_ptm_ids self) = true →
  lookup_mod self "ptm" name = Some m_ptm →
  lookup_mod self "sptm" name = Some m_sptm →
  (∀ c, c ≠ "ptm" → c ≠ "sptm" → lookup_mod self c name = None) →
  mass_shift_table self !! name = Some (mass_shift m_sptm)
  ∧ ptm_id_table self !! name = Some (mod_id m_sptm).
Proof.
  intros Hreach Hms Hids Hptm Hsptm Hother.
  destruct (reachable_categories py_float self Hreach) as [Hnd [ks Hks]].
  rewrite mass_shift_table_rebuilt, ptm_id_table_rebuilt by done.
  assert (last_definition (modifications self) name = Some m_sptm) as ->;
    [|done].
  unfold lookup_mod in *.
  destruct (modifications self) as [|[c1 d1] [|[c2 d2] rest]];
    try discriminate Hks.
  injection Hks as -> -> Hks. csimpl in *.
  assert (last_definition rest name = None) as ->; [|by rewrite Hsptm].
  apply last_definition_None. intros c d Hin.
  apply NoDup_cons in Hnd as [Hn1 Hnd]. apply NoDup_cons in Hnd as [Hn2 Hnd].
  assert (c ∈ rest.*1) as Hc.
  { apply list_elem_of_fmap. by exists (c, d). }
  assert (c ≠ "ptm") as Hc1.
  { intros ->. apply Hn1. by right. }
  assert (c ≠ "sptm") as Hc2 by (by intros ->).
  specialize (Hother c Hc1 Hc2).
  rewrite !decide_False in Hother by done.
  by rewrite (odict_get_elem_of rest c d Hnd Hin) in Hother.
Qed.

Lemma C9_witness :
  let s := (Runtime.add_from_ms2pip_modstrings ["X,2.5,opt,K"] "ptm"
              (Runtime.add_from_ms2pip_modstrings ["X,1.5,opt,M"] "sptm"
                 __init__).1).1 in
  mass_shift_table s !! "X" = Some 1.5%float
  ∧ ptm_id_table s !! "X" = Some 38.
Proof.
  intros s.
  apply (C9_later_category_wins Runtime.py_float s "X"
           {| mass_shift := 2.5%float; amino_acid := "K";
              amino_acid_id := 8; mod_id := 39 |}
           {| mass_shift := 1.5%float; amino_acid := "M";
              amino_acid_id := 9; mod_id := 38 |}).
  - apply reachable_add, reachable_add, reachable_init.
  - reflexivity.
  - reflexivity.
  - vm_compute. reflexivity.
  - vm_compute. reflexivity.
  - intros c H1 H2. unfold lookup_mod.
    set (cats := modifications s). vm_compute in cats. subst cats.
    simpl. by rewrite !decide_False by done.
Defined.

(** The design document lets the later registration win.  Here [X] is
    registered in [sptm] first and in [ptm] afterwards: the later definition
    has the mass shift 2.5 and the id 39, the lookups return 1.5 and 38. *)
Lemma C9_counterexample :
  let s := (Runtime.add_from_ms2pip_modstrings ["X,2.5,opt,K"] "ptm"
              (Runtime.add_from_ms2pip_modstrings ["X,1.5,opt,M"] "sptm"
                 __init__).1).1 in
  lookup_mod s "ptm" "X"
  = Some {| mass_shift := 2.5%float; amino_acid := "K";
            amino_acid_id := 8; mod_id := 39 |}
  ∧ mass_shift_table s !! "X" = Some 1.5%float
  ∧ ptm_id_table s !! "X" = Some 38
  ∧ ptm_id_table s !! "X" ≠ Some 39.
Proof.
  intros s. vm_compute. repeat split. discriminate.
Qed.

(** ** Precursor mass and m/z *)

Lemma mapM_getitem_first_missing {V} (d : gmap string V) pre k post :
  Forall (λ x, is_Some (d !! x)) pre → d !! k = None →
  mapM (dict_getitem d) (pre ++ k :: post) = Raise (KeyError k).
Proof.
  intros Hpre Hk. induction Hpre as [|x pre [v Hv] _ IH]; simpl.
  - unfold dict_getitem at 1. by rewrite Hk.
  - unfold dict_getitem at 1. rewrite Hv. simpl. by rewrite IH.
Qed.

Lemma mapM_getitem_all {V} (d : gmap string V) names vs :
  Forall2 (λ n v, d !! n = Some v) names vs →
  mapM (dict_getitem d) names = Ok vs.
Proof.
  induction 1 as [|n v names vs Hn _ IH]; simpl; [done|].
  unfold dict_getitem at 1. rewrite Hn. simpl. by rewrite IH.
Qed.

Section precursor.
Context {F : Type}.
Variable fast_mass : string → result F.
Variable fadd fmul fdiv : F → F → F.
Variable float_of_int : Z → option F.
Variable fsum : list F → F.
Variable PROTON_MASS : F.
Implicit Types (self : Modifications F).

(** Reading the property twice gives the same dict, and the second read
    leaves the object as it is. *)
Lemma mass_shifts_stable self :
  mass_shifts self = ((mass_shifts self).1, Ok (mass_shift_table self))
  ∧ mass_shifts (mass_shifts self).1
    = ((mass_shifts self).1, Ok (mass_shift_table self)).
Proof.
  unfold mass_shift_table. rewrite !mass_shifts_unfold.
  destruct (cache_falsy (_mass_shifts self)) eqn:E; simpl.
  - split; [done|]. destruct (bool_decide _); [|done]. simpl.
    unfold _all_modifications. simpl. done.
  - split; [done|]. by rewrite E.
Qed.

Lemma lookups_in_stable_state (s : Modifications F) table names :
  mass_shifts s = (s, Ok table) →
  smapM (λ name, d <~ mass_shifts ;; slift (dict_getitem d name)) names s
  = (s, mapM (dict_getitem table) names).
Proof.
  intros Hs. induction names as [|n names IH]; simpl; [done|].
  unfold sbind at 1. unfold sbind at 1. rewrite Hs. cbv beta iota.
  change (slift (dict_getitem table n) s) with (s, dict_getitem table n).
  destruct (dict_getitem table n) as [v|e]; cbv beta iota; [|done].
  unfold sbind at 1. rewrite IH.
  by destruct (mapM (dict_getitem table) names).
Qed.

Lemma lookups_result self names :
  (smapM (λ name, d <~ mass_shifts ;; slift (dict_getitem d name))
     names self).2
  = mapM (dict_getitem (mass_shift_table self)) names.
Proof.
  destruct (mass_shifts_stable self) as [H1 H2].
  destruct names as [|n names]; simpl; [done|].
  unfold sbind at 1. unfold sbind at 1. rewrite H1. cbv beta iota.
  change (slift (dict_getitem (mass_shift_table self) n)
            (mass_shifts self).1)
    with ((mass_shifts self).1, dict_getitem (mass_shift_table self) n).
  destruct (dict_getitem (mass_shift_table self) n) as [v|e];
    cbv beta iota; [|done].
  unfold sbind at 1. rewrite (lookups_in_stable_state _ _ _ H2).
  by destruct (mapM _ names).
Qed.

Lemma calc_precursor_mz_result self peptide modifications charge :
  (calc_precursor_mz fast_mass fadd fmul fdiv float_of_int fsum
     PROTON_MASS peptide modifications charge self).2
  = (unmodified_mass <- fast_mass peptide ;;
     shifts <- mapM (dict_getitem (mass_shift_table self))
                 (slice_odd (str_split "|" modifications)) ;;
     match float_of_int charge with
     | None => Raise (OverflowError "int too large to convert to float")
     | Some c =>
         if decide (charge = 0) then
           Raise (ZeroDivisionError "float division by zero")
         else
           let prec_mass := fadd unmodified_mass (fsum shifts) in
           Ok (prec_mass, fdiv (fadd prec_mass (fmul c PROTON_MASS)) c)
     end).
Proof.
  unfold calc_precursor_mz. unfold sbind at 1. unfold slift at 1.
  destruct (fast_mass peptide) as [m0|e]; simpl; [|done].
  pose proof (lookups_result self
                (slice_odd (str_split "|" modifications))) as Hl.
  unfold sbind at 1.
  destruct (smapM _ _ self) as [s' [shifts|e]]; simpl in Hl; rewrite <- Hl;
    simpl; [|done].
  destruct (float_of_int charge); [|done].
  by destruct (decide (charge = 0)).
Qed.
End precursor.

(** C8, as the code has it: [calc_precursor_mz] looks every modification
    name of the modification string up in the mass-shift lookup of the
    registry.  The first name that the lookup does not have makes the call
    fail with a [KeyError] carrying that name (and not with
    [UnknownModificationError]).  When the lookup has all of them and the
    charge is not zero, the call returns the mass
    [unmodified mass + sum of the shifts] and the m/z
    [(mass + charge * PROTON_MASS) / charge].  A lookup that is rebuilt lacks
    a name exactly when no category of the registry defines it. *)
Theorem C8_precursor_mz
    {F : Type} (fast_mass : string → result F) (fadd fmul fdiv : F → F → F)
    (float_of_int : Z → option F) (fsum : list F → F) (PROTON_MASS : F)
    (self : Modifications F) (peptide mods : string) (charge : Z)
    (unmodified_mass : F) :
  fast_mass peptide = Ok unmodified_mass →
  let names := slice_odd (str_split "|" mods) in
  let res := (calc_precursor_mz fast_mass fadd fmul fdiv float_of_int fsum
                PROTON_MASS peptide mods charge self).2 in
  (∀ pre name post,
     names = pre ++ name :: post →
     Forall (λ n, is_Some (mass_shift_table self !! n)) pre →
     mass_shift_table self !! name = None →
     res = Raise (KeyError name))
  ∧ (∀ shifts c,
       Forall2 (λ n x, mass_shift_table self !! n = Some x) names shifts →
       float_of_int charge = Some c →
       charge ≠ 0 →
       res = Ok (fadd unmodified_mass (fsum shifts),
                 fdiv (fadd (fadd unmodified_mass (fsum shifts))
                            (fmul c PROTON_MASS)) c))
  ∧ (cache_falsy (_mass_shifts self) = true →
     ∀ name, mass_shift_table self !! name = None
             ↔ ∀ c d, (c, d) ∈ modifications self → d !! name = None).
Proof.
  intros Hmass names res. subst res.
  rewrite calc_precursor_mz_result, Hmass. simpl. fold names.
  split; [|split].
  - intros pre name post -> Hpre Hname.
    by rewrite mapM_getitem_first_missing.
  - intros shifts c Hall Hc Hcharge.
    rewrite (mapM_getitem_all _ _ _ Hall). simpl. rewrite Hc.
    by rewrite decide_False.
  - intros Hfalsy name. rewrite mass_shift_table_rebuilt by done.
    rewrite fmap_None. apply last_definition_None.
Qed.

Lemma C8_witness :
  let self := (Runtime.add_from_ms2pip_modstrings
                 ["Oxidation,15.994915,opt,M"] "ptm" __init__).1 in
  ∃ m0 x,
    Runtime.fast_mass "ACDMK" = Ok m0
    ∧ mass_shift_table self !! "Oxidation" = Some x
    ∧ (Runtime.calc_precursor_mz "ACDMK" "4|Oxidation" 2 self).2
      = Ok (PrimFloat.add m0 (Runtime.fsum [x]),
            PrimFloat.div
              (PrimFloat.add (PrimFloat.add m0 (Runtime.fsum [x]))
                 (PrimFloat.mul 2 Runtime.PROTON_MASS)) 2).
Proof.
  intros self. eexists _, _.
  split; [vm_compute; reflexivity|].
  split; [vm_compute; reflexivity|].
  unfold Runtime.calc_precursor_mz.
  apply (proj1 (proj2 (C8_precursor_mz Runtime.fast_mass PrimFloat.add
            PrimFloat.mul PrimFloat.div Runtime.float_of_int Runtime.fsum
            Runtime.PROTON_MASS self "ACDMK" "4|Oxidation" 2 _
            ltac:(vm_compute; reflexivity)))).
  - repeat constructor.
  - reflexivity.
  - discriminate.
Defined.

(** The design document has the call fail with [UnknownModificationError];
    on a new registry and ["1|Oxidation"] the error is a [KeyError]. *)
Lemma C8_counterexample :
  (Runtime.calc_precursor_mz "ACDEK" "1|Oxidation" 2 __init__).2
  = Raise (KeyError "Oxidation")
  ∧ ¬ ∃ name,
        (Runtime.calc_precursor_mz "ACDEK" "1|Oxidation" 2 __init__).2
        = Raise (UnknownModificationError name).
Proof.
  split; [reflexivity|]. intros [name H]. vm_compute in H. discriminate H.
Qed.

(** ** Model files *)

Section model_file_facts.
Variable home : string.
Variable sha1_hexdigest : string → string.
Variable fs : filesystem.

(** Every way in which [check_model_integrity] ends. *)
Lemma check_model_integrity_outcomes filename :
  check_model_integrity sha1_hexdigest fs filename
    = Raise (IndexError "list index out of range")
  ∨ check_model_integrity sha1_hexdigest fs filename
    = Raise (OSError filename)
  ∨ check_model_integrity sha1_hexdigest fs filename
    = Raise (NameError "f").
Proof.
  unfold check_model_integrity, check_model_integrity_body, list_getitem,
    open_rb.
  destruct (str_rsplit1 "/" filename !! 1%nat); simpl; [|by left].
  destruct (file_bytes fs filename); simpl; [by right; right|by right; left].
Qed.

Lemma check_model_presence_outcomes model :
  check_model_presence home sha1_hexdigest fs model = Ok false
  ∨ ∃ e, check_model_presence home sha1_hexdigest fs model = Raise e
         ∧ e ≠ InvalidXGBoostModelError.
Proof.
  unfold check_model_presence.
  destruct (negb (isdir fs _)); [by left|].
  destruct (negb (isfile fs _)); [by left|]. right.
  destruct (check_model_integrity_outcomes
              (path_join (path_join home ".ms2pip") model))
    as [->|[->| ->]]; simpl; eauto.
Qed.
End model_file_facts.

(** C4: what the code does where the design document wants [InvalidModel].
    [check_model_integrity] reads the file through the name [f], which is
    bound nowhere: for every file that can be opened the call ends with
    [NameError] before a digest is computed, so it never returns and never
    raises [InvalidXGBoostModelError]; [check_model_presence] therefore never
    answers [True], and on a cache that holds a corrupted model file it
    raises [NameError].  With [f] bound to the opened file the body would
    raise [InvalidXGBoostModelError] on a digest mismatch, and [KeyError] for
    a file name without an expected hash. *)
Theorem C4_integrity_check_ends_in_NameError
    (home : string) (sha1_hexdigest : string → string) (fs : filesystem) :
  (∀ filename,
     (∀ b, check_model_integrity sha1_hexdigest fs filename ≠ Ok b)
     ∧ check_model_integrity sha1_hexdigest fs filename
       ≠ Raise InvalidXGBoostModelError)
  ∧ (∀ filename data,
       is_Some (str_rsplit1 "/" filename !! 1%nat) →
       file_bytes fs filename = Some data →
       check_model_integrity sha1_hexdigest fs filename
       = Raise (NameError "f"))
  ∧ (∀ model,
       check_model_presence home sha1_hexdigest fs model ≠ Ok true
       ∧ check_model_presence home sha1_hexdigest fs model
         ≠ Raise InvalidXGBoostModelError)
  ∧ check_model_presence "/home/user" sha1_hexdigest Runtime.corrupt_cache
      "model_20210416_HCD2021_B.xgboost"
    = Raise (NameError "f")
  ∧ (∀ filename model data expected,
       str_rsplit1 "/" filename !! 1%nat = Some model →
       file_bytes fs filename = Some data →
       MODEL_hashes !! model = Some expected →
       sha1_hexdigest data ≠ expected →
       check_model_integrity_body sha1_hexdigest fs (Some data) filename
       = Raise InvalidXGBoostModelError)
  ∧ (∀ filename model data,
       str_rsplit1 "/" filename !! 1%nat = Some model →
       file_bytes fs filename = Some data →
       MODEL_hashes !! model = None →
       check_model_integrity_body sha1_hexdigest fs (Some data) filename
       = Raise (KeyError model)).
Proof.
  split; [|split; [|split; [|split; [|split]]]].
  - intros filename.
    destruct (check_model_integrity_outcomes sha1_hexdigest fs filename)
      as [->|[->| ->]]; by split.
  - intros filename data [model Hm] Hd.
    unfold check_model_integrity, check_model_integrity_body, list_getitem,
      open_rb. by rewrite Hm, Hd.
  - intros model.
    destruct (check_model_presence_outcomes home sha1_hexdigest fs model)
      as [->|(e & -> & He)]; split; congruence.
  - reflexivity.
  - intros filename model data expected Hm Hd He Hne.
    unfold check_model_integrity_body, list_getitem, open_rb, dict_getitem.
    rewrite Hm, Hd. simpl. rewrite He. simpl.
    by rewrite bool_decide_eq_true_2.
  - intros filename model data Hm Hd He.
    unfold check_model_integrity_body, list_getitem, open_rb, dict_getitem.
    rewrite Hm, Hd. simpl. by rewrite He.
Qed.

(** * Further properties of the code *)

(** ** The encoder: validity and decoding *)

Lemma encode_peptide_Ok_inv peptide arr :
  encode_peptide peptide = Ok arr →
  (4 ≤ String.length peptide ≤ 100)%nat
  ∧ ∃ ids, mapM (dict_getitem AMINO_ACID_IDS) (str_iter (folded peptide))
           = Ok ids
           ∧ arr = np_array_uint16 ([0] ++ ids ++ [0]).
Proof.
  unfold encode_peptide. fold (folded peptide). rewrite folded_length.
  destruct (Nat.ltb_spec 100 (String.length peptide)); [done|].
  destruct (Nat.ltb_spec (String.length peptide) 4); [done|].
  destruct (mapM _ _) as [ids|e] eqn:E; simpl.
  - intros [= <-]. split; [lia|]. by exists ids.
  - by destruct e.
Qed.

Lemma mapM_getitem_Ok_inv {V} (d : gmap string V) (l : list string) vs :
  mapM (dict_getitem d) l = Ok vs → Forall2 (λ x v, d !! x = Some v) l vs.
Proof.
  revert vs. induction l as [|x l IH]; intros vs; simpl.
  - intros [= <-]. constructor.
  - unfold dict_getitem at 1. destruct (d !! x) as [v|] eqn:E; [|done].
    simpl. destruct (mapM (dict_getitem d) l) as [vs'|]; [|done].
    simpl. intros [= <-]. constructor; [done|]. by apply IH.
Qed.

Lemma decode_ids_of_residues (s : string) : ∀ ids,
  Forall2 (λ x v, AMINO_ACID_IDS !! x = Some v) (str_iter s) ids →
  decode_ids ids = Some s.
Proof.
  induction s as [|c s IH]; intros ids H; simpl in H.
  - by apply Forall2_nil_inv_l in H as ->.
  - apply Forall2_cons_inv_l in H as (v & ids' & Hv & Hids & ->).
    destruct (amino_acid_ids_are_indices _ _ Hv) as [[H0 _] Hidx].
    simpl. destruct (Z.ltb_spec v 0); [lia|].
    rewrite Hidx. simpl. by rewrite (IH _ Hids).
Qed.

(** X1: on ASCII text [encode_peptide] returns an encoding exactly for the
    peptides whose upper-cased, folded form has 4 to 100 characters, all of
    them in the table; every other ASCII input raises.  On ASCII text that
    form has as many characters as the input. *)
Theorem X1_encode_succeeds_iff_valid (peptide : string) :
  ascii_text peptide →
  ((∃ arr, encode_peptide peptide = Ok arr)
   ↔ (4 ≤ String.length (folded peptide) ≤ 100)%nat
     ∧ Forall (λ x, x ∈ AMINO_ACIDS) (str_iter (folded peptide)))
  ∧ String.length (folded peptide) = String.length peptide.
Proof.
  intros Hascii. split; [|by apply ascii_folded_length].
  rewrite encode_peptide_on_folded.
  destruct (Nat.ltb_spec 100 (String.length (folded peptide))).
  { split; [by intros [arr ?] | intros [? _]; lia]. }
  destruct (Nat.ltb_spec (String.length (folded peptide)) 4).
  { split; [by intros [arr ?] | intros [? _]; lia]. }
  split.
  - intros [arr Harr]. split; [lia|].
    destruct (mapM _ _) as [ids|e] eqn:Hids; [|by destruct e].
    apply mapM_getitem_Ok_inv in Hids.
    apply Forall_forall. intros x Hx.
    apply list_elem_of_lookup in Hx as [i Hi].
    destruct (Forall2_lookup_l _ _ _ _ _ Hids Hi) as (v & _ & Hv).
    by eapply amino_acid_ids_listed.
  - intros [_ Hall].
    destruct (mapM_getitem_Ok AMINO_ACID_IDS (str_iter (folded peptide)))
      as (ids & -> & _); [|by eexists].
    eapply Forall_impl; [exact Hall|]. apply amino_acids_have_ids.
Qed.

Lemma X1_witness :
  ((∃ arr, encode_peptide "acdLK" = Ok arr)
   ↔ (4 ≤ String.length (folded "acdLK") ≤ 100)%nat
     ∧ Forall (λ x, x ∈ AMINO_ACIDS) (str_iter (folded "acdLK")))
  ∧ String.length (folded "acdLK") = String.length "acdLK".
Proof.
  apply (X1_encode_succeeds_iff_valid "acdLK"). reflexivity.
Defined.

(** X2: an encoding determines the folded peptide.  Reading the residues of
    the ids between the two terminal slots gives back the upper-cased,
    [L]-to-[I]-folded peptide, so two peptides with the same encoding differ
    at most in case and in [L] against [I]. *)
Theorem X2_encoding_decodes_to_folded_peptide (peptide : string) arr :
  encode_peptide peptide = Ok arr →
  decode_peptide arr = Some (folded peptide)
  ∧ ∀ peptide', encode_peptide peptide' = Ok arr →
                folded peptide' = folded peptide.
Proof.
  assert (∀ p a, encode_peptide p = Ok a →
                 decode_peptide a = Some (folded p)) as Hdec.
  { intros p a Ha.
    apply encode_peptide_Ok_inv in Ha as [_ (ids & Hids & ->)].
    apply mapM_getitem_Ok_inv in Hids.
    assert (np_array_uint16 ([0] ++ ids ++ [0]) = 0 :: ids ++ [0]) as ->.
    { unfold np_array_uint16. simpl. f_equal. rewrite fmap_app. f_equal.
      induction Hids as [|x v xs ids Hv _ IH]; [done|].
      csimpl. rewrite IH. f_equal.
      apply amino_acid_ids_are_indices in Hv as [Hv _].
      apply uint16_small. lia. }
    unfold decode_peptide.
    replace (Nat.sub (length (0 :: ids ++ [0])) 2) with (length ids)
      by (simpl; rewrite length_app; simpl; lia).
    change (drop 1 (0 :: ids ++ [0])) with (ids ++ [0]).
    rewrite take_app_length. by apply decode_ids_of_residues. }
  intros Harr. split; [by apply Hdec|].
  intros p' Hp'. apply Hdec in Harr, Hp'. congruence.
Qed.

Lemma X2_witness :
  decode_peptide [0; 0; 1; 2; 7; 8; 0] = Some (folded "acdLK")
  ∧ ∀ peptide', encode_peptide peptide' = Ok [0; 0; 1; 2; 7; 8; 0] →
                folded peptide' = folded "acdLK".
Proof.
  apply (X2_encoding_decodes_to_folded_peptide "acdLK"). reflexivity.
Defined.

(** ** The registry: targets, composition of calls, replaced definitions *)

Section registry_more.
Context {F : Type} (py_float : string → option F).
Implicit Types (self : Modifications F).

Lemma resolve_amino_acid_range target i :
  resolve_amino_acid target = Ok i → -2 ≤ i ≤ 18.
Proof.
  unfold resolve_amino_acid.
  destruct (decide (target = "N-term")); [intros [= <-]; lia|].
  destruct (decide (target = "C-term")); [intros [= <-]; lia|].
  destruct (decide (target = "L")).
  { change (dict_getitem AMINO_ACID_IDS "I") with (Ok (A:=Z) 7).
    intros [= <-]. lia. }
  destruct (AMINO_ACID_IDS !! target) as [j|] eqn:E; [|done].
  intros [= <-]. apply amino_acid_ids_are_indices in E as [E _]. lia.
Qed.

(** A stored entry, with what it was parsed from. *)
Lemma add_modstring_stores mod_type modstring self self' u :
  add_modstring py_float mod_type modstring self = (self', Ok u) →
  ∃ name shift opt target target_id x,
    unpack4 (str_split "," modstring) = Ok (name, shift, opt, target)
    ∧ resolve_amino_acid target = Ok target_id
    ∧ py_float shift = Some x
    ∧ ∀ c n, lookup_mod self' c n
             = if decide (c = mod_type ∧ n = name)
               then Some {| mass_shift := x; amino_acid := target;
                            amino_acid_id := target_id;
                            mod_id := _next_mod_id self |}
               else lookup_mod self c n.
Proof.
  rewrite add_modstring_unfold.
  destruct (unpack4 _) as [[[[name shift] opt] target]|e'] eqn:Eu;
    [|congruence].
  destruct (resolve_amino_acid target) as [target_id|] eqn:Er; [|congruence].
  unfold float_. destruct (py_float shift) as [x|] eqn:Ex; [|congruence].
  destruct (odict_get (modifications self) mod_type) as [category|] eqn:Ec;
    [|congruence].
  intros [= <- _]. exists name, shift, opt, target, target_id, x.
  split; [done|]. split; [done|]. split; [done|].
  intros c n. unfold lookup_mod. simpl. rewrite odict_get_set.
  destruct (decide (c = mod_type)) as [->|Hc]; simpl.
  - rewrite Ec. simpl. destruct (decide (n = name)) as [->|Hn].
    + rewrite decide_True by done. by rewrite lookup_insert_eq.
    + rewrite decide_False by (by intros [_ ?]).
      by rewrite lookup_insert_ne.
  - by rewrite decide_False by (by intros [? _]).
Qed.

Lemma reachable_targets_resolved self :
  reachable py_float self →
  ∀ c n m, lookup_mod self c n = Some m →
    resolve_amino_acid (amino_acid m) = Ok (amino_acid_id m).
Proof.
  apply (reachable_invariant py_float
           (λ s, ∀ c n m, lookup_mod s c n = Some m →
                   resolve_amino_acid (amino_acid m) = Ok (amino_acid_id m))).
  - intros c n m. unfold lookup_mod. simpl.
    repeat (case_decide; simpl; [by rewrite lookup_empty|]). done.
  - intros s mod_type Hs c n m. rewrite lookup_mod_with_category. apply Hs.
  - intros s mod_type modstring Hs c n m.
    destruct (add_modstring py_float mod_type modstring s)
      as [s' [u|e]] eqn:E; simpl.
    + apply add_modstring_stores in E
        as (name & shift & opt & target & tid & x & _ & Hres & _ & Hlook).
      rewrite Hlook. destruct (decide _); [by intros [= <-]|apply Hs].
    + apply add_modstring_raise in E as ->. apply Hs.
  - done.
  - done.
Qed.
End registry_more.

(** X3: in every state of a registry object the target id stored with a
    definition is the one its target resolves to: -1 for [N-term], -2 for
    [C-term], the table id of the residue otherwise, with [L] given the id
    of [I]; it lies between -2 and 18.  A target that does not resolve is
    rejected with [InvalidAminoAcidError] carrying the target. *)
Theorem X3_stored_targets_are_resolved
    {F : Type} (py_float : string → option F) (self : Modifications F) :
  reachable py_float self →
  (∀ c n m, lookup_mod self c n = Some m →
     resolve_amino_acid (amino_acid m) = Ok (amino_acid_id m)
     ∧ -2 ≤ amino_acid_id m ≤ 18)
  ∧ resolve_amino_acid "N-term" = Ok (-1)
  ∧ resolve_amino_acid "C-term" = Ok (-2)
  ∧ resolve_amino_acid "L" = resolve_amino_acid "I"
  ∧ (∀ target i, resolve_amino_acid target = Ok i → 0 ≤ i →
       AMINO_ACIDS !! Z.to_nat i
       = Some (if decide (target = "L") then "I" else target))
  ∧ (∀ target e, resolve_amino_acid target = Raise e →
       e = InvalidAminoAcidError target).
Proof.
  intros Hreach. split; [|split; [done|split; [done|split; [done|split]]]].
  - intros c n m Hm.
    pose proof (reachable_targets_resolved py_float self Hreach c n m Hm).
    split; [done|]. by eapply resolve_amino_acid_range.
  - intros target i. unfold resolve_amino_acid.
    destruct (decide (target = "N-term")); [intros [= <-]; lia|].
    destruct (decide (target = "C-term")); [intros [= <-]; lia|].
    destruct (decide (target = "L")).
    { change (dict_getitem AMINO_ACID_IDS "I") with (Ok (A:=Z) 7).
      by intros [= <-]. }
    destruct (AMINO_ACID_IDS !! target) as [j|] eqn:E; [|done].
    intros [= <-] _. by apply amino_acid_ids_are_indices in E as [_ E].
  - intros target e. unfold resolve_amino_acid.
    destruct (decide (target = "N-term")); [done|].
    destruct (decide (target = "C-term")); [done|].
    destruct (decide (target = "L")); [done|].
    destruct (AMINO_ACID_IDS !! target); [done|]. by intros [= <-].
Qed.

Lemma X3_witness :
  let self := (Runtime.add_from_ms2pip_modstrings
                 ["Oxidation,15.994915,opt,M"; "Acetyl,42.010565,opt,N-term"]
                 "ptm" __init__).1 in
  (∀ c n m, lookup_mod self c n = Some m →
     resolve_amino_acid (amino_acid m) = Ok (amino_acid_id m)
     ∧ -2 ≤ amino_acid_id m ≤ 18)
  ∧ resolve_amino_acid "N-term" = Ok (-1)
  ∧ resolve_amino_acid "C-term" = Ok (-2)
  ∧ resolve_amino_acid "L" = resolve_amino_acid "I"
  ∧ (∀ target i, resolve_amino_acid target = Ok i → 0 ≤ i →
       AMINO_ACIDS !! Z.to_nat i
       = Some (if decide (target = "L") then "I" else target))
  ∧ (∀ target e, resolve_amino_acid target = Raise e →
       e = InvalidAminoAcidError target).
Proof.
  intros self.
  apply (X3_stored_targets_are_resolved Runtime.py_float self
           (reachable_add _ _ _ _ (reachable_init _))).
Defined.

Lemma for_app {S A} (l1 l2 : list A) (body : A → SE S unit) (s : S) :
  for_ (l1 ++ l2) body s
  = match for_ l1 body s with
    | (s1, Ok _) => for_ l2 body s1
    | (s1, Raise e) => (s1, Raise e)
    end.
Proof.
  revert s. induction l1 as [|x l1 IH]; intros s; simpl; [done|].
  unfold sbind. destruct (body x s) as [s' [[]|e]]; [apply IH | done].
Qed.

Section registry_composition.
Context {F : Type} (py_float : string → option F).
Implicit Types (self : Modifications F).

(** The mass-shift cache plays no role in the registration loop. *)
Lemma add_modstring_set_mass_shifts mod_type modstring self v :
  add_modstring py_float mod_type modstring (set_mass_shifts self v)
  = (set_mass_shifts
       (add_modstring py_float mod_type modstring self).1 v,
     (add_modstring py_float mod_type modstring self).2).
Proof.
  rewrite !add_modstring_unfold.
  destruct (unpack4 _) as [[[[name shift] opt] target]|e]; [|done].
  destruct (resolve_amino_acid target); [|done].
  destruct (float_ py_float shift); [|done]. simpl.
  by destruct (odict_get (modifications self) mod_type).
Qed.

Lemma registration_loop_set_mass_shifts mod_type modstrings : ∀ self v,
  for_ modstrings (add_modstring py_float mod_type) (set_mass_shifts self v)
  = (set_mass_shifts
       (for_ modstrings (add_modstring py_float mod_type) self).1 v,
     (for_ modstrings (add_modstring py_float mod_type) self).2).
Proof.
  induction modstrings as [|m ms IH]; intros self v; simpl; [done|].
  unfold sbind. rewrite add_modstring_set_mass_shifts.
  destruct (add_modstring py_float mod_type m self) as [s1 [[]|e]]; simpl;
    [apply IH | done].
Qed.

Lemma registration_loop_keeps_category mod_type modstrings self :
  is_Some (odict_get (modifications self) mod_type) →
  is_Some (odict_get
             (modifications
                (for_ modstrings (add_modstring py_float mod_type) self).1)
             mod_type).
Proof.
  apply (for_preserves
           (λ s, is_Some (odict_get (modifications s) mod_type))).
  intros m s Hs.
  destruct (add_modstring py_float mod_type m s) as [s' [u|e]] eqn:E; simpl.
  - apply add_modstring_ok in E as (_ & _ & _ & _ & _ & _ & Hk & _).
    destruct (odict_get (modifications s') mod_type) eqn:E'; [eauto|].
    apply odict_get_None in E'. rewrite Hk in E'.
    apply odict_get_None in E'. rewrite E' in Hs. by destruct Hs.
  - by apply add_modstring_raise in E as ->.
Qed.

Lemma with_category_has_category self mod_type :
  is_Some (odict_get (modifications (with_category self mod_type)) mod_type).
Proof.
  unfold with_category.
  destruct (odict_get (modifications self) mod_type) eqn:E; [by rewrite E|].
  simpl. rewrite odict_get_set. rewrite decide_True by done. eauto.
Qed.

Lemma with_category_present self mod_type :
  is_Some (odict_get (modifications self) mod_type) →
  with_category self mod_type = self.
Proof. intros [d Hd]. unfold with_category. by rewrite Hd. Qed.

(** The state in which a completed call leaves the registry, and the state
    in which the loop of a second call starts from it. *)
Lemma add_completed modstrings mod_type self :
  (add_from_ms2pip_modstrings py_float modstrings mod_type self).2 = Ok tt →
  ∃ s1,
    for_ modstrings (add_modstring py_float mod_type)
      (with_category self mod_type) = (s1, Ok tt)
    ∧ (add_from_ms2pip_modstrings py_float modstrings mod_type self).1
      = set_mass_shifts s1 None
    ∧ with_category (set_mass_shifts s1 None) mod_type
      = set_mass_shifts s1 None.
Proof.
  rewrite add_from_ms2pip_modstrings_unfold.
  pose proof (registration_loop_keeps_category mod_type modstrings
                (with_category self mod_type)
                (with_category_has_category self mod_type)) as Hcat.
  destruct (for_ _ _ _) as [s1 [[]|e]]; simpl in *; [|done].
  intros _. exists s1. split; [done|]. split; [done|].
  by apply with_category_present.
Qed.
End registry_composition.

(** X4: registering a list of entries in one call and registering it in two
    consecutive calls, split anywhere, leave the registry in the same state
    when the calls complete: same definitions, same ids, same counter, same
    caches. *)
Theorem X4_registration_splits_into_calls
    {F : Type} (py_float : string → option F) (self : Modifications F)
    (modstrings1 modstrings2 : list string) (mod_type : string) :
  (add_from_ms2pip_modstrings py_float modstrings1 mod_type self).2
    = Ok tt →
  (add_from_ms2pip_modstrings py_float modstrings2 mod_type
     (add_from_ms2pip_modstrings py_float modstrings1 mod_type self).1).2
    = Ok tt →
  add_from_ms2pip_modstrings py_float (modstrings1 ++ modstrings2)
    mod_type self
  = add_from_ms2pip_modstrings py_float modstrings2 mod_type
      (add_from_ms2pip_modstrings py_float modstrings1 mod_type self).1.
Proof.
  intros H1 H2.
  destruct (add_completed py_float _ _ _ H1) as (s1 & Hloop1 & Hs1 & Hcat).
  rewrite Hs1 in *. revert H2.
  rewrite (add_from_ms2pip_modstrings_unfold py_float (_ ++ _)).
  rewrite (add_from_ms2pip_modstrings_unfold py_float modstrings2).
  rewrite Hcat, for_app, Hloop1, registration_loop_set_mass_shifts.
  destruct (for_ modstrings2 _ s1) as [s2 [[]|e]]; simpl; [|done].
  intros _. by destruct s2.
Qed.

(** X5: a registration call that fails is not rolled back.  When the entries
    before the first malformed one register, the failed call leaves their
    definitions and ids in the registry and the counter advanced by their
    number, exactly as a call with those entries alone would; but it raises
    the error of the malformed entry and leaves the mass-shift cache as it
    was before the call. *)
Theorem X5_failed_registration_keeps_earlier_entries
    {F : Type} (py_float : string → option F) (self : Modifications F)
    (good rest : list string) (bad mod_type : string) (e : exn) :
  (add_from_ms2pip_modstrings py_float good mod_type self).2 = Ok tt →
  (add_modstring py_float mod_type bad
     (add_from_ms2pip_modstrings py_float good mod_type self).1).2
    = Raise e →
  let res := add_from_ms2pip_modstrings py_float (good ++ bad :: rest)
               mod_type self in
  res.2 = Raise e
  ∧ modifications res.1
    = modifications
        (add_from_ms2pip_modstrings py_float good mod_type self).1
  ∧ _next_mod_id res.1 = _next_mod_id self + Z.of_nat (length good)
  ∧ _mass_shifts res.1 = _mass_shifts self
  ∧ _ptm_ids res.1 = _ptm_ids self.
Proof.
  intros H1 H2 res.
  destruct (add_from_ms2pip_modstrings_effects py_float good mod_type self)
    as (_ & Hcount & _ & _ & _ & _). specialize (Hcount H1).
  destruct (add_completed py_float _ _ _ H1) as (s1 & Hloop1 & Hs1 & _).
  rewrite Hs1 in *. rewrite add_modstring_set_mass_shifts in H2.
  simpl in H2, Hcount.
  destruct (registration_loop_effects py_float mod_type good
              (with_category self mod_type)) as (_ & _ & Hms & Hids & _).
  rewrite Hloop1 in Hms, Hids. simpl in Hms, Hids.
  assert (_mass_shifts (with_category self mod_type) = _mass_shifts self
          ∧ _ptm_ids (with_category self mod_type) = _ptm_ids self)
    as [Hms0 Hids0].
  { unfold with_category. by destruct (odict_get _ _). }
  subst res. rewrite add_from_ms2pip_modstrings_unfold, for_app, Hloop1.
  simpl. unfold sbind.
  destruct (add_modstring py_float mod_type bad s1) as [s2 [u|e']] eqn:E;
    simpl in H2; [done|]. injection H2 as ->.
  apply add_modstring_raise in E as ->. simpl.
  split; [done|]. split; [done|]. split; [done|]. split; congruence.
Qed.

Lemma X4_witness :
  Runtime.add_from_ms2pip_modstrings
    (["Oxidation,15.994915,opt,M"] ++ ["Acetyl,42.010565,opt,N-term"])
    "ptm" __init__
  = Runtime.add_from_ms2pip_modstrings ["Acetyl,42.010565,opt,N-term"] "ptm"
      (Runtime.add_from_ms2pip_modstrings ["Oxidation,15.994915,opt,M"]
         "ptm" __init__).1.
Proof.
  apply (X4_registration_splits_into_calls Runtime.py_float __init__
           ["Oxidation,15.994915,opt,M"] ["Acetyl,42.010565,opt,N-term"]
           "ptm"); reflexivity.
Defined.

Lemma X5_witness :
  let res := Runtime.add_from_ms2pip_modstrings
               (["Oxidation,15.994915,opt,M"]
                  ++ "Broken,1.5,opt,B" :: ["Acetyl,42.010565,opt,N-term"])
               "ptm" __init__ in
  res.2 = Raise (InvalidAminoAcidError "B")
  ∧ modifications res.1
    = modifications
        (Runtime.add_from_ms2pip_modstrings ["Oxidation,15.994915,opt,M"]
           "ptm" __init__).1
  ∧ _next_mod_id res.1 = 38 + Z.of_nat (length ["Oxidation,15.994915,opt,M"])
  ∧ _mass_shifts res.1 = None
  ∧ _ptm_ids res.1 = None.
Proof.
  apply (X5_failed_registration_keeps_earlier_entries Runtime.py_float
           __init__ ["Oxidation,15.994915,opt,M"]
           ["Acetyl,42.010565,opt,N-term"] "Broken,1.5,opt,B" "ptm"
           (InvalidAminoAcidError "B")); reflexivity.
Defined.

(** X6: registering an entry under a name that its category already defines
    replaces the definition and gives it the current counter value as its
    id; the id of the replaced definition is retired: no definition of the
    registry carries it afterwards. *)
Theorem X6_replaced_definition_retires_its_id
    {F : Type} (py_float : string → option F) (self self' : Modifications F)
    (mod_type modstring name shift opt target : string) (m_old : Mod F) :
  reachable py_float self →
  unpack4 (str_split "," modstring) = Ok (name, shift, opt, target) →
  lookup_mod self mod_type name = Some m_old →
  add_modstring py_float mod_type modstring self = (self', Ok tt) →
  (∃ m_new, lookup_mod self' mod_type name = Some m_new
            ∧ mod_id m_new = _next_mod_id self
            ∧ mod_id m_old < mod_id m_new)
  ∧ ∀ c n m, lookup_mod self' c n = Some m → mod_id m ≠ mod_id m_old.
Proof.
  intros Hreach Hparse Hold Hadd.
  destruct (reachable_ids_unique py_float self Hreach)
    as (_ & Hrange & Hinj).
  apply add_modstring_stores in Hadd
    as (name' & shift' & opt' & target' & tid & x & Hparse' & _ & _ & Hlook).
  rewrite Hparse in Hparse'. injection Hparse' as <- <- <- <-.
  pose proof (Hrange _ _ _ Hold) as Hold_range.
  split.
  - eexists. rewrite Hlook, decide_True by done.
    split; [done|]. simpl. split; [done | lia].
  - intros c n m. rewrite Hlook.
    destruct (decide (c = mod_type ∧ n = name)) as [[-> ->]|Hne].
    + intros [= <-]. simpl. lia.
    + intros Hm Heq. destruct (Hinj _ _ _ _ _ _ Hm Hold Heq) as [-> ->].
      by apply Hne.
Qed.

Lemma X6_witness :
  let self := (Runtime.add_from_ms2pip_modstrings
                 ["Oxidation,15.994915,opt,M"] "ptm" __init__).1 in
  let self' := (add_modstring Runtime.py_float "ptm"
                  "Oxidation,15.9949,opt,M" self).1 in
  (∃ m_new, lookup_mod self' "ptm" "Oxidation" = Some m_new
            ∧ mod_id m_new = 39
            ∧ 38 < mod_id m_new)
  ∧ ∀ c n m, lookup_mod self' c n = Some m → mod_id m ≠ 38.
Proof.
  intros self self'.
  apply (X6_replaced_definition_retires_its_id Runtime.py_float self self'
           "ptm" "Oxidation,15.9949,opt,M" "Oxidation" "15.9949" "opt" "M"
           {| mass_shift := 0x1.ffd657fb69985p+3%float; amino_acid := "M";
              amino_acid_id := 9; mod_id := 38 |}).
  - apply reachable_add, reachable_init.
  - reflexivity.
  - vm_compute. reflexivity.
  - vm_compute. reflexivity.
Defined.

Section lookup_round_trip.
Context {F : Type}.
Implicit Types (cats : list (string * gmap string (Mod F))).

(** A name that only one category defines. *)
Lemma last_definition_single_category cats t name m :
  NoDup cats.*1 →
  odict_get cats t ≫= (.!! name) = Some m →
  (∀ c, c ≠ t → odict_get cats c ≫= (.!! name) = None) →
  last_definition cats name = Some m.
Proof.
  induction cats as [|[c0 d0] cats IH]; intros Hnd Ht Hother; [done|].
  csimpl in *. apply NoDup_cons in Hnd as [Hc0 Hnd].
  assert (∀ c d, (c, d) ∈ cats → c ≠ c0) as Hne.
  { intros c d Hin ->. apply Hc0. apply list_elem_of_fmap. by exists (c0, d). }
  destruct (decide (t = c0)) as [->|Htc].
  - simpl in Ht.
    assert (last_definition cats name = None) as ->; [|done].
    apply last_definition_None. intros c d Hin.
    specialize (Hother c (Hne c d Hin)).
    rewrite decide_False in Hother by (by eapply Hne).
    by rewrite (odict_get_elem_of cats c d Hnd Hin) in Hother.
  - rewrite IH; [done | done | done |].
    intros c Hc. destruct (decide (c = c0)) as [->|Hcc].
    + apply odict_get_None in Hc0. by rewrite Hc0.
    + specialize (Hother c Hc). by rewrite decide_False in Hother.
Qed.
End lookup_round_trip.

(** X7: registration followed by lookup.  After a call that registers one
    entry [name,shift,flag,target] in a category, when no other category
    defines the name, the mass-shift lookup maps the name to [float(shift)]
    whatever the caches held before, and an id lookup that is rebuilt maps
    it to the counter value at the time of the call. *)
Theorem X7_registered_entry_is_looked_up
    {F : Type} (py_float : string → option F) (self : Modifications F)
    (mod_type modstring name shift opt target : string) (x : F) :
  reachable py_float self →
  unpack4 (str_split "," modstring) = Ok (name, shift, opt, target) →
  py_float shift = Some x →
  (∀ c, c ≠ mod_type → lookup_mod self c name = None) →
  let res := add_from_ms2pip_modstrings py_float [modstring] mod_type self in
  res.2 = Ok tt →
  mass_shift_table res.1 !! name = Some x
  ∧ (cache_falsy (_ptm_ids self) = true →
     ptm_id_table res.1 !! name = Some (_next_mod_id self)).
Proof.
  intros Hreach Hparse Hx Hother res Hok.
  assert (reachable py_float res.1) as Hreach' by (by constructor).
  destruct (reachable_categories py_float _ Hreach') as [Hnd _].
  destruct (add_from_ms2pip_modstrings_effects py_float [modstring]
              mod_type self) as (_ & _ & Hms & _ & Hids & _).
  fold res in Hms, Hids. specialize (Hms Hok).
  assert (∃ tid,
            lookup_mod res.1 mod_type name
            = Some {| mass_shift := x; amino_acid := target;
                      amino_acid_id := tid; mod_id := _next_mod_id self |}
            ∧ ∀ c, c ≠ mod_type → lookup_mod res.1 c name = None)
    as (tid & Hnew & Hother').
  { subst res. revert Hok. rewrite add_from_ms2pip_modstrings_unfold.
    simpl for_. unfold sbind.
    destruct (add_modstring py_float mod_type modstring
                (with_category self mod_type)) as [s1 [[]|e]] eqn:E;
      simpl; [|done]. intros _.
    apply add_modstring_stores in E
      as (n' & s' & o' & t' & tid & x' & Hp & _ & Hx' & Hlook).
    rewrite Hparse in Hp. injection Hp as <- <- <- <-.
    rewrite Hx in Hx'. injection Hx' as <-.
    assert (_next_mod_id (with_category self mod_type) = _next_mod_id self)
      as Hn by (unfold with_category; by destruct (odict_get _ _)).
    rewrite Hn in Hlook. exists tid.
    assert (∀ c n, lookup_mod (set_mass_shifts s1 None) c n
                   = lookup_mod s1 c n) as Hsame by done.
    split.
    - rewrite Hsame, Hlook. by rewrite decide_True.
    - intros c Hc. rewrite Hsame, Hlook.
      rewrite decide_False by (by intros [? _]).
      rewrite lookup_mod_with_category. by apply Hother. }
  assert (last_definition (modifications res.1) name
          = Some {| mass_shift := x; amino_acid := target;
                    amino_acid_id := tid; mod_id := _next_mod_id self |})
    as Hlast.
  { by apply (last_definition_single_category _ mod_type). }
  split.
  - rewrite mass_shift_table_rebuilt by (by rewrite Hms).
    by rewrite Hlast.
  - intros Hfalsy. rewrite ptm_id_table_rebuilt by (by rewrite Hids).
    by rewrite Hlast.
Qed.

Lemma X7_witness :
  let res := Runtime.add_from_ms2pip_modstrings
               ["Oxidation,15.994915,opt,M"] "ptm" __init__ in
  mass_shift_table res.1 !! "Oxidation" = Some 0x1.ffd657fb69985p+3%float
  ∧ (cache_falsy (_ptm_ids (__init__ : Modifications float)) = true →
     ptm_id_table res.1 !! "Oxidation" = Some 38).
Proof.
  apply (X7_registered_entry_is_looked_up Runtime.py_float __init__
           "ptm" "Oxidation,15.994915,opt,M" "Oxidation" "15.994915"
           "opt" "M").
  - apply reachable_init.
  - reflexivity.
  - reflexivity.
  - intros c Hc. unfold lookup_mod. simpl.
    repeat (case_decide; simpl; [by rewrite lookup_empty|]). done.
  - reflexivity.
Defined.

(** ** Reading the registry *)

Lemma smapM_preserves {S A B} (P : S → Prop) (f : A → SE S B) (l : list A) :
  (∀ x s, P s → P (f x s).1) → ∀ s, P s → P (smapM f l s).1.
Proof.
  intros Hf. induction l as [|x l IH]; intros s Hs; simpl; [done|].
  apply sbind_preserves; [by apply Hf|]. intros y s1 Hs1.
  apply sbind_preserves; [by apply IH|]. done.
Qed.

Section registry_reads.
Context {F : Type}.
Implicit Types (self : Modifications F).

Lemma ptm_ids_stable self :
  ptm_ids self = ((ptm_ids self).1, Ok (ptm_id_table self))
  ∧ ptm_ids (ptm_ids self).1 = ((ptm_ids self).1, Ok (ptm_id_table self)).
Proof.
  unfold ptm_id_table. rewrite !ptm_ids_unfold.
  destruct (cache_falsy (_ptm_ids self)) eqn:E; simpl.
  - split; [done|]. destruct (bool_decide _); [|done]. simpl.
    unfold _all_modifications. simpl. done.
  - split; [done|]. by rewrite E.
Qed.

Lemma mass_shifts_content self :
  modifications (mass_shifts self).1 = modifications self
  ∧ _next_mod_id (mass_shifts self).1 = _next_mod_id self
  ∧ _ptm_ids (mass_shifts self).1 = _ptm_ids self.
Proof.
  rewrite mass_shifts_unfold. by destruct (cache_falsy _).
Qed.

Lemma ptm_ids_content self :
  modifications (ptm_ids self).1 = modifications self
  ∧ _next_mod_id (ptm_ids self).1 = _next_mod_id self
  ∧ _mass_shifts (ptm_ids self).1 = _mass_shifts self.
Proof.
  rewrite ptm_ids_unfold. by destruct (cache_falsy _).
Qed.

Variable fast_mass : string → result F.
Variable fadd fmul fdiv : F → F → F.
Variable float_of_int : Z → option F.
Variable fsum : list F → F.
Variable PROTON_MASS : F.

(** The registry after [calc_precursor_mz]: as before the call, or as after
    one read of [mass_shifts]. *)
Lemma calc_precursor_mz_state self peptide mods charge :
  let s := (calc_precursor_mz fast_mass fadd fmul fdiv float_of_int fsum
              PROTON_MASS peptide mods charge self).1 in
  s = self ∨ s = (mass_shifts self).1.
Proof.
  unfold calc_precursor_mz.
  apply (sbind_preserves (λ s, s = self ∨ s = (mass_shifts self).1));
    [by left|].
  intros m0 s0 Hs0.
  apply (sbind_preserves (λ s, s = self ∨ s = (mass_shifts self).1)).
  - apply (smapM_preserves (λ s, s = self ∨ s = (mass_shifts self).1));
      [|done].
    intros name s Hs.
    apply (sbind_preserves (λ s, s = self ∨ s = (mass_shifts self).1));
      [|done].
    right. destruct Hs as [->| ->]; [done|].
    destruct (mass_shifts_stable self) as [_ ->]. done.
  - intros shifts s1 Hs1. destruct (float_of_int charge); [|done].
    by destruct (decide (charge = 0)).
Qed.
End registry_reads.

(** X8: reading never changes what is registered.  [mass_shifts], [ptm_ids]
    and [calc_precursor_mz] leave the definitions and the counter as they
    are and touch at most their own cache; a second read of a property
    returns the same dict as the first and changes nothing, and
    [calc_precursor_mz] computes the same result when it is called again. *)
Theorem X8_reads_leave_the_registry_unchanged
    {F : Type} (fast_mass : string → result F) (fadd fmul fdiv : F → F → F)
    (float_of_int : Z → option F) (fsum : list F → F) (PROTON_MASS : F)
    (self : Modifications F) (peptide mods : string) (charge : Z) :
  let calc := calc_precursor_mz fast_mass fadd fmul fdiv float_of_int fsum
                PROTON_MASS peptide mods charge in
  (modifications (mass_shifts self).1 = modifications self
   ∧ _next_mod_id (mass_shifts self).1 = _next_mod_id self
   ∧ _ptm_ids (mass_shifts self).1 = _ptm_ids self)
  ∧ (modifications (ptm_ids self).1 = modifications self
     ∧ _next_mod_id (ptm_ids self).1 = _next_mod_id self
     ∧ _mass_shifts (ptm_ids self).1 = _mass_shifts self)
  ∧ (modifications (calc self).1 = modifications self
     ∧ _next_mod_id (calc self).1 = _next_mod_id self
     ∧ _ptm_ids (calc self).1 = _ptm_ids self)
  ∧ mass_shifts (mass_shifts self).1 = mass_shifts self
  ∧ ptm_ids (ptm_ids self).1 = ptm_ids self
  ∧ (calc (calc self).1).2 = (calc self).2.
Proof.
  intros calc.
  pose proof (mass_shifts_content self) as Hms.
  pose proof (ptm_ids_content self) as Hids.
  destruct (mass_shifts_stable self) as [Hm1 Hm2].
  destruct (ptm_ids_stable self) as [Hi1 Hi2].
  pose proof (calc_precursor_mz_state fast_mass fadd fmul fdiv float_of_int
                fsum PROTON_MASS self peptide mods charge) as Hstate.
  simpl in Hstate. fold calc in Hstate.
  split; [done|]. split; [done|].
  split; [by destruct Hstate as [->| ->]|].
  split; [congruence|]. split; [congruence|].
  subst calc. rewrite !calc_precursor_mz_result.
  assert (mass_shift_table (mass_shifts self).1 = mass_shift_table self)
    as Htable.
  { unfold mass_shift_table at 1. by rewrite Hm2. }
  destruct Hstate as [->| ->]; [done | by rewrite Htable].
Qed.

(** ** The applicators on the contents of the arrays *)

Lemma sbind_raise {S A B} (m : SE S A) (k : A → SE S B) s e :
  (m s).2 = Raise e → (sbind m k s).2 = Raise e.
Proof.
  unfold sbind. destruct (m s) as [s' [a|e']]; simpl; [done|].
  by intros [= <-].
Qed.

Section contents_simulation.
Implicit Types (h : heap) (a : list Z) (l : ref).

Lemma setitem_simulation h l a index value :
  h !! l = Some a →
  match setitem_contents a index value with
  | Ok a' => Numpy.setitem l index value h = (<[l := a']> h, Ok tt)
  | Raise e => Numpy.setitem l index value h = (h, Raise e)
  end.
Proof.
  intros Hl. unfold setitem_contents, Numpy.setitem, Numpy.deref.
  rewrite Hl. simpl. by destruct (_ || _).
Qed.

(** A loop whose iterations write through [l] only, against the same loop
    on the contents of the array at [l]. *)
Lemma for_simulation {A} l (body : A → SE heap unit)
    (pbody : A → list Z → result (list Z)) :
  (∀ x h a, h !! l = Some a →
     match pbody x a with
     | Ok a' => body x h = (<[l := a']> h, Ok tt)
     | Raise e => (body x h).2 = Raise e
     end) →
  ∀ xs h a, h !! l = Some a →
    match for_contents xs pbody a with
    | Ok a' => for_ xs body h = (<[l := a']> h, Ok tt)
    | Raise e => (for_ xs body h).2 = Raise e
    end.
Proof.
  intros Hbody. induction xs as [|x xs IH]; intros h a Hl; simpl.
  - by rewrite insert_id.
  - specialize (Hbody x h a Hl). unfold sbind.
    destruct (pbody x a) as [a1|e]; simpl.
    + rewrite Hbody.
      specialize (IH (<[l := a1]> h) a1 (lookup_insert_eq _ _ _)).
      destruct (for_contents xs pbody a1) as [a'|e]; simpl.
      * rewrite IH. by rewrite insert_insert_eq.
      * exact IH.
    + by destruct (body x h) as [h' [[]|e']]; simpl in *; subst.
Qed.

Variable py_int : string → option Z.
Variable ptm_ids : gmap string Z.

Lemma modification_pair_simulation l toks i h a :
  h !! l = Some a →
  match modification_pair py_int ptm_ids toks i a with
  | Ok a' =>
      (location <~ slift (tok <- list_getitem toks i ;; int_ py_int tok) ;;
       name <~ slift (list_getitem toks (i + 1)) ;;
       match ptm_ids !! name with
       | Some id => Numpy.setitem l location id
       | None => sraise (UnknownModificationError name)
       end) h = (<[l := a']> h, Ok tt)
  | Raise e =>
      ((location <~ slift (tok <- list_getitem toks i ;; int_ py_int tok) ;;
        name <~ slift (list_getitem toks (i + 1)) ;;
        match ptm_ids !! name with
        | Some id => Numpy.setitem l location id
        | None => sraise (UnknownModificationError name)
        end) h).2 = Raise e
  end.
Proof.
  intros Hl. unfold modification_pair, sbind, slift.
  destruct (bind (list_getitem toks i) _) as [location|e]; simpl; [|done].
  destruct (list_getitem toks (i + 1)) as [name|e]; simpl; [|done].
  destruct (ptm_ids !! name) as [id|]; [|done].
  pose proof (setitem_simulation h l a location id Hl) as Hs.
  destruct (setitem_contents a location id); by rewrite Hs.
Qed.

Lemma mods_pair_simulation l toks i h a :
  h !! l = Some a →
  match mods_pair py_int ptm_ids toks i a with
  | Ok a' =>
      (tl <~ slift (list_getitem toks (i + 1)) ;;
       match ptm_ids !! tl with
       | Some id =>
           index <~ slift (tok <- list_getitem toks i ;; int_ py_int tok) ;;
           Numpy.setitem l index id
       | None => sraise (UnknownModificationError tl)
       end) h = (<[l := a']> h, Ok tt)
  | Raise e =>
      ((tl <~ slift (list_getitem toks (i + 1)) ;;
        match ptm_ids !! tl with
        | Some id =>
            index <~ slift (tok <- list_getitem toks i ;;
                            int_ py_int tok) ;;
            Numpy.setitem l index id
        | None => sraise (UnknownModificationError tl)
        end) h).2 = Raise e
  end.
Proof.
  intros Hl. unfold mods_pair, sbind, slift.
  destruct (list_getitem toks (i + 1)) as [tl|e]; simpl; [|done].
  destruct (ptm_ids !! tl) as [id|]; [|done].
  destruct (bind (list_getitem toks i) _) as [index|e]; simpl; [|done].
  pose proof (setitem_simulation h l a index id Hl) as Hs.
  destruct (setitem_contents a index id); by rewrite Hs.
Qed.

(** The two applicators with the allocation made explicit. *)
Lemma apply_modifications_unfold h l modifications :
  apply_modifications py_int l modifications ptm_ids h
  = if str_truthy modifications && bool_decide (modifications ≠ "-") then
      let l' := fresh (dom h) in
      let toks := str_split "|" modifications in
      if bool_decide ((length toks `mod` 2)%nat ≠ 0%nat) then
        (<[l' := Numpy.deref h l]> h,
         Raise (InvalidModificationFormattingError modifications))
      else
        match for_ (range_by2 (length toks)) (λ i,
                location <~ slift (tok <- list_getitem toks i ;;
                                   int_ py_int tok) ;;
                name <~ slift (list_getitem toks (i + 1)) ;;
                match ptm_ids !! name with
                | Some id => Numpy.setitem l' location id
                | None => sraise (UnknownModificationError name)
                end) (<[l' := Numpy.deref h l]> h) with
        | (h', Ok _) => (h', Ok l')
        | (h', Raise e) => (h', Raise e)
        end
    else (h, Ok l).
Proof.
  unfold apply_modifications.
  destruct (str_truthy modifications && bool_decide (modifications ≠ "-"));
    [|done].
  unfold sbind at 1. unfold Numpy.copy, Numpy.alloc. cbv zeta.
  destruct (bool_decide (_ ≠ 0%nat)); [done|].
  unfold sbind at 1. by destruct (for_ _ _ _) as [h' [[]|e]].
Qed.

Lemma apply_mods_unfold h l mods :
  apply_mods py_int l mods ptm_ids h
  = let l' := fresh (dom h) in
    let h1 := <[l' := np_array_uint16 (Numpy.deref h l)]> h in
    if bool_decide (mods ≠ "-") then
      let toks := str_split "|" mods in
      if bool_decide ((length toks `mod` 2)%nat ≠ 0%nat) then
        (h1, Raise (InvalidModificationFormattingError mods))
      else
        match for_ (range_by2 (length toks)) (λ i,
                tl <~ slift (list_getitem toks (i + 1)) ;;
                match ptm_ids !! tl with
                | Some id =>
                    index <~ slift (tok <- list_getitem toks i ;;
                                    int_ py_int tok) ;;
                    Numpy.setitem l' index id
                | None => sraise (UnknownModificationError tl)
                end) h1 with
        | (h', Ok _) => (h', Ok l')
        | (h', Raise e) => (h', Raise e)
        end
    else (h1, Ok l').
Proof.
  unfold apply_mods. unfold sbind at 1.
  unfold Numpy.array_uint16, Numpy.alloc. cbv zeta.
  destruct (bool_decide (mods ≠ "-")); [|done].
  destruct (bool_decide (_ ≠ 0%nat)); [done|].
  unfold sbind at 1. by destruct (for_ _ _ _) as [h' [[]|e]].
Qed.

(** [apply_modifications], with the reference it returns and the heap it
    leaves, against [modified_contents]. *)
Lemma apply_modifications_simulation h l a modifications :
  h !! l = Some a →
  match modified_contents py_int ptm_ids modifications a with
  | Ok a' =>
      ∃ l', apply_modifications py_int l modifications ptm_ids h
            = (<[l' := a']> h, Ok l')
            ∧ (l' = l ∨ h !! l' = None)
  | Raise e =>
      (apply_modifications py_int l modifications ptm_ids h).2 = Raise e
  end.
Proof.
  intros Hl. rewrite apply_modifications_unfold. unfold modified_contents.
  destruct (str_truthy modifications && bool_decide (modifications ≠ "-")).
  - cbv zeta. unfold Numpy.deref. rewrite Hl. simpl.
    destruct (bool_decide (_ ≠ 0%nat)); [done|].
    set (l' := fresh (dom h)).
    pose proof (for_simulation l'
                  (λ i,
                     location <~ slift (tok <- list_getitem
                                          (str_split "|" modifications) i ;;
                                        int_ py_int tok) ;;
                     name <~ slift (list_getitem
                                      (str_split "|" modifications) (i + 1)) ;;
                     match ptm_ids !! name with
                     | Some id => Numpy.setitem l' location id
                     | None => sraise (UnknownModificationError name)
                     end)
                  (modification_pair py_int ptm_ids
                     (str_split "|" modifications))
                  (λ i h0 a0, modification_pair_simulation l'
                                (str_split "|" modifications) i h0 a0)
                  (range_by2 (length (str_split "|" modifications)))
                  (<[l' := a]> h) a (lookup_insert_eq _ _ _)) as Hsim.
    destruct (for_contents _ _ a) as [a'|e].
    + rewrite insert_insert_eq in Hsim. rewrite Hsim. exists l'.
      split; [done|]. right. apply not_elem_of_dom, is_fresh.
    + destruct (for_ _ _ _) as [h' [[]|e']]; simpl in *; congruence.
  - exists l. rewrite insert_id by done. split; [done | by left].
Qed.

Lemma apply_mods_simulation h l a mods :
  h !! l = Some a →
  match mods_contents py_int ptm_ids mods a with
  | Ok a' =>
      ∃ l', apply_mods py_int l mods ptm_ids h = (<[l' := a']> h, Ok l')
            ∧ h !! l' = None
  | Raise e => (apply_mods py_int l mods ptm_ids h).2 = Raise e
  end.
Proof.
  intros Hl. rewrite apply_mods_unfold. unfold mods_contents.
  cbv zeta. unfold Numpy.deref. rewrite Hl. simpl.
  assert (h !! fresh (dom h) = None) as Hfresh
    by apply not_elem_of_dom, is_fresh.
  destruct (bool_decide (mods ≠ "-")); [|by exists (fresh (dom h))].
  destruct (bool_decide (_ ≠ 0%nat)); [done|].
  set (l' := fresh (dom h)) in *.
  pose proof (for_simulation l'
                (λ i,
                   tl <~ slift (list_getitem (str_split "|" mods)
                                  (i + 1)) ;;
                   match ptm_ids !! tl with
                   | Some id =>
                       index <~ slift (tok <- list_getitem
                                         (str_split "|" mods) i ;;
                                       int_ py_int tok) ;;
                       Numpy.setitem l' index id
                   | None => sraise (UnknownModificationError tl)
                   end)
                (mods_pair py_int ptm_ids (str_split "|" mods))
                (λ i h0 a0, mods_pair_simulation l'
                              (str_split "|" mods) i h0 a0)
                (range_by2 (length (str_split "|" mods)))
                (<[l' := np_array_uint16 a]> h)
                (np_array_uint16 a) (lookup_insert_eq _ _ _)) as Hsim.
  destruct (for_contents _ _ (np_array_uint16 a)) as [a'|e].
  - rewrite insert_insert_eq in Hsim. rewrite Hsim. by exists l'.
  - destruct (for_ _ _ _) as [h' [[]|e']]; simpl in *; congruence.
Qed.
End contents_simulation.

Lemma slice_odd_lookup_pair {A} (l : list A) :
  (∀ k, slice_odd l !! k = l !! (2 * k + 1)%nat)
  ∧ ∀ x k, slice_odd (x :: l) !! k = (x :: l) !! (2 * k + 1)%nat.
Proof.
  induction l as [|y l [IH1 IH2]].
  - split; [intros k; simpl; by rewrite ?lookup_nil|]. intros x k.
    replace (2 * k + 1)%nat with (S (2 * k)) by lia.
    simpl. by rewrite ?lookup_nil.
  - split; [apply IH2|]. intros x [|k].
    + done.
    + replace (2 * S k + 1)%nat with (S (S (2 * k + 1))) by lia.
      simpl. apply IH1.
Qed.

Lemma slice_odd_lookup {A} (l : list A) k :
  slice_odd l !! k = l !! (2 * k + 1)%nat.
Proof. apply slice_odd_lookup_pair. Qed.

Lemma elem_of_range_by2 x n : x ∈ range_by2 n → ∃ k, x = (2 * k)%nat.
Proof.
  unfold range_by2. intros (k & -> & _)%list_elem_of_fmap. by exists k.
Qed.

Lemma np_array_uint16_id (a : list Z) :
  Forall is_uint16 a → np_array_uint16 a = a.
Proof.
  unfold np_array_uint16. induction 1 as [|v a Hv _ IH]; csimpl; [done|].
  by rewrite IH, uint16_small.
Qed.

Section contents_facts.
Variable py_int : string → option Z.
Variable ptm_ids : gmap string Z.
Implicit Types (a : list Z) (toks : list string).

Lemma setitem_contents_Ok a index value a' :
  setitem_contents a index value = Ok a' →
  ∃ j, (j < length a)%nat
       ∧ Z.of_nat j = index `mod` Z.of_nat (length a)
       ∧ - Z.of_nat (length a) ≤ index < Z.of_nat (length a)
       ∧ a' = <[j := uint16 value]> a.
Proof.
  unfold setitem_contents.
  destruct (_ || _) eqn:E; [done|]. intros [= <-].
  apply orb_false_iff in E as [E1%Z.ltb_ge E2%Z.leb_gt].
  eexists. split; [|split; [|split; [|reflexivity]]]; [| |lia].
  - destruct (Z.ltb_spec index 0); lia.
  - destruct (Z.ltb_spec index 0).
    + rewrite Z2Nat.id by lia. symmetry.
      rewrite <- (Z.mod_unique_pos index (Z.of_nat (length a)) (-1)
                    (index + Z.of_nat (length a))); lia.
    + rewrite Z2Nat.id by lia. symmetry. apply Z.mod_small. lia.
Qed.

Lemma setitem_contents_Raise a index value e :
  setitem_contents a index value = Raise e →
  (index < - Z.of_nat (length a) ∨ Z.of_nat (length a) ≤ index)
  ∧ ∃ msg, e = IndexError msg.
Proof.
  unfold setitem_contents.
  destruct (_ || _) eqn:E; [|done]. intros [= <-].
  split; [|by eexists].
  apply orb_true_iff in E as [E%Z.ltb_lt|E%Z.leb_le]; lia.
Qed.

Lemma modification_pair_Ok toks i a a' :
  modification_pair py_int ptm_ids toks i a = Ok a' →
  ∃ tok location name id,
    toks !! i = Some tok ∧ py_int tok = Some location
    ∧ toks !! (i + 1)%nat = Some name ∧ ptm_ids !! name = Some id
    ∧ setitem_contents a location id = Ok a'.
Proof.
  unfold modification_pair, list_getitem, int_.
  destruct (toks !! i) as [tok|]; [|done]. simpl.
  destruct (py_int tok) as [location|] eqn:Eint; [|done]. simpl.
  destruct (toks !! (i + 1)%nat) as [name|]; [|done]. simpl.
  destruct (ptm_ids !! name) as [id|] eqn:E; [|done].
  intros H. by exists tok, location, name, id.
Qed.

(** The two loop bodies write the same thing when they write. *)
Lemma pair_bodies_agree toks i a a' :
  modification_pair py_int ptm_ids toks i a = Ok a'
  ↔ mods_pair py_int ptm_ids toks i a = Ok a'.
Proof.
  unfold modification_pair, mods_pair, list_getitem, int_.
  destruct (toks !! i) as [tok|]; simpl;
    destruct (toks !! (i + 1)%nat) as [name|]; simpl;
    try destruct (py_int tok) as [location|]; simpl;
    try destruct (ptm_ids !! name) as [id|]; simpl; done.
Qed.

Lemma pair_errors toks i a e :
  modification_pair py_int ptm_ids toks i a = Raise e
  ∨ mods_pair py_int ptm_ids toks i a = Raise e →
  (∃ msg, e = IndexError msg) ∨ (∃ msg, e = ValueError msg)
  ∨ (∃ name, e = UnknownModificationError name).
Proof.
  unfold modification_pair, mods_pair, list_getitem, int_.
  destruct (toks !! i) as [tok|]; simpl;
    destruct (toks !! (i + 1)%nat) as [name|]; simpl;
    try destruct (py_int tok) as [location|]; simpl;
    try destruct (ptm_ids !! name) as [id|]; simpl;
    intros [H|H]; try (injection H as <-; eauto);
    try (apply setitem_contents_Raise in H as [_ [msg ->]]; eauto).
Qed.

Lemma for_contents_agree {A S} (p1 p2 : A → S → result S) (xs : list A) :
  (∀ x s s', p1 x s = Ok s' ↔ p2 x s = Ok s') →
  ∀ s s', for_contents xs p1 s = Ok s' ↔ for_contents xs p2 s = Ok s'.
Proof.
  intros Hp. induction xs as [|x xs IH]; intros s s'; simpl; [done|].
  destruct (p1 x s) as [s1|e1] eqn:E1.
  - apply Hp in E1. rewrite E1. simpl. apply IH.
  - destruct (p2 x s) as [s2|e2] eqn:E2; [|done].
    apply Hp in E2. congruence.
Qed.

Lemma for_contents_errors {A S} (p : A → S → result S) (Q : exn → Prop)
    (xs : list A) :
  (∀ x s e, p x s = Raise e → Q e) →
  ∀ s e, for_contents xs p s = Raise e → Q e.
Proof.
  intros Hp. induction xs as [|x xs IH]; intros s e; simpl; [done|].
  destruct (p x s) as [s1|e1] eqn:E1; simpl; [apply IH|].
  intros [= <-]. by eapply Hp.
Qed.

(** What a completed loop of [apply_modifications] has done to the
    contents. *)
Lemma modification_loop_Ok toks xs : ∀ a a',
  for_contents xs (modification_pair py_int ptm_ids toks) a = Ok a' →
  length a' = length a
  ∧ (∀ i v, a' !! i = Some v →
       a !! i = Some v
       ∨ ∃ x name id, x ∈ xs ∧ toks !! (x + 1)%nat = Some name
                      ∧ ptm_ids !! name = Some id ∧ v = uint16 id)
  ∧ ∀ x, x ∈ xs →
      ∃ name, toks !! (x + 1)%nat = Some name ∧ is_Some (ptm_ids !! name).
Proof.
  induction xs as [|x xs IH]; intros a a'; simpl.
  - intros [= <-]. split; [done|]. split; [by left|].
    intros x Hx. by apply elem_of_nil in Hx.
  - destruct (modification_pair py_int ptm_ids toks x a) as [a1|] eqn:E;
      [|done]. simpl. intros Hrest.
    apply modification_pair_Ok in E
      as (tok & location & name & id & _ & _ & Hname & Hid & Hset).
    apply setitem_contents_Ok in Hset as (j & Hj & _ & _ & ->).
    destruct (IH _ _ Hrest) as (Hlen & Hvals & Hnames).
    rewrite length_insert in Hlen. split; [done|]. split.
    + intros i v Hv. destruct (Hvals i v Hv) as [Hold|Hnew].
      * destruct (decide (i = j)) as [->|Hij].
        -- rewrite list_lookup_insert_eq in Hold by done.
           injection Hold as <-. right. exists x, name, id.
           split; [by left | done].
        -- rewrite list_lookup_insert_ne in Hold by done. by left.
      * destruct Hnew as (x' & name' & id' & Hx' & ?). right.
        exists x', name', id'. split; [by right | done].
    + intros x' [->|Hx']%elem_of_cons; [|by apply Hnames].
      exists name. by rewrite Hid.
Qed.
End contents_facts.

Lemma elem_of_range_by2_lt k n :
  (2 * k + 1 < n)%nat → (2 * k)%nat ∈ range_by2 n.
Proof.
  intros Hk. unfold range_by2. apply list_elem_of_fmap. exists k.
  split; [done|]. apply elem_of_seq.
  pose proof (Nat.div_mod_eq (n + 1) 2).
  pose proof (Nat.mod_upper_bound (n + 1) 2). lia.
Qed.

Lemma odd_parity_test n :
  Nat.odd n = bool_decide ((n `mod` 2)%nat ≠ 0%nat).
Proof.
  destruct (Nat.odd n) eqn:E.
  - apply Nat.odd_spec in E as [k ->]. symmetry. apply bool_decide_eq_true.
    replace (2 * k + 1)%nat with (1 + k * 2)%nat by lia.
    by rewrite Nat.Div0.mod_add.
  - assert (Nat.even n = true) as [k ->]%Nat.even_spec
      by (by rewrite <- Nat.negb_odd, E).
    symmetry. apply bool_decide_eq_false. intros Hne. apply Hne.
    replace (2 * k)%nat with (0 + k * 2)%nat by lia.
    by rewrite Nat.Div0.mod_add.
Qed.

Section applicator_results.
Variable py_int : string → option Z.
Variable ptm_ids : gmap string Z.
Implicit Types (h : heap) (l : ref) (a : list Z).

(** A call that returned has the contents that [modified_contents]
    computes. *)
Lemma apply_modifications_Ok_inv h l a mods h' l' :
  h !! l = Some a →
  apply_modifications py_int l mods ptm_ids h = (h', Ok l') →
  ∃ a', modified_contents py_int ptm_ids mods a = Ok a'
        ∧ h' !! l' = Some a'.
Proof.
  intros Hl Hres.
  pose proof (apply_modifications_simulation py_int ptm_ids h l a mods Hl)
    as Hsim.
  destruct (modified_contents py_int ptm_ids mods a) as [a'|e].
  - destruct Hsim as (l'' & Hsim & _). rewrite Hres in Hsim.
    injection Hsim as -> ->. exists a'.
    split; [done|]. apply lookup_insert_eq.
  - by rewrite Hres in Hsim.
Qed.

Lemma apply_mods_Ok_inv h l a mods h' l' :
  h !! l = Some a →
  apply_mods py_int l mods ptm_ids h = (h', Ok l') →
  ∃ a', mods_contents py_int ptm_ids mods a = Ok a' ∧ h' !! l' = Some a'.
Proof.
  intros Hl Hres.
  pose proof (apply_mods_simulation py_int ptm_ids h l a mods Hl) as Hsim.
  destruct (mods_contents py_int ptm_ids mods a) as [a'|e].
  - destruct Hsim as (l'' & Hsim & _). rewrite Hres in Hsim.
    injection Hsim as -> ->. exists a'.
    split; [done|]. apply lookup_insert_eq.
  - by rewrite Hres in Hsim.
Qed.

Lemma modified_contents_errors mods a e :
  modified_contents py_int ptm_ids mods a = Raise e →
  mods ≠ "" ∧ mods ≠ "-"
  ∧ if Nat.odd (length (str_split "|" mods))
    then e = InvalidModificationFormattingError mods
    else (∃ msg, e = IndexError msg) ∨ (∃ msg, e = ValueError msg)
         ∨ (∃ name, e = UnknownModificationError name).
Proof.
  unfold modified_contents.
  destruct (str_truthy mods && bool_decide (mods ≠ "-")) eqn:E; [|done].
  apply andb_true_iff in E as [E1%str_truthy_true E2%bool_decide_eq_true].
  intros H. split; [done|]. split; [done|]. cbv zeta in H.
  rewrite odd_parity_test.
  destruct (bool_decide (_ ≠ 0%nat)); [congruence|].
  revert H.
  apply (for_contents_errors _
           (λ e, (∃ msg, e = IndexError msg) ∨ (∃ msg, e = ValueError msg)
                 ∨ (∃ name, e = UnknownModificationError name))).
  intros x s e0 Hx. eapply pair_errors. left. apply Hx.
Qed.

Lemma mods_contents_errors mods a e :
  mods_contents py_int ptm_ids mods a = Raise e →
  mods ≠ "-"
  ∧ if Nat.odd (length (str_split "|" mods))
    then e = InvalidModificationFormattingError mods
    else (∃ msg, e = IndexError msg) ∨ (∃ msg, e = ValueError msg)
         ∨ (∃ name, e = UnknownModificationError name).
Proof.
  unfold mods_contents.
  case_bool_decide as E; [|done]. intros H. split; [done|]. cbv zeta in H.
  rewrite odd_parity_test.
  destruct (bool_decide (_ ≠ 0%nat)); [congruence|].
  revert H.
  apply (for_contents_errors _
           (λ e, (∃ msg, e = IndexError msg) ∨ (∃ msg, e = ValueError msg)
                 ∨ (∃ name, e = UnknownModificationError name))).
  intros x s e0 Hx. eapply pair_errors. right. apply Hx.
Qed.
End applicator_results.

Section applicator_properties.
Variable py_int : string → option Z.
Variable ptm_ids : gmap string Z.
Implicit Types (h : heap) (l : ref) (a : list Z).

Lemma apply_modifications_Raise_inv h l a mods e :
  h !! l = Some a →
  (apply_modifications py_int l mods ptm_ids h).2 = Raise e →
  modified_contents py_int ptm_ids mods a = Raise e.
Proof.
  intros Hl Hres.
  pose proof (apply_modifications_simulation py_int ptm_ids h l a mods Hl)
    as Hsim.
  destruct (modified_contents py_int ptm_ids mods a) as [a'|e'].
  - destruct Hsim as (l' & Hsim & _). by rewrite Hsim in Hres.
  - congruence.
Qed.

Lemma apply_mods_Raise_inv h l a mods e :
  h !! l = Some a →
  (apply_mods py_int l mods ptm_ids h).2 = Raise e →
  mods_contents py_int ptm_ids mods a = Raise e.
Proof.
  intros Hl Hres.
  pose proof (apply_mods_simulation py_int ptm_ids h l a mods Hl) as Hsim.
  destruct (mods_contents py_int ptm_ids mods a) as [a'|e'].
  - destruct Hsim as (l' & Hsim & _). by rewrite Hsim in Hres.
  - congruence.
Qed.

Lemma apply_modifications_returns_contents h l a mods a' :
  h !! l = Some a →
  (∃ h1 l1, apply_modifications py_int l mods ptm_ids h = (h1, Ok l1)
            ∧ h1 !! l1 = Some a')
  ↔ modified_contents py_int ptm_ids mods a = Ok a'.
Proof.
  intros Hl. split.
  - intros (h1 & l1 & Hres & Ha').
    destruct (apply_modifications_Ok_inv _ _ _ _ _ _ _ _ Hl Hres)
      as (a'' & Hc & Ha''). congruence.
  - intros Hc.
    pose proof (apply_modifications_simulation py_int ptm_ids h l a mods Hl)
      as Hsim.
    rewrite Hc in Hsim. destruct Hsim as (l' & Hsim & _).
    eexists _, _. split; [done|]. apply lookup_insert_eq.
Qed.

Lemma apply_mods_returns_contents h l a mods a' :
  h !! l = Some a →
  (∃ h1 l1, apply_mods py_int l mods ptm_ids h = (h1, Ok l1)
            ∧ h1 !! l1 = Some a')
  ↔ mods_contents py_int ptm_ids mods a = Ok a'.
Proof.
  intros Hl. split.
  - intros (h1 & l1 & Hres & Ha').
    destruct (apply_mods_Ok_inv _ _ _ _ _ _ _ _ Hl Hres)
      as (a'' & Hc & Ha''). congruence.
  - intros Hc.
    pose proof (apply_mods_simulation py_int ptm_ids h l a mods Hl) as Hsim.
    rewrite Hc in Hsim. destruct Hsim as (l' & Hsim & _).
    eexists _, _. split; [done|]. apply lookup_insert_eq.
Qed.

Lemma contents_agree a mods a' :
  Forall is_uint16 a → mods ≠ "" →
  modified_contents py_int ptm_ids mods a = Ok a'
  ↔ mods_contents py_int ptm_ids mods a = Ok a'.
Proof.
  intros Ha Hne. unfold modified_contents, mods_contents.
  rewrite np_array_uint16_id by done.
  apply str_truthy_true in Hne. rewrite Hne. simpl.
  destruct (bool_decide (mods ≠ "-")); [|done].
  destruct (bool_decide (_ ≠ 0%nat)); [done|].
  apply for_contents_agree. intros x s s'. apply pair_bodies_agree.
Qed.

(** X9: with ids that fit in 16 bits, a call of apply_modifications that
    returns for a modification string other than the empty string and "-"
    yields an array of the input's length; every name of the string (the
    tokens at odd positions of the split at "|") is a key of ptm_ids; and
    every element of the result is the element of the input at that index
    or the id of a name of the string. *)
Theorem X9_modified_array_holds_registered_ids h h' l l' a mods :
  map_Forall (λ _ id, is_uint16 id) ptm_ids →
  h !! l = Some a → mods ≠ "" → mods ≠ "-" →
  apply_modifications py_int l mods ptm_ids h = (h', Ok l') →
  let names := slice_odd (str_split "|" mods) in
  ∃ a', h' !! l' = Some a'
        ∧ length a' = length a
        ∧ Forall (λ name, is_Some (ptm_ids !! name)) names
        ∧ ∀ i v, a' !! i = Some v →
            a !! i = Some v
            ∨ ∃ name, name ∈ names ∧ ptm_ids !! name = Some v.
Proof.
  intros Hids Hl Hne Hdash Hres names.
  destruct (apply_modifications_Ok_inv _ _ _ _ _ _ _ _ Hl Hres)
    as (a' & Hc & Ha').
  exists a'. split; [done|]. unfold modified_contents in Hc.
  apply str_truthy_true in Hne. rewrite Hne in Hc.
  rewrite (bool_decide_eq_true_2 _ Hdash) in Hc. simpl in Hc.
  destruct (bool_decide (_ ≠ 0%nat)); [done|].
  apply modification_loop_Ok in Hc as (Hlen & Hvals & Hnames).
  split; [done|]. split.
  - apply Forall_lookup. intros k name Hk. unfold names in Hk.
    rewrite slice_odd_lookup in Hk.
    destruct (Hnames (2 * k)%nat) as (name' & Hname' & Hreg).
    + apply elem_of_range_by2_lt. by apply lookup_lt_Some in Hk.
    + congruence.
  - intros i v Hv. destruct (Hvals i v Hv) as [Hold|Hnew]; [by left|].
    destruct Hnew as (x & name & id & Hx & Hname & Hid & ->). right.
    exists name. rewrite (uint16_small id) by apply (Hids _ _ Hid).
    split; [|done].
    apply elem_of_range_by2 in Hx as [k ->].
    apply (list_elem_of_lookup_2 _ k). unfold names.
    by rewrite slice_odd_lookup.
Qed.

(** X10: for a modification string of one position and one registered name
    whose id fits in 16 bits, apply_modifications writes a position within
    -n <= z < n (n the array length) at index z mod n of a copy, so a
    negative position counts from the end of the array and -1 is its last
    slot; any other position ends in IndexError. *)
Theorem X10_position_is_a_numpy_index h l a mods p name z id :
  h !! l = Some a →
  str_split "|" mods = [p; name] →
  py_int p = Some z →
  ptm_ids !! name = Some id →
  is_uint16 id →
  let n := Z.of_nat (length a) in
  let res := apply_modifications py_int l mods ptm_ids h in
  (- n ≤ z < n →
   ∃ l', res.2 = Ok l'
         ∧ res.1 !! l' = Some (<[Z.to_nat (z `mod` n) := id]> a))
  ∧ (¬ (- n ≤ z < n) → ∃ msg, res.2 = Raise (IndexError msg)).
Proof.
  intros Hl Hsplit Hp Hid Hrange16 n res.
  assert (mods ≠ "") as Hne
    by (intros ->; vm_compute in Hsplit; discriminate).
  assert (mods ≠ "-") as Hdash
    by (intros ->; vm_compute in Hsplit; discriminate).
  assert (modified_contents py_int ptm_ids mods a = setitem_contents a z id)
    as Hc.
  { unfold modified_contents. apply str_truthy_true in Hne. rewrite Hne.
    rewrite (bool_decide_eq_true_2 _ Hdash). simpl. rewrite Hsplit. simpl.
    unfold modification_pair, list_getitem, int_. simpl.
    rewrite Hp. simpl. rewrite Hid. by destruct (setitem_contents a z id). }
  pose proof (apply_modifications_simulation py_int ptm_ids h l a mods Hl)
    as Hsim.
  rewrite Hc in Hsim. fold res in Hsim.
  destruct (setitem_contents a z id) as [a'|e] eqn:Hset.
  - apply setitem_contents_Ok in Hset as (j & _ & Hj & Hrange & ->).
    destruct Hsim as (l' & Hsim & _). split; [|by intros []].
    intros _. exists l'. rewrite Hsim. simpl. split; [done|].
    rewrite lookup_insert_eq, (uint16_small id) by done.
    fold n in Hj. by rewrite <- Hj, Nat2Z.id.
  - apply setitem_contents_Raise in Hset as (Hrange & msg & ->).
    split; [fold n in Hrange; lia|]. intros _. by exists msg.
Qed.

(** X11: with ids that fit in 16 bits, apply_modifications raises
    InvalidModificationFormattingError exactly for a string other than ""
    and "-" that splits at "|" into an odd number of tokens, and apply_mods
    exactly for a string other than "-" with an odd number of tokens (the
    empty string included); the error carries the string.  Whatever either
    function raises is that error or, for an even number of tokens, an
    IndexError, a ValueError or an UnknownModificationError. *)
Theorem X11_formatting_error_iff_odd_token_count h l a mods :
  map_Forall (λ _ id, is_uint16 id) ptm_ids →
  h !! l = Some a →
  let odd_tokens := Nat.odd (length (str_split "|" mods)) in
  let r := (apply_modifications py_int l mods ptm_ids h).2 in
  let r' := (apply_mods py_int l mods ptm_ids h).2 in
  (∀ m, r = Raise (InvalidModificationFormattingError m)
        ↔ m = mods ∧ mods ≠ "" ∧ mods ≠ "-" ∧ odd_tokens = true)
  ∧ (∀ m, r' = Raise (InvalidModificationFormattingError m)
          ↔ m = mods ∧ mods ≠ "-" ∧ odd_tokens = true)
  ∧ ∀ e, r = Raise e ∨ r' = Raise e →
         if odd_tokens then e = InvalidModificationFormattingError mods
         else (∃ msg, e = IndexError msg) ∨ (∃ msg, e = ValueError msg)
              ∨ (∃ name, e = UnknownModificationError name).
Proof.
  intros _ Hl odd_tokens r r'. split; [|split].
  - intros m. split.
    + intros Hr. apply (apply_modifications_Raise_inv _ _ _ _ _ Hl) in Hr.
      apply modified_contents_errors in Hr as (Hne & Hdash & Hkind).
      fold odd_tokens in Hkind. destruct odd_tokens.
      * by injection Hkind as ->.
      * destruct Hkind as [[? ?]|[[? ?]|[? ?]]]; discriminate.
    + intros (-> & Hne & Hdash & Hodd).
      pose proof (apply_modifications_simulation py_int ptm_ids h l a mods
                    Hl) as Hsim.
      unfold modified_contents in Hsim.
      apply str_truthy_true in Hne. rewrite Hne in Hsim.
      rewrite (bool_decide_eq_true_2 _ Hdash) in Hsim.
      cbn [andb] in Hsim. cbv zeta in Hsim.
      unfold odd_tokens in Hodd. rewrite odd_parity_test in Hodd.
      by rewrite Hodd in Hsim.
  - intros m. split.
    + intros Hr. apply (apply_mods_Raise_inv _ _ _ _ _ Hl) in Hr.
      apply mods_contents_errors in Hr as (Hdash & Hkind).
      fold odd_tokens in Hkind. destruct odd_tokens.
      * by injection Hkind as ->.
      * destruct Hkind as [[? ?]|[[? ?]|[? ?]]]; discriminate.
    + intros (-> & Hdash & Hodd).
      pose proof (apply_mods_simulation py_int ptm_ids h l a mods Hl)
        as Hsim.
      unfold mods_contents in Hsim.
      rewrite (bool_decide_eq_true_2 _ Hdash) in Hsim. cbv zeta in Hsim.
      unfold odd_tokens in Hodd. rewrite odd_parity_test in Hodd.
      by rewrite Hodd in Hsim.
  - intros e [Hr|Hr].
    + apply (apply_modifications_Raise_inv _ _ _ _ _ Hl) in Hr.
      by apply modified_contents_errors in Hr as (_ & _ & Hkind).
    + apply (apply_mods_Raise_inv _ _ _ _ _ Hl) in Hr.
      by apply mods_contents_errors in Hr as (_ & Hkind).
Qed.

(** X12: on an array of uint16 values and a modification string other than
    the empty string, apply_modifications of the peptides module and
    apply_mods of the xgboost predictor return arrays with the same
    contents: one returns with contents a' exactly when the other does. *)
Theorem X12_applicators_agree_on_results h l a mods a' :
  h !! l = Some a →
  Forall is_uint16 a →
  mods ≠ "" →
  (∃ h1 l1, apply_modifications py_int l mods ptm_ids h = (h1, Ok l1)
            ∧ h1 !! l1 = Some a')
  ↔ (∃ h2 l2, apply_mods py_int l mods ptm_ids h = (h2, Ok l2)
              ∧ h2 !! l2 = Some a').
Proof.
  intros Hl Ha Hne.
  rewrite apply_modifications_returns_contents by done.
  rewrite apply_mods_returns_contents by done.
  by apply contents_agree.
Qed.
End applicator_properties.

Lemma X9_witness :
  let h : heap := {[ 1%positive := [0; 0; 1; 9; 7; 8; 0] ]} in
  let ids : gmap string Z := <["Acetyl" := 39]> (<["Oxidation" := 38]> ∅) in
  let names := slice_odd (str_split "|" "0|Acetyl|3|Oxidation") in
  ∃ a', <[2%positive := [39; 0; 1; 38; 7; 8; 0]]> h !! 2%positive = Some a'
        ∧ length a' = length [0; 0; 1; 9; 7; 8; 0]
        ∧ Forall (λ name, is_Some (ids !! name)) names
        ∧ ∀ i v, a' !! i = Some v →
            [0; 0; 1; 9; 7; 8; 0] !! i = Some v
            ∨ ∃ name, name ∈ names ∧ ids !! name = Some v.
Proof.
  intros h ids.
  apply (X9_modified_array_holds_registered_ids Runtime.py_int ids h
           (<[2%positive := [39; 0; 1; 38; 7; 8; 0]]> h)
           1%positive 2%positive [0; 0; 1; 9; 7; 8; 0]
           "0|Acetyl|3|Oxidation").
  - repeat (apply map_Forall_insert_2; [unfold is_uint16; lia|]).
    apply map_Forall_empty.
  - reflexivity.
  - discriminate.
  - discriminate.
  - vm_compute. reflexivity.
Defined.

Lemma X10_witness :
  let h : heap := {[ 1%positive := [0; 0; 1; 9; 7; 8; 0] ]} in
  let ids : gmap string Z := <["Amidated" := 40]> ∅ in
  let res := apply_modifications Runtime.py_int 1%positive "-1|Amidated"
               ids h in
  (- 7 ≤ - 1 < 7 →
   ∃ l', res.2 = Ok l'
         ∧ res.1 !! l'
           = Some (<[Z.to_nat ((-1) `mod` 7) := 40]>
                     [0; 0; 1; 9; 7; 8; 0]))
  ∧ (¬ (- 7 ≤ - 1 < 7) → ∃ msg, res.2 = Raise (IndexError msg)).
Proof.
  intros h ids.
  apply (X10_position_is_a_numpy_index Runtime.py_int ids h 1%positive
           [0; 0; 1; 9; 7; 8; 0] "-1|Amidated" "-1" "Amidated" (-1) 40).
  - reflexivity.
  - reflexivity.
  - reflexivity.
  - reflexivity.
  - unfold is_uint16. lia.
Defined.

Lemma X11_witness :
  let h : heap := {[ 1%positive := [0; 0; 1; 9; 7; 8; 0] ]} in
  let ids : gmap string Z := <["Acetyl" := 39]> ∅ in
  let odd_tokens := Nat.odd (length (str_split "|" "0|Acetyl|2")) in
  let r := (apply_modifications Runtime.py_int 1%positive "0|Acetyl|2"
              ids h).2 in
  let r' := (apply_mods Runtime.py_int 1%positive "0|Acetyl|2" ids h).2 in
  (∀ m, r = Raise (InvalidModificationFormattingError m)
        ↔ m = "0|Acetyl|2" ∧ "0|Acetyl|2" ≠ "" ∧ "0|Acetyl|2" ≠ "-"
          ∧ odd_tokens = true)
  ∧ (∀ m, r' = Raise (InvalidModificationFormattingError m)
          ↔ m = "0|Acetyl|2" ∧ "0|Acetyl|2" ≠ "-" ∧ odd_tokens = true)
  ∧ ∀ e, r = Raise e ∨ r' = Raise e →
         if odd_tokens
         then e = InvalidModificationFormattingError "0|Acetyl|2"
         else (∃ msg, e = IndexError msg) ∨ (∃ msg, e = ValueError msg)
              ∨ (∃ name, e = UnknownModificationError name).
Proof.
  intros h ids.
  apply (X11_formatting_error_iff_odd_token_count Runtime.py_int ids h
           1%positive [0; 0; 1; 9; 7; 8; 0] "0|Acetyl|2").
  - apply map_Forall_insert_2; [unfold is_uint16; lia|].
    apply map_Forall_empty.
  - reflexivity.
Defined.

Lemma X12_witness :
  let h : heap := {[ 1%positive := [0; 0; 1; 9; 7; 8; 0] ]} in
  let ids : gmap string Z := <["Acetyl" := 39]> (<["Oxidation" := 38]> ∅) in
  (∃ h1 l1, apply_modifications Runtime.py_int 1%positive
              "0|Acetyl|3|Oxidation" ids h = (h1, Ok l1)
            ∧ h1 !! l1 = Some [39; 0; 1; 38; 7; 8; 0])
  ↔ (∃ h2 l2, apply_mods Runtime.py_int 1%positive
                "0|Acetyl|3|Oxidation" ids h = (h2, Ok l2)
              ∧ h2 !! l2 = Some [39; 0; 1; 38; 7; 8; 0]).
Proof.
  intros h ids.
  apply (X12_applicators_agree_on_results Runtime.py_int ids h 1%positive
           [0; 0; 1; 9; 7; 8; 0] "0|Acetyl|3|Oxidation").
  - reflexivity.
  - repeat constructor; unfold is_uint16; lia.
  - discriminate.
Defined.

(** ** The batch predictor: regrouping by record *)

Lemma mapM_Ok_Forall2 {A B} (f : A → result B) (l : list A) : ∀ ys,
  mapM f l = Ok ys → Forall2 (λ x y, f x = Ok y) l ys.
Proof.
  induction l as [|x l IH]; intros ys; simpl.
  - intros [= <-]. constructor.
  - destruct (f x) as [y|] eqn:Hy; [|done]. simpl.
    destruct (mapM f l) as [ys'|]; [|done]. simpl.
    intros [= <-]. constructor; [done|]. by apply IH.
Qed.

Lemma smapM_Ok_length {S A B} (f : A → SE S B) (l : list A) : ∀ s ys,
  (smapM f l s).2 = Ok ys → length ys = length l.
Proof.
  induction l as [|x l IH]; intros s ys; simpl.
  - by intros [= <-].
  - unfold sbind at 1. destruct (f x s) as [s1 [y|]]; [|done].
    unfold sbind. destruct (smapM f l s1) as [s2 [ys'|]] eqn:E; [|done].
    simpl. intros [= <-]. simpl. f_equal. apply (IH s1). by rewrite E.
Qed.

Lemma foldr_min_lt {A} (ls : list (list A)) (b i : nat) :
  (i < foldr (λ l n, Nat.min (length l) n) b ls)%nat
  ↔ (i < b)%nat ∧ Forall (λ l, (i < length l)%nat) ls.
Proof.
  induction ls as [|l ls IH]; simpl.
  - split; [by intros ?; split | by intros [? _]].
  - rewrite Forall_cons. rewrite Nat.min_glb_lt_iff, IH. tauto.
Qed.

Lemma omap_lookup_all {A} (ls : list (list A)) (i : nat) :
  Forall (λ l, (i < length l)%nat) ls →
  length (omap (λ l, l !! i) ls) = length ls
  ∧ ∀ j, omap (λ l, l !! i) ls !! j = ls !! j ≫= (λ l, l !! i).
Proof.
  induction 1 as [|l ls Hl _ [IHlen IHnth]]; [done|].
  apply lookup_lt_is_Some in Hl as [x Hx]. csimpl. rewrite Hx. simpl.
  split; [by rewrite IHlen|]. intros [|j]; [done|]. apply IHnth.
Qed.

(** Row [i] of [zip] over the unpacked lists exists when every list has an
    element [i], and
    holds these elements in the order of the lists. *)
Lemma zip_star_lookup {A} (ls : list (list A)) (i : nat) (row : list A) :
  zip_star ls !! i = Some row →
  Forall (λ l, (i < length l)%nat) ls
  ∧ length row = length ls
  ∧ ∀ j, row !! j = ls !! j ≫= (λ l, l !! i).
Proof.
  unfold zip_star. rewrite list_lookup_fmap.
  destruct (seq _ _ !! i) as [i'|] eqn:E; [|done]. simpl.
  apply lookup_seq in E as [-> [_ Hall]%foldr_min_lt]. simpl.
  intros [= <-]. split; [done|]. by apply omap_lookup_all.
Qed.

Lemma zip_star_length {A} (ls : list (list A)) (n : nat) :
  ls ≠ [] → Forall (λ l, length l = n) ls → length (zip_star ls) = n.
Proof.
  intros Hne Hall. unfold zip_star. rewrite length_fmap, length_seq.
  destruct ls as [|l0 ls]; [done|].
  change (default [] (head (l0 :: ls))) with l0.
  pose proof Hall as [Hl0 _]%Forall_cons.
  apply Nat.le_antisymm.
  - apply Nat.nlt_ge. intros [Hlt _]%foldr_min_lt. lia.
  - destruct n as [|n]; [lia|]. apply Nat.le_succ_l, foldr_min_lt.
    split; [lia|]. eapply Forall_impl; [done|]. simpl. lia.
Qed.

Section predictions_facts.
Context {A : Type}.
Variable float32 : A → A.
Variable predict : string → result (list A).

Lemma reshape_predictions_length ion_type preds num_ions groups :
  reshape_predictions float32 ion_type preds num_ions = Ok groups →
  length groups = length num_ions.
Proof.
  unfold reshape_predictions, _split_list_by_lengths.
  destruct (smapM islice_list num_ions preds).2 as [gs|] eqn:E; [|done].
  apply smapM_Ok_length in E. simpl.
  repeat case_bool_decide; intros [= <-]; by rewrite length_fmap.
Qed.

Lemma process_peptides_xgb_groups peptides files preds_list :
  process_peptides_xgb float32 predict peptides files = Ok preds_list →
  length preds_list = length files
  ∧ Forall (λ groups, length groups = length peptides) preds_list.
Proof.
  unfold process_peptides_xgb. intros H%mapM_Ok_Forall2. split.
  - symmetry. by eapply Forall2_length.
  - induction H as [|im groups files gs Him _ IH]; constructor; [|done].
    destruct (predict im.2) as [preds|]; [|done]. simpl in Him.
    apply reshape_predictions_length in Him.
    by rewrite Him, length_fmap.
Qed.

(** X13: when the loop over the ion types of process_peptides_xgb
    completes, every ion type has one group per record, whatever the length
    of the predicted vectors.  With at least one configured ion type,
    predictions holds one row per record and row i lists the groups of
    record i in the order of the configured ion types; with no ion type
    configured predictions is empty, however many records there are. *)
Theorem X13_predictions_are_regrouped_per_record
    (peptides : list string) (files : list (string * string))
    (predictions : list (list (list A))) :
  process_peptides_xgb_predictions float32 predict peptides files
    = Ok predictions →
  ∃ preds_list,
    process_peptides_xgb float32 predict peptides files = Ok preds_list
    ∧ length preds_list = length files
    ∧ Forall (λ groups, length groups = length peptides) preds_list
    ∧ (files = [] → predictions = [])
    ∧ (files ≠ [] →
       length predictions = length peptides
       ∧ ∀ i row, predictions !! i = Some row →
           length row = length files
           ∧ ∀ j, row !! j = preds_list !! j ≫= (λ groups, groups !! i)).
Proof.
  unfold process_peptides_xgb_predictions.
  destruct (process_peptides_xgb float32 predict peptides files)
    as [preds_list|] eqn:E; [|done].
  simpl. intros [= <-]. exists preds_list.
  apply process_peptides_xgb_groups in E as [Hlen Hall].
  split; [done|]. split; [done|]. split; [done|]. split.
  - intros ->. by destruct preds_list.
  - intros Hne. split.
    + apply zip_star_length; [|done]. intros ->. by destruct files.
    + intros i row Hrow. apply zip_star_lookup in Hrow as (_ & Hr & Hnth).
      split; [congruence | done].
Qed.
End predictions_facts.

Lemma X13_witness :
  let predict : string → result (list Z) := λ _, Ok [1; 2; 3; 4; 5; 6; 7] in
  let peptides := ["ACDE"; "ACDEK"] in
  let files := [("b", "model_b.xgboost"); ("y", "model_y.xgboost")] in
  let predictions := [[[1; 2; 3]; [3; 2; 1]];
                      [[4; 5; 6; 7]; [7; 6; 5; 4]]] in
  ∃ preds_list,
    process_peptides_xgb id predict peptides files = Ok preds_list
    ∧ length preds_list = length files
    ∧ Forall (λ groups, length groups = length peptides) preds_list
    ∧ (files = [] → predictions = [])
    ∧ (files ≠ [] →
       length predictions = length peptides
       ∧ ∀ i row, predictions !! i = Some row →
           length row = length files
           ∧ ∀ j, row !! j = preds_list !! j ≫= (λ groups, groups !! i)).
Proof.
  intros predict peptides files predictions.
  apply (X13_predictions_are_regrouped_per_record id predict peptides files
           predictions).
  reflexivity.
Defined.

(** ** The batch predictor: features and m/z values of the records *)

Lemma smapM_result {S A B} (f : A → SE S B) (g : A → result B)
    (l : list A) :
  (∀ x s, (f x s).2 = g x) → ∀ s, (smapM f l s).2 = mapM g l.
Proof.
  intros Hf. induction l as [|x l IH]; intros s; simpl; [done|].
  unfold sbind at 1. specialize (Hf x s).
  destruct (f x s) as [s1 [y|e]]; simpl in Hf; rewrite <- Hf; simpl; [|done].
  unfold sbind. specialize (IH s1).
  by destruct (smapM f l s1) as [s2 [ys|e]]; simpl in IH; rewrite <- IH.
Qed.

Section ms2pip_data_facts.
Variable py_int : string → option Z.
Variable AMINO_ACID_IDS : gmap string Z.
Context {Vec Mz Matrix : Type}.
Variable get_vector : list Z → list Z → Z → Vec.
Variable get_mzs : list Z → Z → Mz.
Variable np_vstack : list Vec → result Matrix.
Variable ptm_ids : gmap string Z.
Variable peaks_version : Z.

Lemma ms2pip_data_for_row_result (r : row) (h : heap) :
  h ⊆ (ms2pip_data_for_row py_int AMINO_ACID_IDS get_vector get_mzs
         ptm_ids peaks_version r h).1
  ∧ (ms2pip_data_for_row py_int AMINO_ACID_IDS get_vector get_mzs
       ptm_ids peaks_version r h).2
    = row_data py_int AMINO_ACID_IDS get_vector get_mzs ptm_ids
        peaks_version r.
Proof.
  destruct (ms2pip_data_for_row py_int AMINO_ACID_IDS get_vector get_mzs
              ptm_ids peaks_version r h) as [hr res] eqn:Hrun.
  simpl. revert Hrun. unfold ms2pip_data_for_row, row_data.
  unfold sbind at 1. unfold slift at 1.
  destruct (encode_row_peptide AMINO_ACID_IDS (row_peptide r))
    as [enc|e]; simpl; [|by intros [= <- <-]].
  unfold sbind at 1.
  destruct (alloc_fresh enc h) as (l & -> & Hl).
  set (h1 := <[l := enc]> h).
  assert (h1 !! l = Some enc) as Hl1 by apply lookup_insert_eq.
  assert (h ⊆ h1) as Hsub by by apply insert_subseteq.
  pose proof (apply_mods_simulation py_int ptm_ids h1 l enc
                (row_modifications r) Hl1) as Hsim.
  unfold sbind at 1.
  destruct (mods_contents py_int ptm_ids (row_modifications r) enc)
    as [a'|e].
  - destruct Hsim as (l' & -> & Hl'). simpl. unfold Numpy.deref.
    assert (l ≠ l') as Hne by congruence.
    unfold sbind, sget, sret.
    rewrite lookup_insert_eq, lookup_insert_ne, Hl1 by done. simpl.
    intros [= <- <-]. split; [|done].
    etrans; [done|]. by apply insert_subseteq.
  - destruct (apply_mods py_int l (row_modifications r) ptm_ids h1)
      as [h2 r2] eqn:E.
    simpl in Hsim. subst r2. simpl. intros [= <- <-]. split; [|done].
    apply apply_mods_frame in E as [Hsub2 _]. by etrans.
Qed.

Lemma _get_ms2pip_data_for_xgb_result (peprec : list row) (h : heap) :
  h ⊆ (_get_ms2pip_data_for_xgb py_int AMINO_ACID_IDS get_vector get_mzs
         np_vstack peprec peaks_version ptm_ids h).1
  ∧ (_get_ms2pip_data_for_xgb py_int AMINO_ACID_IDS get_vector get_mzs
       np_vstack peprec peaks_version ptm_ids h).2
    = (lists <- mapM (row_data py_int AMINO_ACID_IDS get_vector get_mzs
                        ptm_ids peaks_version) peprec ;;
       feature_vectors <- np_vstack lists.*1 ;;
       Ok (feature_vectors, lists.*2)).
Proof.
  destruct (_get_ms2pip_data_for_xgb py_int AMINO_ACID_IDS get_vector
              get_mzs np_vstack peprec peaks_version ptm_ids h)
    as [hr res] eqn:Hrun.
  simpl. revert Hrun. unfold _get_ms2pip_data_for_xgb.
  pose proof (smapM_result
                (ms2pip_data_for_row py_int AMINO_ACID_IDS get_vector
                   get_mzs ptm_ids peaks_version)
                (row_data py_int AMINO_ACID_IDS get_vector get_mzs ptm_ids
                   peaks_version) peprec
                (λ x s, proj2 (ms2pip_data_for_row_result x s)) h) as Hres.
  pose proof (smapM_preserves (λ s, h ⊆ s)
                (ms2pip_data_for_row py_int AMINO_ACID_IDS get_vector
                   get_mzs ptm_ids peaks_version) peprec) as Hframe.
  simpl in Hframe. specialize (Hframe
    (λ x s Hs, transitivity Hs (proj1 (ms2pip_data_for_row_result x s)))
    h (reflexivity h)).
  unfold sbind at 1.
  destruct (smapM _ peprec h) as [h' [lists|e]]; simpl in *;
    rewrite <- Hres; simpl; [|by intros [= <- <-]].
  unfold sbind, slift, sret.
  by destruct (np_vstack lists.*1); intros [= <- <-].
Qed.

(** X14: _get_ms2pip_data_for_xgb leaves every array of the caller's heap
    as it was, and its result does not depend on the heap.  When it
    returns, the m/z list has one entry per record and the stacked matrix
    is built from one vector per record: for record i the vector is
    get_vector of the unmodified encoding, the modified copy and the
    charge, and the entry is get_mzs of the modified copy; the encoding
    handed to get_vector is not changed by apply_mods. *)
Theorem X14_batch_data_per_record (peprec : list row) (h : heap) :
  let run := _get_ms2pip_data_for_xgb py_int AMINO_ACID_IDS get_vector
               get_mzs np_vstack peprec peaks_version ptm_ids in
  h ⊆ (run h).1
  ∧ (∀ h', (run h').2 = (run h).2)
  ∧ ∀ feature_vectors mz_list,
      (run h).2 = Ok (feature_vectors, mz_list) →
      length mz_list = length peprec
      ∧ ∃ vector_list,
          np_vstack vector_list = Ok feature_vectors
          ∧ length vector_list = length peprec
          ∧ ∀ i r, peprec !! i = Some r →
              ∃ encoded modified,
                encode_row_peptide AMINO_ACID_IDS (row_peptide r)
                  = Ok encoded
                ∧ mods_contents py_int ptm_ids (row_modifications r)
                    encoded = Ok modified
                ∧ vector_list !! i
                  = Some (get_vector encoded modified (row_charge r))
                ∧ mz_list !! i = Some (get_mzs modified peaks_version).
Proof.
  intros run. split; [apply _get_ms2pip_data_for_xgb_result|]. split.
  - intros h'. unfold run.
    rewrite (proj2 (_get_ms2pip_data_for_xgb_result peprec h')).
    by rewrite (proj2 (_get_ms2pip_data_for_xgb_result peprec h)).
  - intros feature_vectors mz_list. unfold run.
    rewrite (proj2 (_get_ms2pip_data_for_xgb_result peprec h)).
    destruct (mapM _ peprec) as [lists|] eqn:E; [|done]. simpl.
    destruct (np_vstack lists.*1) as [fv|] eqn:Hfv; [|done]. simpl.
    intros [= <- <-]. apply mapM_Ok_Forall2 in E.
    pose proof (Forall2_length _ _ _ E) as Hlen.
    split; [by rewrite length_fmap|].
    exists lists.*1. split; [done|]. split; [by rewrite length_fmap|].
    intros i r Hr.
    destruct (Forall2_lookup_l _ _ _ _ _ E Hr) as ([v m] & Hi & Hrow).
    unfold row_data in Hrow.
    destruct (encode_row_peptide AMINO_ACID_IDS (row_peptide r))
      as [encoded|] eqn:Henc; [|done]. simpl in Hrow.
    destruct (mods_contents py_int ptm_ids (row_modifications r) encoded)
      as [modified|] eqn:Hmod; [|done]. simpl in Hrow.
    injection Hrow as <- <-. exists encoded, modified.
    rewrite !list_lookup_fmap, Hi. done.
Qed.
End ms2pip_data_facts.

(** X17: the encoding of a record's peptide in _get_ms2pip_data_for_xgb
    looks every character up after the L-to-I replacement only: it succeeds
    for a peptide of any length whose characters are keys of the table, with
    two more elements than the peptide has characters, and raises KeyError
    with the first character that is not a key.  With the table of the
    peptides module it returns, on the upper-cased peptide, what
    encode_peptide returns whenever encode_peptide returns. *)
Theorem X17_record_encoding_has_no_length_check
    (table : gmap string Z) (peptide : string) :
  let residues := str_iter (str_replace "L" "I" peptide) in
  (Forall (λ x, is_Some (table !! x)) residues →
   ∃ ids, Forall2 (λ x v, table !! x = Some v) residues ids
          ∧ encode_row_peptide table peptide
            = Ok (np_array_uint16 ([0] ++ ids ++ [0])))
  ∧ (∀ pre k post,
       residues = pre ++ k :: post →
       Forall (λ x, is_Some (table !! x)) pre → table !! k = None →
       encode_row_peptide table peptide = Raise (KeyError k))
  ∧ (∀ arr, encode_row_peptide table peptide = Ok arr →
            length arr = (String.length peptide + 2)%nat)
  ∧ (∀ arr, encode_peptide peptide = Ok arr →
            encode_row_peptide Peptides.AMINO_ACID_IDS (str_upper peptide)
            = Ok arr).
Proof.
  intros residues. unfold encode_row_peptide. fold residues.
  split; [|split; [|split]].
  - intros Hall. destruct (mapM_getitem_Ok _ _ Hall) as (ids & -> & H2).
    by exists ids.
  - intros pre k post -> Hpre Hk.
    by rewrite mapM_getitem_first_missing.
  - intros arr. destruct (mapM _ residues) as [ids|] eqn:E; [|done].
    unfold bind. intros [= <-]. apply mapM_Ok_Forall2 in E.
    apply Forall2_length in E.
    change (S (length (uint16 <$> ids ++ [0]))
            = (String.length peptide + 2)%nat).
    rewrite length_fmap, length_app. simpl.
    rewrite <- E. unfold residues, str_replace.
    clear. induction peptide as [|c s IH]; simpl; lia.
  - intros arr (_ & ids & Hids & ->)%encode_peptide_Ok_inv.
    unfold folded in Hids. by rewrite Hids.
Qed.

(** ** Fetching a model file *)

Lemma sbind_always_raises {S A B} (m : SE S A) (k : A → SE S B) (s : S) :
  (∀ a s', ∃ e, (k a s').2 = Raise e) → ∃ e, (sbind m k s).2 = Raise e.
Proof.
  intros Hk. unfold sbind. destruct (m s) as [s' [a|e]]; [apply Hk|].
  by exists e.
Qed.

Section download_facts.
Variable home : string.
Variable sha1_hexdigest : string → string.
Variable os_mkdir : string → SE filesystem unit.
Variable urlretrieve : string → string → SE filesystem unit.

Lemma download_model_raises model fs :
  ∃ e, (download_model home sha1_hexdigest os_mkdir urlretrieve model fs).2
       = Raise e.
Proof.
  unfold download_model.
  apply sbind_always_raises. intros fs0 s0.
  apply sbind_always_raises. intros _ s1.
  apply sbind_always_raises. intros _ s2.
  apply sbind_always_raises. intros fs3 s3.
  unfold sbind, slift.
  destruct (check_model_integrity_outcomes sha1_hexdigest fs3
              (path_join (path_join home ".ms2pip") model))
    as [->|[->| ->]]; by eexists.
Qed.

(** X15: download_model never returns: whatever os.mkdir and urlretrieve
    do, the call ends in an exception, because the integrity check that
    closes it never returns.  The step of process_peptides_xgb that makes a
    model file present therefore never completes either: when the
    directory or the file is missing it is the call of download_model, and
    when the file is there the presence check raises IndexError, OSError or
    NameError without anything being downloaded or written. *)
Theorem X15_model_download_never_completes (model : string)
    (fs : filesystem) :
  let dir := path_join home ".ms2pip" in
  let download := download_model home sha1_hexdigest os_mkdir urlretrieve in
  let ensure := ensure_model home sha1_hexdigest os_mkdir urlretrieve in
  (∃ e, (download model fs).2 = Raise e)
  ∧ (∃ e, (ensure model fs).2 = Raise e)
  ∧ (isdir fs dir = false ∨ isfile fs (path_join dir model) = false →
     ensure model fs = download model fs)
  ∧ (isdir fs dir = true → isfile fs (path_join dir model) = true →
     ∃ e, ensure model fs = (fs, Raise e)
          ∧ (e = IndexError "list index out of range"
             ∨ e = OSError (path_join dir model)
             ∨ e = NameError "f")).
Proof.
  intros dir download ensure.
  assert (isdir fs dir = false ∨ isfile fs (path_join dir model) = false →
          ensure model fs = download model fs) as Hmissing.
  { intros Hm. unfold ensure, ensure_model, check_model_presence.
    unfold sbind at 1. unfold sget at 1. unfold sbind at 1. unfold slift.
    fold dir. destruct (isdir fs dir); simpl; [|done].
    destruct Hm as [Hm|Hm]; [done|]. by rewrite Hm. }
  assert (isdir fs dir = true → isfile fs (path_join dir model) = true →
          ∃ e, ensure model fs = (fs, Raise e)
               ∧ (e = IndexError "list index out of range"
                  ∨ e = OSError (path_join dir model)
                  ∨ e = NameError "f")) as Hpresent.
  { intros Hd Hf. unfold ensure, ensure_model, check_model_presence.
    unfold sbind at 1. unfold sget at 1. unfold sbind at 1. unfold slift.
    fold dir. rewrite Hd, Hf. simpl.
    destruct (check_model_integrity_outcomes sha1_hexdigest fs
                (path_join dir model)) as [->|[->| ->]];
      simpl; eexists; (split; [done|]); auto. }
  split; [apply download_model_raises|]. split; [|done].
  destruct (isdir fs dir) eqn:Hd.
  - destruct (isfile fs (path_join dir model)) eqn:Hf.
    + destruct Hpresent as (e & -> & _); [done..|]. by exists e.
    + rewrite Hmissing by by right. apply download_model_raises.
  - rewrite Hmissing by by left. apply download_model_raises.
Qed.
End download_facts.

(** ** The precursor of an unmodified peptide *)

(** X16: calc_precursor_mz never returns a result for charge 0, whatever
    the peptide, the modification string and the registry.  For a
    modification string without the separator (the empty string and "-"
    among them) it consults no lookup, so the registry and its caches stay
    as they are, and for a non-zero charge the mass is the unmodified mass
    plus the empty sum. *)
Theorem X16_precursor_without_modifications
    {F : Type} (fast_mass : string → result F) (fadd fmul fdiv : F → F → F)
    (float_of_int : Z → option F) (fsum : list F → F) (PROTON_MASS : F)
    (self : Modifications F) (peptide mods : string) (charge : Z) :
  let res := calc_precursor_mz fast_mass fadd fmul fdiv float_of_int fsum
               PROTON_MASS peptide mods charge self in
  (charge = 0 → ∀ v, res.2 ≠ Ok v)
  ∧ (str_split "|" mods = [mods] →
     res.1 = self
     ∧ ∀ m0 c, fast_mass peptide = Ok m0 →
               float_of_int charge = Some c →
               charge ≠ 0 →
               res.2 = Ok (fadd m0 (fsum []),
                           fdiv (fadd (fadd m0 (fsum []))
                                      (fmul c PROTON_MASS)) c)).
Proof.
  intros res. split.
  - intros -> v. unfold res. rewrite calc_precursor_mz_result.
    destruct (fast_mass peptide); simpl; [|done].
    destruct (mapM _ _); simpl; [|done].
    by destruct (float_of_int 0).
  - intros Hsplit. unfold res, calc_precursor_mz. rewrite Hsplit. simpl.
    unfold sbind at 1. unfold slift at 1.
    destruct (fast_mass peptide) as [m|]; simpl.
    + unfold sbind, sret. simpl.
      destruct (float_of_int charge) as [c0|]; simpl.
      * destruct (decide (charge = 0)); simpl; split; try done.
        intros m0 c [= <-] [= <-] _. done.
      * split; [done|]. intros m0 c _ [=].
    + split; [done|]. intros m0 c [=].
Qed.

(** ** Scanning an MGF file *)

Section scan_facts.
Variable spec_dict : gset string.
Implicit Types (st : scan) (line : string) (lines : list string).

Lemma scan_line_skip st line :
  found st = false → selects spec_dict line = false →
  scan_line spec_dict st line = st.
Proof.
  unfold selects, scan_line. intros Hf Hs.
  destruct (str_contains "TITLE" line); cbn [andb] in Hs; [rewrite Hs|];
    destruct (str_contains "END IONS" line); cbv zeta; by rewrite !Hf.
Qed.

Lemma scan_line_selected st line :
  selects spec_dict line = true → closes line = false →
  scan_line spec_dict st line
  = {| found := true; count := count st + 1;
       out := out st ++ ["BEGIN IONS" +:+ LF]
                     ++ filter copied [line] |}.
Proof.
  unfold selects, closes, scan_line, copied.
  intros [-> ->]%andb_true_iff ->. simpl found. simpl count. simpl out.
  rewrite filter_cons, filter_nil.
  case_bool_decide; case_decide; try done; simpl;
    by rewrite <- ?app_assoc, ?app_nil_r.
Qed.

Lemma scan_line_inside st line :
  found st = true → selects spec_dict line = false → closes line = false →
  scan_line spec_dict st line
  = {| found := true; count := count st;
       out := out st ++ filter copied [line] |}.
Proof.
  unfold selects, closes, scan_line, copied. intros Hf Hs ->.
  rewrite filter_cons, filter_nil.
  assert ((if str_contains "TITLE" line
           then if bool_decide (str_strip (str_drop 6 line) ∈ spec_dict)
                then {| found := true; count := count st + 1;
                        out := out st ++ ["BEGIN IONS" +:+ LF] |}
                else st
           else st) = st) as ->.
  { destruct (str_contains "TITLE" line); [|done]. cbn [andb] in Hs.
    by rewrite Hs. }
  rewrite Hf. simpl. clear Hs.
  case_bool_decide; case_decide; try done; simpl.
  rewrite app_nil_r. destruct st. simpl in *. by subst.
Qed.

Lemma scan_line_closing st line :
  found st = true → selects spec_dict line = false → closes line = true →
  scan_line spec_dict st line
  = {| found := false; count := count st; out := out st ++ [line +:+ LF] |}.
Proof.
  unfold selects, closes, scan_line. intros Hf Hs ->.
  assert ((if str_contains "TITLE" line
           then if bool_decide (str_strip (str_drop 6 line) ∈ spec_dict)
                then {| found := true; count := count st + 1;
                        out := out st ++ ["BEGIN IONS" +:+ LF] |}
                else st
           else st) = st) as ->.
  { destruct (str_contains "TITLE" line); [|done]. cbn [andb] in Hs.
    by rewrite Hs. }
  by rewrite Hf.
Qed.

Lemma scan_skip st lines :
  found st = false → Forall (λ line, selects spec_dict line = false) lines →
  foldl (scan_line spec_dict) st lines = st.
Proof.
  intros Hf Hall. induction Hall as [|line lines Hs _ IH]; simpl; [done|].
  by rewrite scan_line_skip.
Qed.

Lemma scan_inside st lines :
  found st = true →
  Forall (λ line, selects spec_dict line = false ∧ closes line = false)
    lines →
  foldl (scan_line spec_dict) st lines
  = {| found := true; count := count st;
       out := out st ++ filter copied lines |}.
Proof.
  intros Hf Hall. revert st Hf.
  induction Hall as [|line lines [Hs Hc] _ IH]; intros st Hf; simpl.
  - rewrite filter_nil, app_nil_r. destruct st. simpl in *. by subst.
  - rewrite scan_line_inside by done. rewrite IH by done. simpl.
    rewrite <- app_assoc. f_equal. f_equal.
    rewrite (filter_cons _ line lines), filter_cons, filter_nil.
    by case_decide.
Qed.

(** X18: the scan of the lines of one spectrum whose title line (a line
    containing TITLE whose text from the seventh character on, stripped, is
    a key of spec_dict) opens it: the counter goes up by one, and the
    output receives BEGIN IONS and a line feed, then the title line and the
    lines up to the closing line except those that end in 0.0 and a line
    feed, then the closing line followed by one more line feed; found is
    False afterwards.  This does not depend on the value of found before
    the title line. *)
Theorem X18_selected_spectrum_is_copied st title_line body end_line :
  selects spec_dict title_line = true →
  closes title_line = false →
  Forall (λ line, selects spec_dict line = false ∧ closes line = false)
    body →
  selects spec_dict end_line = false →
  closes end_line = true →
  foldl (scan_line spec_dict) st (title_line :: body ++ [end_line])
  = {| found := false;
       count := count st + 1;
       out := out st ++ ["BEGIN IONS" +:+ LF]
                     ++ filter copied (title_line :: body)
                     ++ [end_line +:+ LF] |}.
Proof.
  intros Ht Htc Hbody He Hec. simpl.
  rewrite scan_line_selected by done. rewrite foldl_app.
  rewrite (scan_inside _ body) by done. simpl.
  rewrite scan_line_closing by done. simpl. f_equal.
  rewrite <- !app_assoc. do 2 f_equal.
  rewrite (filter_cons _ title_line body), filter_cons, filter_nil.
  case_decide; simpl; by rewrite <- ?app_assoc.
Qed.

(** X19: outside a selected spectrum nothing happens: lines none of which
    is the title line of a spectrum of the run leave the counter and the
    output as they are when found is False, whatever the lines contain; a
    run whose file has no such title line writes nothing. *)
Theorem X19_unselected_lines_are_skipped st lines :
  Forall (λ line, selects spec_dict line = false) lines →
  (found st = false → foldl (scan_line spec_dict) st lines = st)
  ∧ count (scan_run spec_dict st lines) = count st
  ∧ out (scan_run spec_dict st lines) = out st.
Proof.
  intros Hall. split; [by intros; apply scan_skip|].
  unfold scan_run. by rewrite scan_skip.
Qed.

Lemma scan_line_effects st line :
  count (scan_line spec_dict st line)
  = count st + (if selects spec_dict line then 1 else 0)
  ∧ ∃ written,
      out (scan_line spec_dict st line) = out st ++ written
      ∧ Forall (λ chunk, chunk = "BEGIN IONS" +:+ LF
                         ∨ (chunk = line ∧ copied line)
                         ∨ (chunk = line +:+ LF ∧ closes line = true))
          written.
Proof.
  unfold scan_line, selects, closes, copied.
  generalize (str_contains "TITLE" line)
    (bool_decide (str_strip (str_drop 6 line) ∈ spec_dict))
    (str_contains "END IONS" line).
  intros c1 b c2.
  destruct (decide (str_suffix 4 line ≠ "0.0" +:+ LF)) as [Hk|Hk];
    [rewrite (bool_decide_eq_true_2 _ Hk)
    |rewrite (bool_decide_eq_false_2 _ Hk)];
    destruct c1, b, c2, (found st) eqn:Hf;
    cbn [andb found count out]; rewrite ?Hf; cbn [andb found count out];
    (split; [lia|]);
    rewrite <- ?app_assoc;
    first [ by exists []; rewrite app_nil_r
          | eexists; split; [reflexivity|];
            repeat constructor; by auto ].
Qed.

(** X20: over any lines and from any state, the counter goes up by the
    number of title lines of spectra of the run (a title that occurs twice
    is counted twice), and the output only grows: each written chunk is
    BEGIN IONS with a line feed, a line of the input that does not end in
    0.0 and a line feed, or a line containing END IONS followed by one more
    line feed. *)
Theorem X20_scan_counts_titles_and_appends st lines :
  let st' := foldl (scan_line spec_dict) st lines in
  count st'
  = count st
    + Z.of_nat (length (filter (λ line, selects spec_dict line = true)
                          lines))
  ∧ ∃ written,
      out st' = out st ++ written
      ∧ Forall (λ chunk,
                  chunk = "BEGIN IONS" +:+ LF
                  ∨ (chunk ∈ lines ∧ copied chunk)
                  ∨ ∃ line, line ∈ lines ∧ closes line = true
                            ∧ chunk = line +:+ LF)
          written.
Proof.
  revert st. induction lines as [|line lines IH]; intros st; simpl.
  - split; [lia|]. exists []. by rewrite app_nil_r.
  - destruct (IH (scan_line spec_dict st line)) as (Hc & w & Ho & Hw).
    destruct (scan_line_effects st line) as (Hc1 & w1 & Ho1 & Hw1).
    split.
    + rewrite Hc, Hc1, filter_cons.
      destruct (selects spec_dict line); case_decide; try done;
        simpl length; lia.
    + exists (w1 ++ w). split; [by rewrite Ho, Ho1, app_assoc|].
      apply Forall_app. split.
      * eapply Forall_impl; [done|]. simpl.
        intros chunk [->|[[-> Hk]|[-> Hcl]]]; [by left| |].
        -- right. left. split; [by left|done].
        -- right. right. exists line. split; [by left|done].
      * eapply Forall_impl; [done|]. simpl.
        intros chunk [->|[[Hin Hk]|(l & Hin & Hcl & ->)]]; [by left| |].
        -- right. left. split; [by right|done].
        -- right. right. exists l. split; [by right|done].
Qed.
End scan_facts.

Lemma X18_witness :
  let spec_dict : gset string := {[ "spec1" ]} in
  let st := {| found := false; count := 0; out := [] |} in
  let title_line := "TITLE=spec1" +:+ LF in
  let body := ["100.0 5.0" +:+ LF; "200.0 0.0" +:+ LF] in
  let end_line := "END IONS" +:+ LF in
  foldl (scan_line spec_dict) st (title_line :: body ++ [end_line])
  = {| found := false;
       count := count st + 1;
       out := out st ++ ["BEGIN IONS" +:+ LF]
                     ++ filter copied (title_line :: body)
                     ++ [end_line +:+ LF] |}.
Proof.
  intros spec_dict st title_line body end_line.
  apply (X18_selected_spectrum_is_copied spec_dict st title_line body
           end_line).
  - vm_compute. reflexivity.
  - vm_compute. reflexivity.
  - repeat (constructor; [vm_compute; split; reflexivity|]). constructor.
  - vm_compute. reflexivity.
  - vm_compute. reflexivity.
Defined.

Lemma X19_witness :
  let spec_dict : gset string := {[ "spec1" ]} in
  let st := {| found := false; count := 3; out := ["END IONS" +:+ LF] |} in
  let lines := ["BEGIN IONS" +:+ LF; "TITLE=other" +:+ LF;
                "100.0 5.0" +:+ LF; "END IONS" +:+ LF] in
  (found st = false → foldl (scan_line spec_dict) st lines = st)
  ∧ count (scan_run spec_dict st lines) = count st
  ∧ out (scan_run spec_dict st lines) = out st.
Proof.
  intros spec_dict st lines.
  apply (X19_unselected_lines_are_skipped spec_dict st lines).
  repeat (constructor; [vm_compute; reflexivity|]). constructor.
Defined.
